(** * Batch file tools of the coding agent: a shallow embedding

    The five batch tools ([readFilesTool], [writeFilesTool],
    [deleteItemsTool], [createDirectoriesTool], [listDirectoriesTool]) are
    TypeScript [async] functions that talk to the host editor through
    collaborators (the approval callback, the ignore controller, the
    [vscode.workspace.fs] driver, ...).  They are embedded here as functions
    in a small monad that threads the host environment and the mutable
    [Cline] fields and records every collaborator call in a trace. *)

From Stdlib Require Import String Ascii List ZArith Lia Bool DecimalString.
From Stdlib.Strings Require Import Byte.
Import ListNotations.

Set Warnings "-register-all".

Open Scope string_scope.
Open Scope list_scope.
Open Scope Z_scope.

Infix "^^" := String.append (at level 60, right associativity).

(* ===================================================================== *)
(** ** JavaScript values and the built-ins the tools use *)
(* ===================================================================== *)

Module Js.

(** JavaScript values as the tools receive them in [block.params].
    Numbers are integers here (exact below 2^53). *)
Inductive JsValue : Type :=
| JsUndefined
| JsNull
| JsBool (b : bool)
| JsNumber (z : Z)
| JsString (s : string)
| JsArray (elems : list JsValue)
| JsObject (fields : list (string * JsValue)).

(** A thrown value: an [Error] object with its optional [code] and its
    [message] (an absent message is the empty string, both are falsy). *)
Record JsError : Type := mkError { code : option string; message : string }.

(** The outcome of an awaited promise. *)
Inductive Settled (A : Type) : Type :=
| Fulfilled (a : A)
| Rejected (e : JsError).
Arguments Fulfilled {A} a.
Arguments Rejected {A} e.

(** [!v] is [negb (truthy v)]. *)
Definition truthy (v : JsValue) : bool :=
  match v with
  | JsUndefined | JsNull => false
  | JsBool b => b
  | JsNumber z => negb (z =? 0)
  | JsString s => negb (s =? "")%string
  | JsArray _ | JsObject _ => true
  end.

(** Truthiness of a [string | undefined]. *)
Definition truthyStr (s : option string) : bool :=
  match s with
  | Some v => negb (v =? "")%string
  | None => false
  end.

Definition isArray (v : JsValue) : bool :=
  match v with JsArray _ => true | _ => false end.

(** [typeof v === "object"] *)
Definition typeofObject (v : JsValue) : bool :=
  match v with JsNull | JsArray _ | JsObject _ => true | _ => false end.

Fixpoint assoc (k : string) (fs : list (string * JsValue)) : JsValue :=
  match fs with
  | [] => JsUndefined
  | (k', v) :: r => if (k =? k')%string then v else assoc k r
  end.

(** [v.k] for a property name [k] that arrays and primitives do not
    have; reading a property of [null] or [undefined] throws. *)
Definition getProp (v : JsValue) (k : string) : Settled JsValue :=
  match v with
  | JsUndefined =>
      Rejected (mkError None ("Cannot read properties of undefined (reading '" ^^ k ^^ "')"))
  | JsNull =>
      Rejected (mkError None ("Cannot read properties of null (reading '" ^^ k ^^ "')"))
  | JsObject fs => Fulfilled (assoc k fs)
  | _ => Fulfilled JsUndefined
  end.

(** [error?.code === "FileNotFound"] *)
Definition isFileNotFound (err : JsError) : bool :=
  match code err with
  | Some c => (c =? "FileNotFound")%string
  | None => false
  end.

(** [a || b] on strings. *)
Definition orElse (a b : string) : string :=
  if (a =? "")%string then b else a.

(** Strings are kept as UTF-8 bytes.  White space in the sense of
    [String.prototype.trim] and of [parseInt] is WhiteSpace and
    LineTerminator: the six ASCII blanks, U+00A0 (two bytes) and U+1680,
    U+2000 to U+200A, U+2028, U+2029, U+202F, U+205F, U+3000 and U+FEFF
    (three bytes each). *)
Definition isSpace (c : ascii) : bool :=
  match nat_of_ascii c with
  | 9%nat | 10%nat | 11%nat | 12%nat | 13%nat | 32%nat => true
  | _ => false
  end.

(** U+00A0 is [C2 A0]. *)
Definition isSpace2 (c d : ascii) : bool :=
  let c := Z.of_nat (nat_of_ascii c) in
  let d := Z.of_nat (nat_of_ascii d) in
  (c =? 194) && (d =? 160).

(** U+1680 is [E1 9A 80]; U+2000 to U+200A, U+2028, U+2029 and U+202F
    are [E2 80 80] to [E2 80 8A], [E2 80 A8], [E2 80 A9] and [E2 80 AF];
    U+205F is [E2 81 9F]; U+3000 is [E3 80 80]; U+FEFF is [EF BB BF]. *)
Definition isSpace3 (c d e : ascii) : bool :=
  let c := Z.of_nat (nat_of_ascii c) in
  let d := Z.of_nat (nat_of_ascii d) in
  let e := Z.of_nat (nat_of_ascii e) in
  ((c =? 225) && (d =? 154) && (e =? 128))
  || ((c =? 226) && (d =? 128)
      && (((128 <=? e) && (e <=? 138)) || (e =? 168) || (e =? 169) || (e =? 175)))
  || ((c =? 226) && (d =? 129) && (e =? 159))
  || ((c =? 227) && (d =? 128) && (e =? 128))
  || ((c =? 239) && (d =? 187) && (e =? 191)).

Fixpoint trimStart (s : string) : string :=
  match s with
  | EmptyString => EmptyString
  | String c r =>
      if isSpace c then trimStart r
      else
        match r with
        | EmptyString => s
        | String d r1 =>
            if isSpace2 c d then trimStart r1
            else
              match r1 with
              | EmptyString => s
              | String e r2 => if isSpace3 c d e then trimStart r2 else s
              end
        end
  end.

(** The string is cut where what is left is white space only. *)
Fixpoint trimEnd (s : string) : string :=
  match s with
  | EmptyString => EmptyString
  | String c r => if (trimStart s =? "")%string then EmptyString else String c (trimEnd r)
  end.

Definition trim (s : string) : string := trimEnd (trimStart s).

(** [hay.includes(needle)] *)
Fixpoint includes (hay needle : string) : bool :=
  String.prefix needle hay ||
  match hay with
  | EmptyString => false
  | String _ r => includes r needle
  end.

(** [xs.join(sep)] *)
Definition join (sep : string) (xs : list string) : string :=
  String.concat sep xs.

(** [`${n}`] for an integer. *)
Definition numToString (z : Z) : string :=
  NilZero.string_of_int (Z.to_int z).

Definition digitValue (c : ascii) : option Z :=
  let n := Z.of_nat (nat_of_ascii c) in
  if (48 <=? n) && (n <=? 57) then Some (n - 48)
  else if (97 <=? n) && (n <=? 122) then Some (n - 87)
  else if (65 <=? n) && (n <=? 90) then Some (n - 55)
  else None.

Fixpoint parseDigits (radix : Z) (s : string) (acc : option Z) : option Z :=
  match s with
  | EmptyString => acc
  | String c r =>
      match digitValue c with
      | Some d =>
          if d <? radix
          then parseDigits radix r
                 (Some (match acc with Some a => a * radix + d | None => d end))
          else acc
      | None => acc
      end
  end.

(** [Number.MAX_SAFE_INTEGER], 2^53 - 1: up to it a JavaScript number
    holds an integer, its predecessor and its successor exactly. *)
Definition MAX_SAFE_INTEGER : Z := 9007199254740991.

(** [parseInt(s)] with no radix; [None] is [NaN].  The result is the
    integer the digits denote.  It is the JavaScript number up to 2^53 in
    magnitude; beyond, the number is the nearest double (and an infinity
    past the largest one), which this integer is not: what is stated of
    the arithmetic on a parsed number is stated up to
    [MAX_SAFE_INTEGER]. *)
Definition parseInt (s : string) : option Z :=
  let s1 := trimStart s in
  let '(neg, s2) :=
    match s1 with
    | String "-" r => (true, r)
    | String "+" r => (false, r)
    | _ => (false, s1)
    end in
  let '(radix, s3) :=
    match s2 with
    | String "0" (String "x" r) => (16, r)
    | String "0" (String "X" r) => (16, r)
    | _ => (10, s2)
    end in
  match parseDigits radix s3 None with
  | Some v => Some (if neg then - v else v)
  | None => None
  end.

(** [new TextEncoder().encode(s)]: strings are kept as UTF-8 bytes. *)
Definition encode (s : string) : list byte := list_byte_of_string s.

(** [typeof p === "string" && p.trim() !== ""] *)
Definition isNonBlankString (v : JsValue) : bool :=
  match v with
  | JsString s => negb (trim s =? "")%string
  | _ => false
  end.

(** The strings of an array already filtered by [isNonBlankString]. *)
Fixpoint strings (vs : list JsValue) : list string :=
  match vs with
  | [] => []
  | JsString s :: r => s :: strings r
  | _ :: r => strings r
  end.

End Js.
Import Js.

(* ===================================================================== *)
(** ** The host: collaborators, trace and the tool monad *)
(* ===================================================================== *)

Module Runtime.

(** [block.params] and [block.partial] of a [ToolUse]. *)
Record ToolParams : Type := mkParams {
  paths : JsValue;
  items : JsValue;
  start_line : option string;
  end_line : option string;
  recursive : option string
}.

Record ToolUse : Type := mkToolUse { params : ToolParams; partial : bool }.

(** What [providerRef.deref()?.getState()] yields of interest. *)
Record ProviderState : Type := mkProviderState {
  maxReadFileLine : option Z;
  showRooIgnoredFiles : option bool
}.

(** One entry per collaborator call, in call order: the arguments of
    the call and, last, what the collaborator answered. *)
Inductive Event : Type :=
| EvValidateAccess (relPath : string) (allowed : bool)
| EvSay (kind text : string)
| EvMissingParam (tool param hint : string) (answer : string)
| EvAsk (content : string) (isPartial : bool)
| EvAskApproval (content : string) (answer : bool)
| EvHandleError (action : string) (err : JsError)
| EvPushToolResult (text : string)
| EvConsole (level text : string)
| EvGetState (answer : option ProviderState)
| EvFsDelete (uri : string) (recursiveOpt useTrashOpt : bool) (outcome : Settled unit)
| EvFsCreateDirectory (uri : string) (outcome : Settled unit)
| EvFsWriteFile (uri : string) (payload : list byte) (outcome : Settled unit)
| EvFileExists (file : string) (answer : bool)
| EvCountFileLines (file : string) (outcome : Settled Z)
| EvIsBinaryFile (file : string) (outcome : Settled bool)
| EvReadLines (file : string) (endLine startLine : option Z) (outcome : Settled string)
| EvExtractText (file : string) (outcome : Settled string)
| EvParseDefinitions (file : string) (outcome : Settled (option string))
| EvListFiles (dir : string) (recursiveOpt : bool) (limit : Z)
    (outcome : Settled (list string * bool))
| EvFormatFilesList (dir : string) (outcome : Settled string).

(** Pure functions the tools import from modules outside this layer
    ([path], [utils/path], [utils/pathUtils], [prompts/responses],
    [i18n], [extract-text], [JSON]). *)
Record Imports : Type := mkImports {
  path_resolve : string -> string -> string;
  path_dirname : string -> string;
  getReadablePath : string -> string -> string;
  isPathOutsideWorkspace : string -> bool;
  toolError : string -> string;
  rooIgnoreError : string -> string;
  t : string -> list (string * Z) -> string;
  addLineNumbers : string -> Z -> string;
  JSON_stringify : JsValue -> string
}.

(** The effectful collaborators, over a host environment [Env] (the
    file system, the ignore rules, the user in front of the dialog).  The
    calls made inside a [try] may throw, and what they throw is an [Error];
    the [Cline] methods and the four callbacks are taken not to throw.
    The last field is no collaborator but the timing of two of them:
    when [readLines] and [parseSourceCodeDefinitionsForFile] are awaited
    together on a file and both reject, whether the rejection of the
    outline parser is the first to arrive. *)
Record Host (Env : Type) : Type := mkHost {
  cwd : string;
  rooIgnoreController : option (string -> Env -> bool * Env);
  say : string -> string -> Env -> Env;
  sayAndCreateMissingParamError : string -> string -> string -> Env -> string * Env;
  ask : string -> bool -> Env -> Env;
  askApproval : string -> Env -> bool * Env;
  handleError : string -> JsError -> Env -> Env;
  pushToolResult : string -> Env -> Env;
  getState : Env -> option ProviderState * Env;
  fs_delete : string -> bool -> bool -> Env -> Settled unit * Env;
  fs_createDirectory : string -> Env -> Settled unit * Env;
  fs_writeFile : string -> list byte -> Env -> Settled unit * Env;
  fileExistsAtPath : string -> Env -> bool * Env;
  countFileLines : string -> Env -> Settled Z * Env;
  isBinaryFile : string -> Env -> Settled bool * Env;
  readLines : string -> option Z -> option Z -> Env -> Settled string * Env;
  extractTextFromFile : string -> Env -> Settled string * Env;
  parseSourceCodeDefinitionsForFile : string -> Env -> Settled (option string) * Env;
  listFiles : string -> bool -> Z -> Env -> Settled (list string * bool) * Env;
  formatFilesList : string -> list string -> bool -> bool -> Env -> Settled string * Env;
  outlineRejectsFirst : string -> Env -> bool
}.

Arguments cwd {Env} _.
Arguments rooIgnoreController {Env} _.
Arguments say {Env} _ _ _ _.
Arguments sayAndCreateMissingParamError {Env} _ _ _ _ _.
Arguments ask {Env} _ _ _ _.
Arguments askApproval {Env} _ _ _.
Arguments handleError {Env} _ _ _ _.
Arguments pushToolResult {Env} _ _ _.
Arguments getState {Env} _ _.
Arguments fs_delete {Env} _ _ _ _ _.
Arguments fs_createDirectory {Env} _ _ _.
Arguments fs_writeFile {Env} _ _ _ _.
Arguments fileExistsAtPath {Env} _ _ _.
Arguments countFileLines {Env} _ _ _.
Arguments isBinaryFile {Env} _ _ _.
Arguments readLines {Env} _ _ _ _ _.
Arguments extractTextFromFile {Env} _ _ _.
Arguments parseSourceCodeDefinitionsForFile {Env} _ _ _.
Arguments listFiles {Env} _ _ _ _ _.
Arguments formatFilesList {Env} _ _ _ _ _ _.
Arguments outlineRejectsFirst {Env} _ _ _.

(** The mutable part of a [Cline] instance together with the host
    environment. *)
Record Cline (Env : Type) : Type := mkCline {
  env : Env;
  consecutiveMistakeCount : Z;
  didEditFile : bool
}.
Arguments mkCline {Env} _ _ _.
Arguments env {Env} _.
Arguments consecutiveMistakeCount {Env} _.
Arguments didEditFile {Env} _.

(** A computation returns its value, the new state and the events it
    produced. *)
Definition M (Env A : Type) : Type := Cline Env -> A * Cline Env * list Event.

Definition ret {Env A} (a : A) : M Env A := fun c => (a, c, []).

Definition bind {Env A B} (m : M Env A) (f : A -> M Env B) : M Env B :=
  fun c =>
    let '(a, c1, t1) := m c in
    let '(b, c2, t2) := f a c1 in
    (b, c2, t1 ++ t2).

(** Call a collaborator that answers, and log the call. *)
Definition call {Env A} (f : Env -> A * Env) (ev : A -> Event) : M Env A :=
  fun c =>
    let '(a, e) := f (env c) in
    (a, mkCline e (consecutiveMistakeCount c) (didEditFile c), [ev a]).

(** Call a collaborator for its effect only. *)
Definition tell {Env} (f : Env -> Env) (ev : Event) : M Env unit :=
  call (fun e => (tt, f e)) (fun _ => ev).

(** Look at the host environment; no collaborator is called. *)
Definition peek {Env A} (f : Env -> A) : M Env A :=
  fun c => (f (env c), c, []).

(** [console.error] and [console.warn] touch nothing but the log. *)
Definition console {Env} (level text : string) : M Env unit :=
  fun c => (tt, c, [EvConsole level text]).

(** [cline.consecutiveMistakeCount++] *)
Definition incrMistakes {Env} : M Env unit :=
  fun c => (tt, mkCline (env c) (consecutiveMistakeCount c + 1) (didEditFile c), []).

(** [cline.consecutiveMistakeCount = 0] *)
Definition resetMistakes {Env} : M Env unit :=
  fun c => (tt, mkCline (env c) 0 (didEditFile c), []).

(** [cline.didEditFile = true] *)
Definition markEdited {Env} : M Env unit :=
  fun c => (tt, mkCline (env c) (consecutiveMistakeCount c) true, []).

(** [for (const x of xs) { ... }] whose body updates the locals [s]. *)
Fixpoint forOf {Env A S} (xs : list A) (body : A -> S -> M Env S) (s : S) : M Env S :=
  match xs with
  | [] => ret s
  | x :: r => bind (body x s) (fun s' => forOf r body s')
  end.

(** [xs.map(f)] for an [f] that calls collaborators. *)
Fixpoint mapM {Env A B} (f : A -> M Env B) (xs : list A) : M Env (list B) :=
  match xs with
  | [] => ret []
  | x :: r => bind (f x) (fun y => bind (mapM f r) (fun ys => ret (y :: ys)))
  end.

Definition trace {Env A} (r : A * Cline Env * list Event) : list Event := snd r.
Definition final {Env A} (r : A * Cline Env * list Event) : Cline Env := snd (fst r).
Definition value {Env A} (r : A * Cline Env * list Event) : A := fst (fst r).

Definition nl : string := String (ascii_of_nat 10) EmptyString.

Definition arrayElems (v : JsValue) : list JsValue :=
  match v with JsArray l => l | _ => [] end.

(** [!v || !Array.isArray(v) || v.length === 0] *)
Definition missingArray (v : JsValue) : bool :=
  negb (truthy v) || negb (isArray v) || (length (arrayElems v) =? 0)%nat.

(** [v.filter((p) => typeof p === "string" && p.trim() !== "")] *)
Definition validPaths (v : JsValue) : list string :=
  strings (filter isNonBlankString (arrayElems v)).

Section Shared.
Context {Env : Type} (H : Host Env).

(** [cline.rooIgnoreController?.validateAccess(relPath) ?? true] *)
Definition validateAccess (relPath : string) : M Env bool :=
  match rooIgnoreController H with
  | Some check => call (check relPath) (EvValidateAccess relPath)
  | None => ret true
  end.

Definition doSay (kind text : string) : M Env unit :=
  tell (say H kind text) (EvSay kind text).

Definition doPush (text : string) : M Env unit :=
  tell (pushToolResult H text) (EvPushToolResult text).

Definition doHandleError (action : string) (err : JsError) : M Env unit :=
  tell (handleError H action err) (EvHandleError action err).

(** [await cline.ask("tool", content, block.partial).catch(() => {})] *)
Definition doAsk (content : string) (isPartial : bool) : M Env unit :=
  tell (ask H content isPartial) (EvAsk content isPartial).

Definition doAskApproval (content : string) : M Env bool :=
  call (askApproval H content) (EvAskApproval content).

Definition doMissingParam (tool param hint : string) : M Env string :=
  call (sayAndCreateMissingParamError H tool param hint)
       (EvMissingParam tool param hint).

Definition doGetState : M Env (option ProviderState) :=
  call (getState H) EvGetState.
End Shared.

End Runtime.
Import Runtime.

Notation "x <- m ;; k" := (bind m (fun x => k))
  (at level 61, m at next level, right associativity).
Notation "m ;;; k" := (bind m (fun _ => k))
  (at level 61, right associativity).

(** [{ path, isOutsideWorkspace }] entries of the approval payload. *)
Definition approvalEntry (p : string) (outside : bool) : JsValue :=
  JsObject [("path", JsString p); ("isOutsideWorkspace", JsBool outside)].

(** Outcome of one item in the delete, create and write reports. *)
Inductive Status : Type := st_success | st_error.

Definition statusText (s : Status) : string :=
  match s with st_success => "success" | st_error => "error" end.

(* ===================================================================== *)
(** ** deleteItemsTool *)
(* ===================================================================== *)

Module DeleteItems.

Record DeleteResult : Type := mkResult {
  path : string;
  status : Status;
  error : option string
}.

Record ApprovalPath : Type := mkApprovalPath {
  ap_path : string;
  readablePath : string;
  isOutsideWorkspace : bool;
  accessAllowed : bool
}.

Section Tool.
Context (L : Imports) {Env : Type} (H : Host Env).

(** The [.rooignore] loop (lines 59-71): one policy query per path. *)
Definition checkItem (relPath : string)
    (st : list ApprovalPath * list string) : M Env (list ApprovalPath * list string) :=
  let '(pathsForApproval, disallowedPaths) := st in
  let fullPath := path_resolve L (cwd H) relPath in
  allowed <- validateAccess H relPath ;;
  let pathsForApproval :=
    pathsForApproval ++
      [mkApprovalPath relPath (getReadablePath L (cwd H) relPath)
         (Runtime.isPathOutsideWorkspace L fullPath) allowed] in
  let disallowedPaths :=
    if negb allowed
    then disallowedPaths ++ [getReadablePath L (cwd H) relPath]
    else disallowedPaths in
  ret (pathsForApproval, disallowedPaths).

(** The body of the deletion loop (lines 107-128); [results] is the
    array being filled. *)
Definition deleteItem (relPath : string) (results : list DeleteResult)
    : M Env (list DeleteResult) :=
  let absolutePath := path_resolve L (cwd H) relPath in
  let fileUri := absolutePath in
  r <- call (fs_delete H fileUri true false)
            (EvFsDelete fileUri true false) ;;
  match r with
  | Fulfilled _ =>
      let results := results ++ [mkResult relPath st_success None] in
      markEdited ;;;
      ret results
  | Rejected err =>
      if isFileNotFound err
      then ret (results ++ [mkResult relPath st_error (Some "File or directory not found.")])
      else
        let errorMsg :=
          "Error deleting " ^^ relPath ^^ ": " ^^ orElse (message err) "Unknown error" in
        console "error" errorMsg ;;;
        doHandleError H ("deleting " ^^ relPath) err ;;;
        ret (results ++ [mkResult relPath st_error (Some (orElse (message err) "Unknown error"))])
  end.

(** The report loop (lines 134-143); the locals are the text and the
    two counters. *)
Definition formatItem (st : string * Z * Z) (result : DeleteResult) : string * Z * Z :=
  let '(finalXmlResult, successCount, errorCount) := st in
  let finalXmlResult :=
    finalXmlResult ^^ "  <item>" ^^ nl ^^ "    <path>" ^^ path result ^^ "</path>" ^^ nl
      ^^ "    <status>" ^^ statusText (status result) ^^ "</status>" ^^ nl in
  match error result with
  | Some e =>
      if (e =? "")%string
      then (finalXmlResult ^^ "  </item>" ^^ nl, successCount + 1, errorCount)
      else (finalXmlResult ^^ "    <error>" ^^ e ^^ "</error>" ^^ nl ^^ "  </item>" ^^ nl,
            successCount, errorCount + 1)
  | None => (finalXmlResult ^^ "  </item>" ^^ nl, successCount + 1, errorCount)
  end.

Definition formatResults (results : list DeleteResult) : string * Z * Z :=
  let '(xml, successCount, errorCount) :=
    fold_left formatItem results ("<deletion_results>" ^^ nl, 0, 0) in
  (xml ^^ "</deletion_results>", successCount, errorCount).

Definition summary (successCount errorCount : Z) : string :=
  let summaryMessage :=
    "Batch deletion completed. " ^^ numToString successCount
      ^^ " item(s) deleted successfully." in
  if errorCount >? 0
  then summaryMessage ^^ " " ^^ numToString errorCount
         ^^ " item(s) failed to delete or were not found."
  else summaryMessage.

Definition approvalContent (relPaths : list string)
    (pathsForApproval : list ApprovalPath) : string :=
  let reason :=
    "Will attempt to PERMANENTLY delete " ^^ numToString (Z.of_nat (length relPaths))
      ^^ " item(s) (files or directories). This action cannot be undone." in
  JSON_stringify L
    (JsObject
       [("tool", JsString "deleteItems");
        ("paths",
         JsArray (map (fun p => approvalEntry (readablePath p) (isOutsideWorkspace p))
                      pathsForApproval));
        ("reason", JsString reason)]).

Definition deleteItemsTool (block : ToolUse) : M Env unit :=
  let relPathsInput := paths (params block) in
  if missingArray relPathsInput then
    incrMistakes ;;;
    msg <- doMissingParam H "delete_items" "paths"
             "Expected a non-empty array of file or directory paths to delete." ;;
    doPush H msg
  else
    let relPaths := validPaths relPathsInput in
    if (length relPaths =? 0)%nat then
      incrMistakes ;;;
      doSay H "error" "The 'paths' parameter array contains only invalid or empty paths." ;;;
      doPush H (toolError L "Invalid 'paths' parameter: No valid paths provided.")
    else
      st <- forOf relPaths checkItem ([], []) ;;
      let '(pathsForApproval, disallowedPaths) := st in
      if (0 <? length disallowedPaths)%nat then
        let errorMsg :=
          rooIgnoreError L
            ("Deletion prevented for ignored path(s): " ^^ join ", " disallowedPaths) in
        doSay H "rooignore_error" errorMsg ;;;
        doPush H (toolError L errorMsg)
      else
        let content := approvalContent relPaths pathsForApproval in
        if partial block then
          doAsk H content (partial block)
        else
          resetMistakes ;;;
          didApprove <- doAskApproval H content ;;
          if negb didApprove then ret tt
          else
            results <- forOf relPaths deleteItem [] ;;
            let '(finalXmlResult, successCount, errorCount) := formatResults results in
            doSay H "text" (summary successCount errorCount) ;;;
            doPush H finalXmlResult.
End Tool.

End DeleteItems.

(* ===================================================================== *)
(** ** createDirectoriesTool *)
(* ===================================================================== *)

Module CreateDirectories.

Record CreateResult : Type := mkResult {
  path : string;
  status : Status;
  error : option string
}.

Section Tool.
Context (L : Imports) {Env : Type} (H : Host Env).

(** The body of the creation loop (lines 84-97). *)
Definition createItem (relDirPath : string) (results : list CreateResult)
    : M Env (list CreateResult) :=
  let absolutePath := path_resolve L (cwd H) relDirPath in
  r <- call (fs_createDirectory H absolutePath)
            (EvFsCreateDirectory absolutePath) ;;
  match r with
  | Fulfilled _ =>
      let results := results ++ [mkResult relDirPath st_success None] in
      markEdited ;;;
      ret results
  | Rejected err =>
      let errorMsg :=
        "Error creating directory " ^^ relDirPath ^^ ": "
          ^^ orElse (message err) "Unknown error" in
      console "error" errorMsg ;;;
      doHandleError H ("creating directory " ^^ relDirPath) err ;;;
      ret (results ++ [mkResult relDirPath st_error (Some (orElse (message err) "Unknown error"))])
  end.

Definition formatItem (st : string * Z * Z) (result : CreateResult) : string * Z * Z :=
  let '(finalXmlResult, successCount, errorCount) := st in
  let finalXmlResult :=
    finalXmlResult ^^ "  <directory>" ^^ nl ^^ "    <path>" ^^ path result ^^ "</path>" ^^ nl
      ^^ "    <status>" ^^ statusText (status result) ^^ "</status>" ^^ nl in
  match error result with
  | Some e =>
      if (e =? "")%string
      then (finalXmlResult ^^ "  </directory>" ^^ nl, successCount + 1, errorCount)
      else (finalXmlResult ^^ "    <error>" ^^ e ^^ "</error>" ^^ nl ^^ "  </directory>" ^^ nl,
            successCount, errorCount + 1)
  | None => (finalXmlResult ^^ "  </directory>" ^^ nl, successCount + 1, errorCount)
  end.

Definition formatResults (results : list CreateResult) : string * Z * Z :=
  let '(xml, successCount, errorCount) :=
    fold_left formatItem results ("<creation_results>" ^^ nl, 0, 0) in
  (xml ^^ "</creation_results>", successCount, errorCount).

Definition summary (successCount errorCount : Z) : string :=
  let summaryMessage :=
    "Batch directory creation completed. " ^^ numToString successCount
      ^^ " director(y/ies) processed successfully." in
  if errorCount >? 0
  then summaryMessage ^^ " " ^^ numToString errorCount
         ^^ " director(y/ies) failed to create."
  else summaryMessage.

Definition approvalContent (relDirPaths : list string) : string :=
  let pathsForApproval :=
    map (fun relDirPath =>
           let fullPath := path_resolve L (cwd H) relDirPath in
           (getReadablePath L (cwd H) relDirPath, isPathOutsideWorkspace L fullPath))
        relDirPaths in
  let reason :=
    "Will attempt to create " ^^ numToString (Z.of_nat (length relDirPaths))
      ^^ " director(y/ies) and any necessary parent directories." in
  JSON_stringify L
    (JsObject
       [("tool", JsString "createDirectories");
        ("paths", JsArray (map (fun p => approvalEntry (fst p) (snd p)) pathsForApproval));
        ("reason", JsString reason)]).

Definition createDirectoriesTool (block : ToolUse) : M Env unit :=
  let relDirPathsInput := paths (params block) in
  if missingArray relDirPathsInput then
    incrMistakes ;;;
    msg <- doMissingParam H "create_directories" "paths"
             "Expected a non-empty array of directory paths." ;;
    doPush H msg
  else
    let relDirPaths := validPaths relDirPathsInput in
    if (length relDirPaths =? 0)%nat then
      incrMistakes ;;;
      doSay H "error" "The 'paths' parameter array contains only invalid or empty paths." ;;;
      doPush H (toolError L "Invalid 'paths' parameter: No valid paths provided.")
    else
      let content := approvalContent relDirPaths in
      if partial block then
        doAsk H content (partial block)
      else
        resetMistakes ;;;
        didApprove <- doAskApproval H content ;;
        if negb didApprove then ret tt
        else
          results <- forOf relDirPaths createItem [] ;;
          let '(finalXmlResult, successCount, errorCount) := formatResults results in
          doSay H "text" (summary successCount errorCount) ;;;
          doPush H finalXmlResult.
End Tool.

End CreateDirectories.

(** [try { ...; await step; ... }]: the rest of the block runs only when
    the step did not throw. *)
Definition andThen {Env A B} (m : M Env (Settled A)) (k : A -> M Env (Settled B))
    : M Env (Settled B) :=
  r <- m ;;
  match r with
  | Fulfilled a => k a
  | Rejected e => ret (Rejected e)
  end.

(** The execution-time guard of the read and list loops:
    [if (!(validateAccess(p) ?? true)) throw new Error(rooIgnoreError(p))]. *)
Definition guardAccess (L : Imports) {Env} (H : Host Env) (relPath : string)
    : M Env (Settled unit) :=
  allowed <- validateAccess H relPath ;;
  if negb allowed
  then ret (Rejected (mkError None (rooIgnoreError L relPath)))
  else ret (Fulfilled tt).

(* ===================================================================== *)
(** ** listDirectoriesTool *)
(* ===================================================================== *)

Module ListDirectories.

Record ListResult : Type := mkResult {
  path : string;
  content : option string;
  error : option string;
  didHitLimit : option bool
}.

Record ApprovalPath : Type := mkApprovalPath {
  ap_path : string;
  isOutsideWorkspace : bool;
  accessAllowed : bool
}.

Definition lowerChar (c : ascii) : ascii :=
  let n := nat_of_ascii c in
  if ((65 <=? n) && (n <=? 90))%nat then ascii_of_nat (n + 32) else c.

Fixpoint toLowerCase (s : string) : string :=
  match s with
  | EmptyString => EmptyString
  | String c r => String (lowerChar c) (toLowerCase r)
  end.

Section Tool.
Context (L : Imports) {Env : Type} (H : Host Env).

Definition approvalPath (relDirPath : string) : M Env ApprovalPath :=
  let fullPath := path_resolve L (cwd H) relDirPath in
  allowed <- validateAccess H relDirPath ;;
  ret (mkApprovalPath (getReadablePath L (cwd H) relDirPath)
         (Runtime.isPathOutsideWorkspace L fullPath) allowed).

(** The [try] block of the listing loop, past the access guard
    (lines 101-113). *)
Definition listContent (recursiveFlag showRooIgnoredFiles : bool) (relDirPath : string)
    : M Env (Settled ListResult) :=
  let absolutePath := path_resolve L (cwd H) relDirPath in
  andThen (call (listFiles H absolutePath recursiveFlag 200)
                (EvListFiles absolutePath recursiveFlag 200)) (fun fl =>
  let '(files, hitLimit) := fl in
  andThen (call (formatFilesList H absolutePath files hitLimit showRooIgnoredFiles)
                (EvFormatFilesList absolutePath)) (fun formattedList =>
  ret (Fulfilled (mkResult relDirPath (Some formattedList) None (Some hitLimit))))).

(** The [try] block of the listing loop (lines 96-113). *)
Definition listOne (recursiveFlag showRooIgnoredFiles : bool) (relDirPath : string)
    : M Env (Settled ListResult) :=
  andThen (guardAccess L H relDirPath) (fun _ =>
  listContent recursiveFlag showRooIgnoredFiles relDirPath).

(** The body of the listing loop, with its [catch] (lines 94-120). *)
Definition listItem (recursiveFlag showRooIgnoredFiles : bool) (relDirPath : string)
    (results : list ListResult) : M Env (list ListResult) :=
  let absolutePath := path_resolve L (cwd H) relDirPath in
  r <- listOne recursiveFlag showRooIgnoredFiles relDirPath ;;
  match r with
  | Fulfilled result => ret (results ++ [result])
  | Rejected err =>
      console "error" ("Error listing directory " ^^ absolutePath ^^ ":") ;;;
      let errorMsg := orElse (message err) "Unknown error listing directory" in
      doHandleError H ("listing directory " ^^ relDirPath) err ;;;
      ret (results ++ [mkResult relDirPath None (Some errorMsg) None])
  end.

Definition formatItem (finalXmlResult : string) (result : ListResult) : string :=
  let finalXmlResult :=
    finalXmlResult ^^ "  <directory>" ^^ nl ^^ "    <path>" ^^ path result ^^ "</path>" ^^ nl in
  let finalXmlResult :=
    match content result with
    | Some c =>
        let x := finalXmlResult ^^ "    <content>" ^^ nl ^^ c ^^ nl ^^ "    </content>" ^^ nl in
        match didHitLimit result with
        | Some true => x ^^ "    <limit_hit>true</limit_hit>" ^^ nl
        | _ => x
        end
    | None =>
        match error result with
        | Some e =>
            if (e =? "")%string then finalXmlResult
            else finalXmlResult ^^ "    <error>" ^^ e ^^ "</error>" ^^ nl
        | None => finalXmlResult
        end
    end in
  finalXmlResult ^^ "  </directory>" ^^ nl.

Definition formatResults (results : list ListResult) : string :=
  fold_left formatItem results ("<directories>" ^^ nl) ^^ "</directories>".

Definition approvalContent (pathsForApproval : list ApprovalPath) (recursiveFlag : bool)
    : string :=
  JSON_stringify L
    (JsObject
       [("tool", JsString "listDirectories");
        ("paths",
         JsArray (map (fun p => approvalEntry (ap_path p) (isOutsideWorkspace p))
                      pathsForApproval));
        ("recursive", JsBool recursiveFlag)]).

Definition listDirectoriesTool (block : ToolUse) : M Env unit :=
  let relDirPathsInput := paths (params block) in
  let recursiveRaw := recursive (params block) in
  let recursiveFlag :=
    match recursiveRaw with
    | Some r => (toLowerCase r =? "true")%string
    | None => false
    end in
  if missingArray relDirPathsInput then
    incrMistakes ;;;
    msg <- doMissingParam H "list_directories" "paths"
             "Expected a non-empty array of directory paths." ;;
    doPush H msg
  else
    let relDirPaths := validPaths relDirPathsInput in
    if (length relDirPaths =? 0)%nat then
      incrMistakes ;;;
      doSay H "error" "The 'paths' parameter array contains only invalid or empty paths." ;;;
      doPush H (toolError L "Invalid 'paths' parameter: No valid paths provided.")
    else
      pathsForApproval <- mapM approvalPath relDirPaths ;;
      let disallowedPaths :=
        map ap_path (filter (fun p => negb (accessAllowed p)) pathsForApproval) in
      if (0 <? length disallowedPaths)%nat then
        let errorMsg := rooIgnoreError L (join ", " disallowedPaths) in
        doSay H "rooignore_error" errorMsg ;;;
        doPush H (toolError L errorMsg)
      else
        let content := approvalContent pathsForApproval recursiveFlag in
        if partial block then
          doAsk H content (partial block)
        else
          resetMistakes ;;;
          didApprove <- doAskApproval H content ;;
          if negb didApprove then ret tt
          else
            st <- doGetState H ;;
            let showRooIgnoredFiles :=
              match st with
              | Some ps =>
                  match Runtime.showRooIgnoredFiles ps with Some b => b | None => true end
              | None => true
              end in
            results <- forOf relDirPaths (listItem recursiveFlag showRooIgnoredFiles) [] ;;
            doPush H (formatResults results).
End Tool.

End ListDirectories.

(* ===================================================================== *)
(** ** readFilesTool *)
(* ===================================================================== *)

Module ReadFiles.

Record FileResult : Type := mkResult {
  path : string;
  content : option string;
  error : option string;
  isTruncated : option bool;
  totalLines : option Z;
  sourceCodeDef : option string
}.

Record ApprovalPath : Type := mkApprovalPath {
  ap_path : string;
  isOutsideWorkspace : bool;
  accessAllowed : bool
}.

(** [if (str) { n = parseInt(str); if (isNaN(n)) ...; n = Math.max(0, n - 1) }]:
    [None] when the bound does not parse, otherwise the 0-based bound
    ([Some None] when the parameter is absent or empty).  The bound is an
    integer, as [parseInt] is: the JavaScript number up to
    [MAX_SAFE_INTEGER]. *)
Definition parseLine (str : option string) : option (option Z) :=
  if truthyStr str then
    match parseInt (match str with Some s => s | None => "" end) with
    | None => None
    | Some n => Some (Some (Z.max 0 (n - 1)))
    end
  else Some None.

(** [startLine !== undefined && endLine !== undefined && startLine > endLine] *)
Definition rangeInverted (startLine endLine : option Z) : bool :=
  match startLine, endLine with
  | Some s, Some e => s >? e
  | _, _ => false
  end.

(** [`${x}`] for a field that may be [undefined]. *)
Definition showOpt (x : option string) : string :=
  match x with Some s => s | None => "undefined" end.

Section Tool.
Context (L : Imports) {Env : Type} (H : Host Env).

Definition lineSnippet (startLine endLine : option Z) (maxReadFileLine : Z) : string :=
  match startLine, endLine with
  | Some s, Some e => t L "tools:readFile.linesRange" [("start", s + 1); ("end", e + 1)]
  | Some s, None => t L "tools:readFile.linesFromToEnd" [("start", s + 1)]
  | None, Some e => t L "tools:readFile.linesFromStartTo" [("end", e + 1)]
  | None, None =>
      if maxReadFileLine =? 0 then t L "tools:readFile.definitionsOnly" []
      else if maxReadFileLine >? 0 then t L "tools:readFile.maxLines" [("max", maxReadFileLine)]
      else ""
  end.

Definition approvalPath (relPath : string) : M Env ApprovalPath :=
  let fullPath := path_resolve L (cwd H) relPath in
  allowed <- validateAccess H relPath ;;
  ret (mkApprovalPath (getReadablePath L (cwd H) relPath)
         (Runtime.isPathOutsideWorkspace L fullPath) allowed).

Definition approvalContent (pathsForApproval : list ApprovalPath) (snippet : string)
    : string :=
  JSON_stringify L
    (JsObject
       [("tool", JsString "readFiles");
        ("paths",
         JsArray (map (fun p => approvalEntry (ap_path p) (isOutsideWorkspace p))
                      pathsForApproval));
        ("reason", JsString snippet)]).

(** [try { n = await countFileLines(p) } catch { console.warn(...) }],
    the count staying 0 on failure. *)
Definition countLines (absolutePath : string) : M Env Z :=
  r <- call (countFileLines H absolutePath) (EvCountFileLines absolutePath) ;;
  match r with
  | Fulfilled n => ret n
  | Rejected _ =>
      console "warn" ("Could not count lines for " ^^ absolutePath ^^ ":") ;;;
      ret 0
  end.

(** [await isBinaryFile(p).catch(() => false)] *)
Definition detectBinary (absolutePath : string) : M Env bool :=
  r <- call (isBinaryFile H absolutePath) (EvIsBinaryFile absolutePath) ;;
  match r with
  | Fulfilled b => ret b
  | Rejected _ => ret false
  end.

Definition doReadLines (absolutePath : string) (endLine startLine : option Z)
    : M Env (Settled string) :=
  call (readLines H absolutePath endLine startLine)
       (EvReadLines absolutePath endLine startLine).

(** [Promise.all([max > 0 ? readLines(p, max - 1, 0) : Promise.resolve(""),
    parseSourceCodeDefinitionsForFile(p, controller)])]: both calls are
    started; when one rejects, its error is thrown; when both reject, the
    error thrown is that of the rejection that arrives first. *)
Definition readHeadAndDefinitions (absolutePath : string) (maxReadFileLine : Z)
    : M Env (Settled (string * option string)) :=
  rc <- (if maxReadFileLine >? 0
         then doReadLines absolutePath (Some (maxReadFileLine - 1)) (Some 0)
         else ret (Fulfilled "")) ;;
  df <- call (parseSourceCodeDefinitionsForFile H absolutePath)
             (EvParseDefinitions absolutePath) ;;
  match rc, df with
  | Fulfilled c, Fulfilled d => ret (Fulfilled (c, d))
  | Rejected e, Fulfilled _ => ret (Rejected e)
  | Fulfilled _, Rejected e => ret (Rejected e)
  | Rejected e1, Rejected e2 =>
      outlineFirst <- peek (outlineRejectsFirst H absolutePath) ;;
      ret (Rejected (if outlineFirst then e2 else e1))
  end.

(** The [try] block of the reading loop, past the access guard
    (lines 161-192). *)
Definition readContent (isRangeRead : bool) (startLine endLine : option Z)
    (maxReadFileLine : Z) (relPath : string) : M Env (Settled FileResult) :=
  let absolutePath := path_resolve L (cwd H) relPath in
  currentTotalLines <- countLines absolutePath ;;
  isBinary <- detectBinary absolutePath ;;
  if isRangeRead then
    andThen (doReadLines absolutePath endLine startLine) (fun lines =>
    let fileContent :=
      addLineNumbers L lines (match startLine with Some s => s + 1 | None => 1 end) in
    ret (Fulfilled (mkResult relPath (Some fileContent) None (Some false)
                      (Some currentTotalLines) (Some ""))))
  else if negb isBinary && (maxReadFileLine >=? 0) && (currentTotalLines >? maxReadFileLine) then
    andThen (readHeadAndDefinitions absolutePath maxReadFileLine) (fun both =>
    let '(readContentResult, defResult) := both in
    let fileContent :=
      if (0 <? String.length readContentResult)%nat
      then addLineNumbers L readContentResult 1 else "" in
    let def :=
      if truthyStr defResult
      then nl ^^ nl ^^ match defResult with Some d => d | None => "" end
      else "" in
    ret (Fulfilled (mkResult relPath (Some fileContent) None (Some true)
                      (Some currentTotalLines) (Some def))))
  else
    andThen (call (extractTextFromFile H absolutePath)
                  (EvExtractText absolutePath)) (fun fileContent =>
    ret (Fulfilled (mkResult relPath (Some fileContent) None (Some false)
                      (Some currentTotalLines) (Some "")))).

(** The [try] block of the reading loop (lines 156-192). *)
Definition readOne (isRangeRead : bool) (startLine endLine : option Z)
    (maxReadFileLine : Z) (relPath : string) : M Env (Settled FileResult) :=
  andThen (guardAccess L H relPath) (fun _ =>
  readContent isRangeRead startLine endLine maxReadFileLine relPath).

(** The body of the reading loop, with its [catch] (lines 148-198). *)
Definition readItem (isRangeRead : bool) (startLine endLine : option Z)
    (maxReadFileLine : Z) (relPath : string) (results : list FileResult)
    : M Env (list FileResult) :=
  let absolutePath := path_resolve L (cwd H) relPath in
  r <- readOne isRangeRead startLine endLine maxReadFileLine relPath ;;
  match r with
  | Fulfilled result => ret (results ++ [result])
  | Rejected err =>
      console "error" ("Error reading file " ^^ absolutePath ^^ ":") ;;;
      let fileError := orElse (message err) "Unknown error reading file" in
      ret (results ++ [mkResult relPath None (Some fileError) None None None])
  end.

(** The text placed between the [<content>] tags for a result that
    has content. *)
Definition contentBlock (maxReadFileLine : Z) (result : FileResult) (c : string) : string :=
  match isTruncated result with
  | Some true =>
      c ^^ nl ^^ nl ^^ "[Showing only " ^^ numToString maxReadFileLine ^^ " of "
        ^^ match totalLines result with Some n => numToString n | None => "undefined" end
        ^^ " total lines. Use start_line and end_line if you need to read more]"
        ^^ showOpt (sourceCodeDef result)
  | _ => c
  end.

Definition formatItem (maxReadFileLine : Z) (finalXmlResult : string) (result : FileResult)
    : string :=
  let finalXmlResult :=
    finalXmlResult ^^ "  <file>" ^^ nl ^^ "    <path>" ^^ path result ^^ "</path>" ^^ nl in
  let finalXmlResult :=
    match content result with
    | Some c =>
        finalXmlResult ^^ "    <content>" ^^ nl ^^ contentBlock maxReadFileLine result c
          ^^ nl ^^ "    </content>" ^^ nl
    | None =>
        match error result with
        | Some e =>
            if (e =? "")%string then finalXmlResult
            else finalXmlResult ^^ "    <error>" ^^ e ^^ "</error>" ^^ nl
        | None => finalXmlResult
        end
    end in
  finalXmlResult ^^ "  </file>" ^^ nl.

Definition formatResults (maxReadFileLine : Z) (results : list FileResult) : string :=
  fold_left (formatItem maxReadFileLine) results ("<files>" ^^ nl) ^^ "</files>".

Definition readFilesTool (block : ToolUse) : M Env unit :=
  let relPathsInput := paths (params block) in
  let startLineStr := start_line (params block) in
  let endLineStr := end_line (params block) in
  if missingArray relPathsInput then
    incrMistakes ;;;
    msg <- doMissingParam H "read_files" "paths" "Expected a non-empty array of file paths." ;;
    doPush H msg
  else
    let relPaths := validPaths relPathsInput in
    if (length relPaths =? 0)%nat then
      incrMistakes ;;;
      doSay H "error" "The 'paths' parameter array contains only invalid or empty paths." ;;;
      doPush H (toolError L "Invalid 'paths' parameter: No valid paths provided.")
    else
      let isRangeRead := truthyStr startLineStr || truthyStr endLineStr in
      match parseLine startLineStr with
      | None =>
          incrMistakes ;;;
          doSay H "error" ("Failed to parse start_line: " ^^ showOpt startLineStr) ;;;
          doPush H (toolError L "Invalid start_line value")
      | Some startLine =>
      match parseLine endLineStr with
      | None =>
          incrMistakes ;;;
          doSay H "error" ("Failed to parse end_line: " ^^ showOpt endLineStr) ;;;
          doPush H (toolError L "Invalid end_line value")
      | Some endLine =>
      if rangeInverted startLine endLine then
        incrMistakes ;;;
        doSay H "error"
          ("start_line (" ^^ numToString (match startLine with Some s => s | None => 0 end + 1)
             ^^ ") cannot be greater than end_line ("
             ^^ numToString (match endLine with Some e => e | None => 0 end + 1) ^^ ").") ;;;
        doPush H (toolError L "Invalid line range: start_line > end_line.")
      else
        st <- doGetState H ;;
        let maxReadFileLine :=
          match st with
          | Some ps => match Runtime.maxReadFileLine ps with Some m => m | None => 500 end
          | None => 500
          end in
        let snippet := lineSnippet startLine endLine maxReadFileLine in
        pathsForApproval <- mapM approvalPath relPaths ;;
        let disallowedPaths :=
          map ap_path (filter (fun p => negb (accessAllowed p)) pathsForApproval) in
        if (0 <? length disallowedPaths)%nat then
          let errorMsg := rooIgnoreError L (join ", " disallowedPaths) in
          doSay H "rooignore_error" errorMsg ;;;
          doPush H (toolError L errorMsg)
        else
          let content := approvalContent pathsForApproval snippet in
          if partial block then
            doAsk H content (partial block)
          else
            resetMistakes ;;;
            didApprove <- doAskApproval H content ;;
            if negb didApprove then ret tt
            else
              results <-
                forOf relPaths (readItem isRangeRead startLine endLine maxReadFileLine) [] ;;
              doPush H (formatResults maxReadFileLine results)
      end
      end.
End Tool.

End ReadFiles.

(* ===================================================================== *)
(** ** writeFilesTool *)
(* ===================================================================== *)

Module WriteFiles.

Record WriteItem : Type := mkItem { path : string; content : string }.

Record WriteResult : Type := mkResult {
  r_path : string;
  status : Status;
  error : option string
}.

Record ApprovalPath : Type := mkApprovalPath {
  ap_path : string;
  readablePath : string;
  isOutsideWorkspace : bool;
  accessAllowed : bool
}.

(** [item.k] for an [item] that is an object or an array. *)
Definition propOf (item : JsValue) (k : string) : JsValue :=
  match item with
  | JsObject fs => assoc k fs
  | _ => JsUndefined
  end.

Definition isString (v : JsValue) : bool :=
  match v with JsString _ => true | _ => false end.

Definition stringOf (v : JsValue) : string :=
  match v with JsString s => s | _ => "" end.

Definition atIndex (i : nat) : string :=
  "Item at index " ^^ numToString (Z.of_nat i).

(** The validation loop over [itemsInput] (lines 45-65), from index [i]
    on, with the two arrays it fills; [break] ends it early. *)
Fixpoint validateFrom (itemsInput : list JsValue) (i : nat)
    (validItems : list WriteItem) (validationErrors : list string)
    : list WriteItem * list string :=
  match itemsInput with
  | [] => (validItems, validationErrors)
  | item :: rest =>
      if negb (truthy item) || negb (typeofObject item) then
        validateFrom rest (S i) validItems
          (validationErrors ++ [atIndex i ^^ " is not a valid object."])
      else
        let p := propOf item "path" in
        let c := propOf item "content" in
        let validationErrors :=
          if negb (isNonBlankString p)
          then validationErrors ++ [atIndex i ^^ " is missing a valid 'path'."]
          else validationErrors in
        let validationErrors :=
          if negb (isString c)
          then validationErrors ++ [atIndex i ^^ " is missing 'content'."]
          else validationErrors in
        if (length validationErrors =? 0)%nat && isNonBlankString p then
          validateFrom rest (S i)
            (validItems ++ [mkItem (trim (stringOf p)) (stringOf c)]) validationErrors
        else if negb (isNonBlankString p) then
          if negb (isString c) then (validItems, validationErrors)
          else validateFrom rest (S i) validItems validationErrors
        else validateFrom rest (S i) validItems validationErrors
  end.

(** [validationErrors.length > 0 && validationErrors.some((err) =>
    err.includes("missing a valid 'path'") && err.includes("missing 'content'"))] *)
Definition hasCombinedError (validationErrors : list string) : bool :=
  (0 <? length validationErrors)%nat &&
  existsb (fun err => includes err "missing a valid 'path'" && includes err "missing 'content'")
          validationErrors.

(** [itemsInput.findIndex((inputItem) => inputItem.path === target)],
    scanning from index [i]; it throws on a [null] or [undefined]
    entry met before a match. *)
Fixpoint findIndex (itemsInput : list JsValue) (target : string) (i : Z) : Settled Z :=
  match itemsInput with
  | [] => Fulfilled (-1)
  | inputItem :: rest =>
      match getProp inputItem "path" with
      | Rejected e => Rejected e
      | Fulfilled v =>
          if match v with JsString s => (s =? target)%string | _ => false end
          then Fulfilled i
          else findIndex rest target (i + 1)
      end
  end.

(** [validationErrors.some((err) => err.includes(`Item at index ${findIndex}`)
    && err.includes("missing a valid 'path'"))] *)
Fixpoint blamed (itemsInput : list JsValue) (item : WriteItem)
    (validationErrors : list string) : Settled bool :=
  match validationErrors with
  | [] => Fulfilled false
  | err :: rest =>
      match findIndex itemsInput (path item) 0 with
      | Rejected e => Rejected e
      | Fulfilled idx =>
          if includes err ("Item at index " ^^ numToString idx)
             && includes err "missing a valid 'path'"
          then Fulfilled true
          else blamed itemsInput item rest
      end
  end.

(** [validItems.filter((item) => !blamed(item))] (lines 77-85) *)
Fixpoint selectItems (itemsInput : list JsValue) (validationErrors : list string)
    (validItems : list WriteItem) : Settled (list WriteItem) :=
  match validItems with
  | [] => Fulfilled []
  | item :: rest =>
      match blamed itemsInput item validationErrors with
      | Rejected e => Rejected e
      | Fulfilled b =>
          match selectItems itemsInput validationErrors rest with
          | Rejected e => Rejected e
          | Fulfilled keep => Fulfilled (if negb b then item :: keep else keep)
          end
      end
  end.

Section Tool.
Context (L : Imports) {Env : Type} (H : Host Env).

(** The [.rooignore] loop over the items to process (lines 102-115). *)
Definition checkItem (item : WriteItem)
    (st : list ApprovalPath * list string) : M Env (list ApprovalPath * list string) :=
  let '(pathsForApproval, disallowedPaths) := st in
  let relPath := path item in
  let fullPath := path_resolve L (cwd H) relPath in
  allowed <- validateAccess H relPath ;;
  let pathsForApproval :=
    pathsForApproval ++
      [mkApprovalPath relPath (getReadablePath L (cwd H) relPath)
         (Runtime.isPathOutsideWorkspace L fullPath) allowed] in
  let disallowedPaths :=
    if negb allowed then disallowedPaths ++ [relPath] else disallowedPaths in
  ret (pathsForApproval, disallowedPaths).

Definition fileStatus (item : WriteItem) : M Env (string * bool) :=
  let absolutePath := path_resolve L (cwd H) (path item) in
  fileExists <- call (fileExistsAtPath H absolutePath) (EvFileExists absolutePath) ;;
  ret (path item, fileExists).

(** [fileStatuses.find((s) => s.path === p)?.exists] *)
Definition existsIn (fileStatuses : list (string * bool)) (p : string) : bool :=
  match find (fun s => (fst s =? p)%string) fileStatuses with
  | Some s => snd s
  | None => false
  end.

Definition approvalContent (pathsForApproval : list ApprovalPath)
    (fileStatuses : list (string * bool)) : string :=
  let newFiles := map fst (filter (fun s => negb (snd s)) fileStatuses) in
  let existingFiles := map fst (filter (fun s => snd s) fileStatuses) in
  let reason :=
    "Will create " ^^ numToString (Z.of_nat (length newFiles)) ^^ " new file(s)" in
  let reason :=
    if (0 <? length existingFiles)%nat
    then reason ^^ " and overwrite " ^^ numToString (Z.of_nat (length existingFiles))
           ^^ " existing file(s)"
    else reason in
  let reason := reason ^^ "." in
  JSON_stringify L
    (JsObject
       [("tool", JsString "writeFiles");
        ("paths",
         JsArray
           (map (fun p =>
                   JsObject
                     [("path", JsString (readablePath p));
                      ("isOutsideWorkspace", JsBool (isOutsideWorkspace p));
                      ("status",
                       JsString (if existsIn fileStatuses (ap_path p)
                                 then "overwrite" else "create"))])
                pathsForApproval));
        ("reason", JsString reason)]).

(** The [try] block of the writing loop (lines 167-175). *)
Definition writeOne (item : WriteItem) : M Env (Settled unit) :=
  let absolutePath := path_resolve L (cwd H) (path item) in
  let dir := path_dirname L absolutePath in
  andThen
    (if negb (dir =? absolutePath)%string && negb (dir =? cwd H)%string
        && negb (dir =? ".")%string
     then call (fs_createDirectory H dir) (EvFsCreateDirectory dir)
     else ret (Fulfilled tt)) (fun _ =>
  let contentUint8Array := encode (content item) in
  call (fs_writeFile H absolutePath contentUint8Array)
       (EvFsWriteFile absolutePath contentUint8Array)).

(** The body of the writing loop, with its [catch] (lines 165-182). *)
Definition writeItem (item : WriteItem) (results : list WriteResult)
    : M Env (list WriteResult) :=
  r <- writeOne item ;;
  match r with
  | Fulfilled _ =>
      let results := results ++ [mkResult (path item) st_success None] in
      markEdited ;;;
      ret results
  | Rejected err =>
      let errorMsg :=
        "Error writing file " ^^ path item ^^ ": " ^^ orElse (message err) "Unknown error" in
      console "error" errorMsg ;;;
      doHandleError H ("writing file " ^^ path item) err ;;;
      ret (results ++ [mkResult (path item) st_error (Some (orElse (message err) "Unknown error"))])
  end.

Definition formatItem (st : string * Z * Z) (result : WriteResult) : string * Z * Z :=
  let '(finalXmlResult, successCount, errorCount) := st in
  let finalXmlResult :=
    finalXmlResult ^^ "  <file>" ^^ nl ^^ "    <path>" ^^ r_path result ^^ "</path>" ^^ nl
      ^^ "    <status>" ^^ statusText (status result) ^^ "</status>" ^^ nl in
  match error result with
  | Some e =>
      if (e =? "")%string
      then (finalXmlResult ^^ "  </file>" ^^ nl, successCount + 1, errorCount)
      else (finalXmlResult ^^ "    <error>" ^^ e ^^ "</error>" ^^ nl ^^ "  </file>" ^^ nl,
            successCount, errorCount + 1)
  | None => (finalXmlResult ^^ "  </file>" ^^ nl, successCount + 1, errorCount)
  end.

Definition formatResults (results : list WriteResult) : string * Z * Z :=
  let '(xml, successCount, errorCount) :=
    fold_left formatItem results ("<write_results>" ^^ nl, 0, 0) in
  (xml ^^ "</write_results>", successCount, errorCount).

Definition summary (successCount errorCount : Z) : string :=
  let summaryMessage :=
    "Batch write operation completed. " ^^ numToString successCount
      ^^ " file(s) written successfully." in
  if errorCount >? 0
  then summaryMessage ^^ " " ^^ numToString errorCount ^^ " file(s) failed to write."
  else summaryMessage.

(** The tool from the [.rooignore] check on (lines 94-207), for the
    items that survived validation. *)
Definition processItems (block : ToolUse) (itemsToProcess : list WriteItem) : M Env unit :=
  st <- forOf itemsToProcess checkItem ([], []) ;;
  let '(pathsForApproval, disallowedPaths) := st in
  if (0 <? length disallowedPaths)%nat then
    let errorMsg := rooIgnoreError L (join ", " disallowedPaths) in
    doSay H "rooignore_error" errorMsg ;;;
    doPush H (toolError L errorMsg)
  else
    fileStatuses <- mapM fileStatus itemsToProcess ;;
    let content := approvalContent pathsForApproval fileStatuses in
    if partial block then
      doAsk H content (partial block)
    else
      resetMistakes ;;;
      didApprove <- doAskApproval H content ;;
      if negb didApprove then ret tt
      else
        results <- forOf itemsToProcess writeItem [] ;;
        let '(finalXmlResult, successCount, errorCount) := formatResults results in
        doSay H "text" (summary successCount errorCount) ;;;
        doPush H finalXmlResult.

(** The promise of [writeFilesTool]: it is rejected only when the
    item filter throws. *)
Definition writeFilesTool (block : ToolUse) : M Env (Settled unit) :=
  let itemsInput := items (params block) in
  if missingArray itemsInput then
    incrMistakes ;;;
    msg <- doMissingParam H "write_files" "items"
             "Expected a non-empty array of {path, content} objects." ;;
    doPush H msg ;;;
    ret (Fulfilled tt)
  else
    let '(validItems, validationErrors) := validateFrom (arrayElems itemsInput) 0 [] [] in
    if hasCombinedError validationErrors then
      incrMistakes ;;;
      let errorMsg := "Invalid 'items' parameter: " ^^ join "; " validationErrors in
      doSay H "error" errorMsg ;;;
      doPush H (toolError L errorMsg) ;;;
      ret (Fulfilled tt)
    else
      match selectItems (arrayElems itemsInput) validationErrors validItems with
      | Rejected e => ret (Rejected e)
      | Fulfilled itemsToProcess =>
          if (length itemsToProcess =? 0)%nat && (0 <? length (arrayElems itemsInput))%nat then
            incrMistakes ;;;
            let errorMsg :=
              "Invalid 'items' parameter: No valid items found. Errors: "
                ^^ join "; " validationErrors in
            doSay H "error" errorMsg ;;;
            doPush H (toolError L errorMsg) ;;;
            ret (Fulfilled tt)
          else
            processItems block itemsToProcess ;;;
            ret (Fulfilled tt)
      end.
End Tool.

End WriteFiles.

(* ===================================================================== *)
(** ** The batch tools by name *)
(* ===================================================================== *)

(** The five batch entries of [toolUseNames]. *)
Inductive BatchToolName : Type :=
| read_files
| write_files
| list_directories
| create_directories
| delete_items.

(** Run the tool a block names; the settled promise is dropped (only
    [writeFilesTool] can reject). *)
Definition runTool (L : Imports) {Env} (H : Host Env) (name : BatchToolName)
    (block : ToolUse) : M Env unit :=
  match name with
  | read_files => ReadFiles.readFilesTool L H block
  | write_files => WriteFiles.writeFilesTool L H block ;;; ret tt
  | list_directories => ListDirectories.listDirectoriesTool L H block
  | create_directories => CreateDirectories.createDirectoriesTool L H block
  | delete_items => DeleteItems.deleteItemsTool L H block
  end.

(* ===================================================================== *)
(** ** A small concrete host, in the manner of the test suites' mocks *)
(* ===================================================================== *)

Module Mock.

Fixpoint splitAt (sep : ascii) (s : string) : list string :=
  match s with
  | EmptyString => [EmptyString]
  | String c r =>
      if Ascii.eqb c sep then EmptyString :: splitAt sep r
      else match splitAt sep r with
           | [] => [String c EmptyString]
           | h :: tl => String c h :: tl
           end
  end.

Definition lines (s : string) : list string := splitAt (ascii_of_nat 10) s.

Fixpoint lookup {A} (k : string) (m : list (string * A)) : option A :=
  match m with
  | [] => None
  | (k', v) :: r => if (k =? k')%string then Some v else lookup k r
  end.

Definition mem (k : string) (l : list string) : bool :=
  existsb (fun x => (x =? k)%string) l.

(** [path.resolve] on POSIX paths that need no normalisation. *)
Definition resolve (base p : string) : string :=
  match p with
  | String "/" _ => p
  | _ => base ^^ "/" ^^ p
  end.

Fixpoint dirnameAux (s : string) : option string :=
  match s with
  | EmptyString => None
  | String c r =>
      match dirnameAux r with
      | Some d => Some (String c d)
      | None => if Ascii.eqb c "/" then Some EmptyString else None
      end
  end.

Definition dirname (s : string) : string :=
  match dirnameAux s with
  | Some EmptyString => "/"
  | Some d => d
  | None => "."
  end.

Definition quote (s : string) : string := String (ascii_of_nat 34) s ^^ String (ascii_of_nat 34) "".

Fixpoint stringify (v : JsValue) : string :=
  match v with
  | JsUndefined => "undefined"
  | JsNull => "null"
  | JsBool true => "true"
  | JsBool false => "false"
  | JsNumber z => numToString z
  | JsString s => quote s
  | JsArray l => "[" ^^ join "," (map stringify l) ^^ "]"
  | JsObject fs =>
      "{" ^^ join "," (map (fun kv => quote (fst kv) ^^ ":" ^^ stringify (snd kv)) fs) ^^ "}"
  end.

Definition imports : Imports :=
  {| path_resolve := resolve;
     path_dirname := dirname;
     getReadablePath := fun _ p => p;
     isPathOutsideWorkspace := fun full => negb (String.prefix "/w/" full);
     toolError := fun e =>
       "The tool execution failed with the following error:" ^^ nl ^^ "<error>" ^^ nl
         ^^ e ^^ nl ^^ "</error>";
     rooIgnoreError := fun p =>
       "Access to " ^^ p ^^ " is blocked by the .rooignore file settings.";
     t := fun key _ => key;
     addLineNumbers := fun s _ => s;
     JSON_stringify := stringify |}.

(** The world behind the mock collaborators: the files, the ignore
    rules now and after the dialog, the paths whose mutation fails (and
    how), the user's answer, the outlines and the settings. *)
Record World : Type := mkWorld {
  files : list (string * string);
  ignored : list string;
  ignoredLater : list string;
  failing : list (string * JsError);
  approve : bool;
  outlines : list (string * string);
  settings : option ProviderState
}.

Definition setFiles (w : World) (fs : list (string * string)) : World :=
  mkWorld fs (ignored w) (ignoredLater w) (failing w) (approve w) (outlines w) (settings w).

Definition under (dir file : string) : bool :=
  (file =? dir)%string || String.prefix (dir ^^ "/") file.

Definition noEntry : JsError := mkError (Some "FileNotFound") "FileNotFound".
Definition noPermission : JsError := mkError (Some "NoPermissions") "Permission denied".

Definition mutate (uri : string) (w : World) (fs : list (string * string))
    : Settled unit * World :=
  match lookup uri (failing w) with
  | Some e => (Rejected e, w)
  | None => (Fulfilled tt, setFiles w fs)
  end.

Definition slice (l : list string) (endLine startLine : option Z) : list string :=
  let s := match startLine with Some s => Z.to_nat s | None => 0%nat end in
  let l' := skipn s l in
  match endLine with
  | Some e => firstn (Z.to_nat e + 1 - s) l'
  | None => l'
  end.

Definition onFile {A} (p : string) (w : World) (f : string -> A) : Settled A * World :=
  match lookup p (files w) with
  | Some s => (Fulfilled (f s), w)
  | None => (Rejected (mkError (Some "ENOENT") ("ENOENT: no such file or directory, open '" ^^ p ^^ "'")), w)
  end.

(** While the approval dialog is open the ignore rules may change:
    [ignoredLater] takes effect when the answer comes back. *)
Definition host : Host World :=
  {| cwd := "/w";
     rooIgnoreController := Some (fun p w => (negb (mem p (ignored w)), w));
     say := fun _ _ w => w;
     sayAndCreateMissingParamError := fun tool param _ w =>
       ("Missing value for required parameter '" ^^ param ^^ "'.", w);
     ask := fun _ _ w => w;
     askApproval := fun _ w =>
       (approve w,
        mkWorld (files w) (ignored w ++ ignoredLater w) [] (failing w) (approve w)
                (outlines w) (settings w));
     handleError := fun _ _ w => w;
     pushToolResult := fun _ w => w;
     getState := fun w => (settings w, w);
     fs_delete := fun uri _ _ w =>
       if existsb (fun f => under uri (fst f)) (files w)
       then mutate uri w (filter (fun f => negb (under uri (fst f))) (files w))
       else (Rejected noEntry, w);
     fs_createDirectory := fun uri w => mutate uri w (files w);
     fs_writeFile := fun uri payload w =>
       mutate uri w
         ((uri, string_of_list_byte payload)
            :: filter (fun f => negb (fst f =? uri)%string) (files w));
     fileExistsAtPath := fun p w =>
       (match lookup p (files w) with Some _ => true | None => false end, w);
     countFileLines := fun p w => onFile p w (fun s => Z.of_nat (length (lines s)));
     isBinaryFile := fun p w => onFile p w (fun _ => false);
     readLines := fun p endLine startLine w =>
       onFile p w (fun s => join nl (slice (lines s) endLine startLine));
     extractTextFromFile := fun p w => onFile p w (fun s => s);
     parseSourceCodeDefinitionsForFile := fun p w => (Fulfilled (lookup p (outlines w)), w);
     listFiles := fun dir _ _ w =>
       (Fulfilled (map fst (filter (fun f => under dir (fst f)) (files w)), false), w);
     formatFilesList := fun _ fs _ _ w => (Fulfilled (join nl fs), w);
     outlineRejectsFirst := fun _ _ => false |}.

Definition start (w : World) : Cline World := mkCline w 0 false.

Definition pathsBlock (ps : list string) : ToolUse :=
  mkToolUse (mkParams (JsArray (map JsString ps)) JsUndefined None None None) false.

Definition writeBlock (its : list (string * string)) : ToolUse :=
  mkToolUse
    (mkParams JsUndefined
       (JsArray (map (fun it => JsObject [("path", JsString (fst it));
                                          ("content", JsString (snd it))]) its))
       None None None) false.

(** A workspace with two files, everything allowed, the user agreeing. *)
Definition world0 : World :=
  mkWorld [("/w/a.txt", "alpha"); ("/w/d/b.txt", "beta")] [] [] [] true [] None.

(** The same, the driver refusing to touch [a.txt]. *)
Definition lockedWorld : World :=
  mkWorld [("/w/a.txt", "alpha"); ("/w/d/b.txt", "beta")] [] []
    [("/w/a.txt", noPermission)] true [] None.

(** The same as [world0], the user refusing. *)
Definition refusingWorld : World :=
  mkWorld [("/w/a.txt", "alpha"); ("/w/d/b.txt", "beta")] [] [] [] false [] None.




(** A file with 600 lines, and a workspace that holds it together with
    an outline of it, the maximum configured at 500 lines. *)
Definition longFile : string := join nl (repeat "x" 600).

Definition longWorld : World :=
  mkWorld [("/w/long.ts", longFile)] [] [] [] true
    [("/w/long.ts", "class A")] (Some (mkProviderState (Some 500) None)).

End Mock.

(* ===================================================================== *)
(** ** The custom instructions of the system prompt *)
(* ===================================================================== *)

(** [loadRuleFiles] and [addCustomInstructions] read the rule files of
    the workspace with [fs.readFile] and assemble the section of the
    system prompt that carries the user's instructions.  They are embedded
    as functions that thread the file system and record every read. *)
Module Prompts.

(** One entry per [fs.readFile(filePath, "utf-8")] call, with its
    outcome. *)
Inductive FsEvent : Type :=
| EvReadFile (filePath : string) (outcome : Settled string).

(** What is imported from [path] and from [shared/language]:
    [path.join], [isLanguage] and the display names [LANGUAGES]. *)
Record Imports : Type := mkImports {
  path_join : string -> string -> string;
  isLanguage : string -> bool;
  LANGUAGES : string -> string
}.

(** The file system, over a host environment [Env]. *)
Record Host (Env : Type) : Type := mkHost {
  fs_readFile : string -> Env -> Settled string * Env
}.
Arguments fs_readFile {Env} _ _ _.

(** A computation returns its value, the new environment and the reads
    it made. *)
Definition IO (Env A : Type) : Type := Env -> A * Env * list FsEvent.

Definition ioRet {Env A} (a : A) : IO Env A := fun e => (a, e, []).

Definition ioBind {Env A B} (m : IO Env A) (f : A -> IO Env B) : IO Env B :=
  fun e =>
    let '(a, e1, t1) := m e in
    let '(b, e2, t2) := f a e1 in
    (b, e2, t1 ++ t2).

Definition reads {Env A} (r : A * Env * list FsEvent) : list FsEvent := snd r.
Definition result {Env A} (r : A * Env * list FsEvent) : A := fst (fst r).
Definition after {Env A} (r : A * Env * list FsEvent) : Env := snd (fst r).

(** [await step] inside an [async] function that does not catch: the
    rest runs only when the step did not throw. *)
Definition ioTry {Env A B} (m : IO Env (Settled A)) (k : A -> IO Env (Settled B))
    : IO Env (Settled B) :=
  ioBind m (fun r =>
    match r with
    | Fulfilled a => k a
    | Rejected e => ioRet (Rejected e)
    end).

(** Truthiness of a string. *)
Definition nonEmpty (s : string) : bool := negb (s =? "")%string.

(** [["ENOENT", "EISDIR"].includes(errorCode)] *)
Definition isAbsence (errorCode : string) : bool :=
  existsb (fun c => (c =? errorCode)%string) ["ENOENT"; "EISDIR"].

Definition dquote : string := String (ascii_of_nat 34) EmptyString.

Record CustomInstructionsComponents : Type := mkComponents {
  languagePreference : string;
  globalInstructions : string;
  modeSpecificInstructions : string;
  rulesModeSpecific : string;
  rulesGeneric : string;
  rulesRooIgnore : string;
  rulesAll : string;
  fullSection : string
}.

(** [if (s) xs.push(s)] *)
Definition pushIf (xs : list string) (s : string) : list string :=
  if nonEmpty s then xs ++ [s] else xs.

(** [typeof v === "string" && v.trim() ? `${title}\n${v.trim()}` : ""] *)
Definition titled (title : string) (v : JsValue) : string :=
  match v with
  | JsString s => if nonEmpty (trim s) then title ^^ nl ^^ trim s else ""
  | _ => ""
  end.

(** The head of the section (lines 105-112). *)
Definition sectionHead : string :=
  nl ^^ "====" ^^ nl ^^ nl ^^ "USER'S CUSTOM INSTRUCTIONS" ^^ nl ^^ nl
    ^^ "The following additional instructions are provided by the user, and should be followed to the best of your ability without interfering with the TOOL USE guidelines."
    ^^ nl ^^ nl.

Definition ruleFiles : list string := [".clinerules"; ".cursorrules"; ".windsurfrules"].

Section Functions.
Context (L : Imports) {Env : Type} (H : Host Env).

Definition doReadFile (filePath : string) : IO Env (Settled string) :=
  fun e => let '(r, e') := fs_readFile H filePath e in (r, e', [EvReadFile filePath r]).

(** [safeReadFile] (lines 6-17): the content, trimmed; the empty
    string for a file that does not exist or is a directory; any other
    error is thrown again. *)
Definition safeReadFile (filePath : string) : IO Env (Settled string) :=
  ioBind (doReadFile filePath) (fun r =>
    match r with
    | Fulfilled content => ioRet (Fulfilled (trim content))
    | Rejected err =>
        let errorCode := code err in
        if negb (truthyStr errorCode)
           || negb (isAbsence (match errorCode with Some c => c | None => "" end))
        then ioRet (Rejected err)
        else ioRet (Fulfilled "")
    end).

(** The loop of [loadRuleFiles] (lines 23-28) over the files left,
    with the rules combined so far. *)
Fixpoint loadFrom (cwd : string) (files : list string) (combinedRules : string)
    : IO Env (Settled string) :=
  match files with
  | [] => ioRet (Fulfilled combinedRules)
  | file :: rest =>
      ioTry (safeReadFile (path_join L cwd file)) (fun content =>
        loadFrom cwd rest
          (if nonEmpty content
           then combinedRules ^^ nl ^^ "# Rules from " ^^ file ^^ ":" ^^ nl ^^ content ^^ nl
           else combinedRules))
  end.

Definition loadRuleFiles (cwd : string) : IO Env (Settled string) :=
  loadFrom cwd ruleFiles "".

(** [addCustomInstructions] (lines 44-125); [language] and
    [rooIgnoreInstructions] are the two optional fields of [options]. *)
Definition addCustomInstructions (modeCustomInstructions globalCustomInstructions : JsValue)
    (cwd mode : string) (language rooIgnoreInstructions : option string)
    : IO Env (Settled CustomInstructionsComponents) :=
  let sections : list string := [] in
  let rules : list string := [] in
  let languagePreference :=
    if truthyStr language then
      let l := match language with Some l => l | None => "" end in
      "Language Preference:" ^^ nl ^^ "You should always speak and think in the " ^^ dquote
        ^^ (if isLanguage L l then LANGUAGES L l else l) ^^ dquote ^^ " (" ^^ l
        ^^ ") language unless the user gives you instructions below to do otherwise."
    else "" in
  let sections := pushIf sections languagePreference in
  let globalInstructions := titled "Global Instructions:" globalCustomInstructions in
  let sections := pushIf sections globalInstructions in
  let modeSpecificInstructions := titled "Mode-specific Instructions:" modeCustomInstructions in
  let sections := pushIf sections modeSpecificInstructions in
  ioTry
    (if nonEmpty mode then
       let modeRuleFile := ".clinerules-" ^^ mode in
       ioTry (safeReadFile (path_join L cwd modeRuleFile)) (fun modeRuleContent =>
         ioRet (Fulfilled
           (if nonEmpty modeRuleContent && nonEmpty (trim modeRuleContent)
            then "# Rules from " ^^ modeRuleFile ^^ ":" ^^ nl ^^ modeRuleContent
            else "")))
     else ioRet (Fulfilled "")) (fun rulesModeSpecific =>
  let rules := pushIf rules rulesModeSpecific in
  let rulesRooIgnore := match rooIgnoreInstructions with Some s => s | None => "" end in
  let rules := pushIf rules rulesRooIgnore in
  ioTry (loadRuleFiles cwd) (fun genericRuleContent =>
  let rulesGeneric :=
    if nonEmpty genericRuleContent && nonEmpty (trim genericRuleContent)
    then trim genericRuleContent else "" in
  let rules := pushIf rules rulesGeneric in
  let rulesAll :=
    if (0 <? length rules)%nat then "Rules:" ^^ nl ^^ nl ^^ join (nl ^^ nl) rules else "" in
  let sections := pushIf sections rulesAll in
  let joinedSections := join (nl ^^ nl) sections in
  let fullSection := if nonEmpty joinedSections then sectionHead ^^ joinedSections else "" in
  ioRet (Fulfilled
    (mkComponents languagePreference globalInstructions modeSpecificInstructions
       rulesModeSpecific rulesGeneric rulesRooIgnore rulesAll fullSection)))).
End Functions.

(** A concrete file system: the files by path; reading a locked file
    fails with [EACCES], a directory with [EISDIR], anything else that is
    not there with [ENOENT]. *)
Record Disk : Type := mkDisk {
  files : list (string * string);
  directories : list string;
  locked : list string
}.

Definition errno (c p : string) : JsError :=
  mkError (Some c) (c ^^ ": " ^^ p).

Definition disk : Host Disk :=
  {| fs_readFile := fun p d =>
       (if Mock.mem p (locked d) then Rejected (errno "EACCES" p)
        else if Mock.mem p (directories d) then Rejected (errno "EISDIR" p)
        else match Mock.lookup p (files d) with
             | Some s => Fulfilled s
             | None => Rejected (errno "ENOENT" p)
             end, d) |}.

Definition imports : Imports :=
  {| path_join := fun a b => a ^^ "/" ^^ b;
     isLanguage := fun l => Mock.mem l ["en"; "fr"];
     LANGUAGES := fun l => if (l =? "fr")%string then "French" else "English" |}.

End Prompts.

(* ===================================================================== *)
(** ** Reading a trace *)
(* ===================================================================== *)

Definition isApproval (e : Event) : bool :=
  match e with EvAskApproval _ _ => true | _ => false end.

Definition isPush (e : Event) : bool :=
  match e with EvPushToolResult _ => true | _ => false end.

Definition isValidate (e : Event) : bool :=
  match e with EvValidateAccess _ _ => true | _ => false end.

Definition isHandleError (e : Event) : bool :=
  match e with EvHandleError _ _ => true | _ => false end.

(** The calls to the per-item collaborators: the file-system driver and
    the readers. *)
Definition isOperation (e : Event) : bool :=
  match e with
  | EvFsDelete _ _ _ _ | EvFsCreateDirectory _ _ | EvFsWriteFile _ _ _
  | EvCountFileLines _ _ | EvIsBinaryFile _ _ | EvReadLines _ _ _ _
  | EvExtractText _ _ | EvParseDefinitions _ _ | EvListFiles _ _ _ _
  | EvFormatFilesList _ _ => true
  | _ => false
  end.

(** The queries a tool may make before it asks for approval. *)
Definition isCheck (e : Event) : bool :=
  match e with
  | EvValidateAccess _ _ | EvGetState _ | EvFileExists _ _ => true
  | _ => false
  end.

(** A run that performs no operation and never asks for approval. *)
Definition quiet (e : Event) : bool := negb (isApproval e) && negb (isOperation e).

(** The paths the policy refused, as the tool will show them. *)
Definition deniedPaths (show : string -> string) (tr : list Event) : list string :=
  flat_map (fun e => match e with
                     | EvValidateAccess p false => [show p]
                     | _ => []
                     end) tr.

(** The three ways a run can go: rejected or announced without asking,
    asked and denied, asked and approved (then [Mid] describes what
    follows the approval). *)
Definition Shape (Mid : list Event -> Prop) (tr : list Event) : Prop :=
  Forall (fun e => quiet e = true) tr
  \/ (exists pre content,
        tr = pre ++ [EvAskApproval content false] /\
        Forall (fun e => isCheck e = true) pre)
  \/ (exists pre content mid,
        tr = pre ++ EvAskApproval content true :: mid /\
        Forall (fun e => isCheck e = true) pre /\ Mid mid).

(** One run of a loop body per item: the events of each iteration and the
    result it appended. *)
Inductive Runs {Env A R : Type} (body : A -> list R -> M Env (list R))
    : list A -> list (list Event) -> list R -> Prop :=
| Runs_nil : Runs body [] [] []
| Runs_cons x xs acc c r chunks rs :
    value (body x acc c) = acc ++ [r] ->
    Runs body xs chunks rs ->
    Runs body (x :: xs) (trace (body x acc c) :: chunks) (r :: rs).

(** Every iteration of a loop body appends exactly one result. *)
Definition Pushes {Env A R : Type} (body : A -> list R -> M Env (list R)) : Prop :=
  forall x acc c, exists r, value (body x acc c) = acc ++ [r].


(** What follows an approval in [deleteItemsTool]: the deletion loop, the
    summary and the report. *)
Definition DeleteMid (L : Imports) {Env} (H : Host Env) (relPaths : list string)
    (mid : list Event) : Prop :=
  exists chunks results,
    Runs (DeleteItems.deleteItem L H) relPaths chunks results /\
    mid = concat chunks ++
          [EvSay "text" (DeleteItems.summary (snd (fst (DeleteItems.formatResults results)))
                           (snd (DeleteItems.formatResults results)));
           EvPushToolResult (fst (fst (DeleteItems.formatResults results)))].

(** What follows an approval in [createDirectoriesTool]. *)
Definition CreateMid (L : Imports) {Env} (H : Host Env) (relDirPaths : list string)
    (mid : list Event) : Prop :=
  exists chunks results,
    Runs (CreateDirectories.createItem L H) relDirPaths chunks results /\
    mid = concat chunks ++
          [EvSay "text"
             (CreateDirectories.summary (snd (fst (CreateDirectories.formatResults results)))
                (snd (CreateDirectories.formatResults results)));
           EvPushToolResult (fst (fst (CreateDirectories.formatResults results)))].

(** What follows an approval in [writeFilesTool]. *)
Definition WriteMid (L : Imports) {Env} (H : Host Env)
    (itemsToProcess : list WriteFiles.WriteItem) (mid : list Event) : Prop :=
  exists chunks results,
    Runs (WriteFiles.writeItem L H) itemsToProcess chunks results /\
    mid = concat chunks ++
          [EvSay "text" (WriteFiles.summary (snd (fst (WriteFiles.formatResults results)))
                           (snd (WriteFiles.formatResults results)));
           EvPushToolResult (fst (fst (WriteFiles.formatResults results)))].

(** The items [writeFilesTool] goes on with after validation, when it
    goes on at all. *)
Definition itemsToProcess (block : ToolUse) : option (list WriteFiles.WriteItem) :=
  let itemsInput := items (params block) in
  if missingArray itemsInput then None
  else
    let '(validItems, validationErrors) :=
      WriteFiles.validateFrom (arrayElems itemsInput) 0 [] [] in
    if WriteFiles.hasCombinedError validationErrors then None
    else
      match WriteFiles.selectItems (arrayElems itemsInput) validationErrors validItems with
      | Rejected _ => None
      | Fulfilled its =>
          if (length its =? 0)%nat && (0 <? length (arrayElems itemsInput))%nat
          then None else Some its
      end.

(** What follows an approval in [writeFilesTool], from the block. *)
Definition WriteBlockMid (L : Imports) {Env} (H : Host Env) (block : ToolUse)
    (mid : list Event) : Prop :=
  exists its, itemsToProcess block = Some its /\ WriteMid L H its mid.

(** The events one iteration may leave once the guard has let it pass:
    reader calls on the item's own file, and the error channels. *)
Definition onPath (a : string) (e : Event) : bool :=
  match e with
  | EvCountFileLines f _ | EvIsBinaryFile f _ | EvReadLines f _ _ _
  | EvExtractText f _ | EvParseDefinitions f _ | EvListFiles f _ _ _
  | EvFormatFilesList f _ => (f =? a)%string
  | EvConsole _ _ | EvHandleError _ _ => true
  | _ => false
  end.

(** One iteration of a loop that re-validates access: either the fresh
    check refuses and no operation follows, or the operations on the
    item's file follow a check that allowed them (no check is made when no
    controller is configured). *)
Definition GuardedRun {Env} (H : Host Env) (p a : string) (chunk : list Event) : Prop :=
  (exists tl,
      chunk = EvValidateAccess p false :: tl /\
      Forall (fun e => isOperation e = false /\ onPath a e = true) tl)
  \/ (exists guard first tl,
      chunk = guard ++ first :: tl /\
      (guard = [EvValidateAccess p true] \/ (guard = [] /\ rooIgnoreController H = None)) /\
      isOperation first = true /\
      Forall (fun e => onPath a e = true) (first :: tl)).

(** What follows an approval in [listDirectoriesTool]. *)
Definition ListMid (L : Imports) {Env} (H : Host Env) (relDirPaths : list string)
    (mid : list Event) : Prop :=
  exists st recursiveFlag showIgnored chunks results,
    Runs (ListDirectories.listItem L H recursiveFlag showIgnored) relDirPaths chunks results /\
    mid = EvGetState st :: concat chunks ++
          [EvPushToolResult (ListDirectories.formatResults results)].

(** What follows an approval in [readFilesTool]. *)
Definition ReadMid (L : Imports) {Env} (H : Host Env) (block : ToolUse)
    (mid : list Event) : Prop :=
  exists maxReadFileLine startLine endLine chunks results,
    ReadFiles.parseLine (start_line (params block)) = Some startLine /\
    ReadFiles.parseLine (end_line (params block)) = Some endLine /\
    Runs (ReadFiles.readItem L H
            (truthyStr (start_line (params block)) || truthyStr (end_line (params block)))
            startLine endLine maxReadFileLine)
         (validPaths (paths (params block))) chunks results /\
    mid = concat chunks ++
          [EvPushToolResult (ReadFiles.formatResults maxReadFileLine results)].

(** What follows an approval, for the tool a block names. *)
Definition ToolMid (L : Imports) {Env} (H : Host Env) (name : BatchToolName)
    (block : ToolUse) (mid : list Event) : Prop :=
  match name with
  | read_files => ReadMid L H block mid
  | write_files => WriteBlockMid L H block mid
  | list_directories => ListMid L H (validPaths (paths (params block))) mid
  | create_directories => CreateMid L H (validPaths (paths (params block))) mid
  | delete_items => DeleteMid L H (validPaths (paths (params block))) mid
  end.

(** The [results] array a tool has filled when it renders its report. *)
Inductive Report : Type :=
| ReadReport (maxReadFileLine : Z) (results : list ReadFiles.FileResult)
| WriteReport (results : list WriteFiles.WriteResult)
| ListReport (results : list ListDirectories.ListResult)
| CreateReport (results : list CreateDirectories.CreateResult)
| DeleteReport (results : list DeleteItems.DeleteResult).

Definition reportTool (rep : Report) : BatchToolName :=
  match rep with
  | ReadReport _ _ => read_files
  | WriteReport _ => write_files
  | ListReport _ => list_directories
  | CreateReport _ => create_directories
  | DeleteReport _ => delete_items
  end.

(** The text handed to [pushToolResult]. *)
Definition reportText (rep : Report) : string :=
  match rep with
  | ReadReport m results => ReadFiles.formatResults m results
  | WriteReport results => fst (fst (WriteFiles.formatResults results))
  | ListReport results => ListDirectories.formatResults results
  | CreateReport results => fst (fst (CreateDirectories.formatResults results))
  | DeleteReport results => fst (fst (DeleteItems.formatResults results))
  end.

(** The [path] and the [error] of every result, in order. *)
Definition reportRows (rep : Report) : list (string * option string) :=
  match rep with
  | ReadReport _ results => map (fun r => (ReadFiles.path r, ReadFiles.error r)) results
  | WriteReport results => map (fun r => (WriteFiles.r_path r, WriteFiles.error r)) results
  | ListReport results =>
      map (fun r => (ListDirectories.path r, ListDirectories.error r)) results
  | CreateReport results =>
      map (fun r => (CreateDirectories.path r, CreateDirectories.error r)) results
  | DeleteReport results => map (fun r => (DeleteItems.path r, DeleteItems.error r)) results
  end.

(** The [status] of every result of the three tools that report one. *)
Definition reportStatuses (rep : Report) : list Status :=
  match rep with
  | WriteReport results => map WriteFiles.status results
  | CreateReport results => map CreateDirectories.status results
  | DeleteReport results => map DeleteItems.status results
  | _ => []
  end.

(** The paths of the items a tool goes on with once its parameters are
    accepted: the non-blank strings of [paths], or the paths of the items
    that survived the validation of [items]. *)
Definition processedPaths (name : BatchToolName) (block : ToolUse) : list string :=
  match name with
  | write_files =>
      match itemsToProcess block with
      | Some its => map WriteFiles.path its
      | None => []
      end
  | _ => validPaths (paths (params block))
  end.

(** The paths as the caller supplied them, blank entries left out. *)
Definition suppliedPaths (name : BatchToolName) (block : ToolUse) : list string :=
  match name with
  | write_files =>
      strings (filter isNonBlankString
                 (map (fun it => WriteFiles.propOf it "path") (arrayElems (items (params block)))))
  | _ => validPaths (paths (params block))
  end.

(** The loop of a tool ran once per item, filling the report. *)
Definition LoopOf (L : Imports) {Env} (H : Host Env) (name : BatchToolName)
    (block : ToolUse) (chunks : list (list Event)) (rep : Report) : Prop :=
  match name, rep with
  | read_files, ReadReport m results =>
      exists startLine endLine,
        ReadFiles.parseLine (start_line (params block)) = Some startLine /\
        ReadFiles.parseLine (end_line (params block)) = Some endLine /\
        Runs (ReadFiles.readItem L H
                (truthyStr (start_line (params block)) || truthyStr (end_line (params block)))
                startLine endLine m)
             (validPaths (paths (params block))) chunks results
  | write_files, WriteReport results =>
      exists its, itemsToProcess block = Some its /\
                  Runs (WriteFiles.writeItem L H) its chunks results
  | list_directories, ListReport results =>
      exists recursiveFlag showIgnored,
        Runs (ListDirectories.listItem L H recursiveFlag showIgnored)
             (validPaths (paths (params block))) chunks results
  | create_directories, CreateReport results =>
      Runs (CreateDirectories.createItem L H) (validPaths (paths (params block))) chunks results
  | delete_items, DeleteReport results =>
      Runs (DeleteItems.deleteItem L H) (validPaths (paths (params block))) chunks results
  | _, _ => False
  end.

Definition isSay (e : Event) : bool :=
  match e with EvSay _ _ => true | _ => false end.

(** The error channels: [console] and the generic error collaborator. *)
Definition isDiagnostic (e : Event) : bool :=
  match e with EvConsole _ _ | EvHandleError _ _ => true | _ => false end.

(** The events a loop iteration may produce. *)
Definition inLoop (e : Event) : bool := isOperation e || isDiagnostic e.

(** The same, for the loops that re-validate access. *)
Definition inGuardedLoop (e : Event) : bool := inLoop e || isValidate e.

(** A path is the trimmed [path] of an entry of the [items] array. *)
Definition trimmedFrom (itemsInput : list JsValue) (p : string) : Prop :=
  exists entry s,
    In entry itemsInput /\ WriteFiles.propOf entry "path" = JsString s /\ p = trim s.

(** An operation that threw. *)
Definition failedOp (e : Event) : bool :=
  match e with
  | EvFsDelete _ _ _ (Rejected _) | EvFsCreateDirectory _ (Rejected _)
  | EvFsWriteFile _ _ (Rejected _) | EvCountFileLines _ (Rejected _)
  | EvIsBinaryFile _ (Rejected _) | EvReadLines _ _ _ (Rejected _)
  | EvExtractText _ (Rejected _) | EvParseDefinitions _ (Rejected _)
  | EvListFiles _ _ _ (Rejected _) | EvFormatFilesList _ (Rejected _) => true
  | _ => false
  end.

(** The item [p] was attempted in [chunk] and its outcome recorded in
    [row]: the row carries the item's path; the events start with the
    item's own operation (for the read and list tools, with the fresh
    access check, which may refuse it); for the delete, create and write
    tools the row has no error exactly when no operation of the item
    threw. *)
Definition Attempted (L : Imports) {Env} (H : Host Env) (name : BatchToolName)
    (p : string) (chunk : list Event) (row : string * option string) : Prop :=
  fst row = p /\
  let a := path_resolve L (cwd H) p in
  match name with
  | delete_items =>
      (exists out tl, chunk = EvFsDelete a true false out :: tl /\
                      Forall (fun e => isDiagnostic e = true) tl) /\
      (snd row = None <-> Forall (fun e => failedOp e = false) chunk)
  | create_directories =>
      (exists out tl, chunk = EvFsCreateDirectory a out :: tl /\
                      Forall (fun e => isDiagnostic e = true) tl) /\
      (snd row = None <-> Forall (fun e => failedOp e = false) chunk)
  | write_files =>
      (exists first tl, chunk = first :: tl /\
         ((exists out, first = EvFsCreateDirectory (path_dirname L a) out) \/
          (exists payload out, first = EvFsWriteFile a payload out))) /\
      (snd row = None <-> Forall (fun e => failedOp e = false) chunk)
  | read_files | list_directories => GuardedRun H p a chunk
  end.



(** How a path-based tool gets past its policy pre-check, or not: it
    never reaches the check; or the check refuses some path and the run
    ends with the one aggregated error; or every path is allowed and the
    tool goes on to announce the batch or to ask for approval. *)
Definition PolicyShape (L : Imports) (show : string -> string)
    (complaint : list string -> string) (tr : list Event) : Prop :=
  Forall (fun e => isValidate e = false /\ quiet e = true) tr
  \/ (exists checks,
        tr = checks ++
             [EvSay "rooignore_error" (complaint (deniedPaths show checks));
              EvPushToolResult (toolError L (complaint (deniedPaths show checks)))] /\
        Forall (fun e => isCheck e = true) checks /\
        deniedPaths show checks <> [])
  \/ (exists checks rest,
        tr = checks ++ rest /\
        Forall (fun e => isCheck e = true) checks /\
        deniedPaths show checks = [] /\
        ((exists ct b, rest = [EvAsk ct b]) \/ (exists ct b mid, rest = EvAskApproval ct b :: mid))).

(** The aggregated policy error of each path-based tool. *)
Definition complaint (L : Imports) (name : BatchToolName) (denied : list string) : string :=
  match name with
  | delete_items =>
      rooIgnoreError L ("Deletion prevented for ignored path(s): " ^^ join ", " denied)
  | _ => rooIgnoreError L (join ", " denied)
  end.

(** The tools that run the whole-batch policy pre-check on [paths]. *)
Definition pathChecked (name : BatchToolName) : bool :=
  match name with
  | read_files | delete_items | list_directories => true
  | _ => false
  end.










(** What one iteration of the deletion loop leaves for the item [p]:
    its events and its result, by the outcome of the driver call. *)
Definition DeleteOutcome (L : Imports) {Env} (H : Host Env) (p : string)
    (chunk : list Event) (r : DeleteItems.DeleteResult) : Prop :=
  let a := path_resolve L (cwd H) p in
  exists out,
    match out with
    | Fulfilled _ =>
        chunk = [EvFsDelete a true false out] /\
        r = DeleteItems.mkResult p st_success None
    | Rejected err =>
        if isFileNotFound err then
          chunk = [EvFsDelete a true false out] /\
          r = DeleteItems.mkResult p st_error (Some "File or directory not found.")
        else
          chunk = [EvFsDelete a true false out;
                   EvConsole "error"
                     ("Error deleting " ^^ p ^^ ": " ^^ orElse (message err) "Unknown error");
                   EvHandleError ("deleting " ^^ p) err] /\
          r = DeleteItems.mkResult p st_error (Some (orElse (message err) "Unknown error"))
    end.

(** What [Promise.all] makes of the head and of the outline: both
    results, or the error of the one that rejects; of the one whose
    rejection arrives first when both reject. *)
Definition awaitedBoth (outlineFirst : bool) (head : Settled string)
    (defs : Settled (option string)) : Settled (string * option string) :=
  match head, defs with
  | Fulfilled h, Fulfilled d => Fulfilled (h, d)
  | Rejected e, Fulfilled _ => Rejected e
  | Fulfilled _, Rejected e => Rejected e
  | Rejected e1, Rejected e2 => Rejected (if outlineFirst then e2 else e1)
  end.


(** The outline as it is appended to a truncated read: nothing when the
    outline collaborator returned nothing or the empty string. *)
Definition outlineSuffix (defs : option string) : string :=
  match defs with
  | Some d => if (d =? "")%string then "" else nl ^^ nl ^^ d
  | None => ""
  end.

(** The head of the file as it is shown: numbered from line 1, or empty. *)
Definition numberedHead (L : Imports) (head : string) : string :=
  if (0 <? String.length head)%nat then addLineNumbers L head 1 else "".



(* ===================================================================== *)
(** ** Reading the state a run leaves behind *)
(* ===================================================================== *)

(** A rejection of the parameters as it shows in the trace: the
    missing-parameter collaborator, or [cline.say("error", ...)]. *)
Definition isRejection (e : Event) : bool :=
  match e with
  | EvMissingParam _ _ _ _ => true
  | EvSay kind _ => (kind =? "error")%string
  | _ => false
  end.

(** [cline.consecutiveMistakeCount] along a trace: an approval request
    finds it reset to 0, a rejection of the parameters finds it one
    higher. *)
Definition tallyStep (n : Z) (e : Event) : Z :=
  if isApproval e then 0 else if isRejection e then n + 1 else n.

Definition tally (n : Z) (tr : list Event) : Z := fold_left tallyStep tr n.

(** A computation that leaves the mistake counter as the trace tells. *)
Definition Tallies {Env A} (m : M Env A) : Prop :=
  forall c, consecutiveMistakeCount (final (m c)) =
            tally (consecutiveMistakeCount c) (trace (m c)).

(** The calls that change the workspace. *)
Definition isMutation (e : Event) : bool :=
  match e with
  | EvFsDelete _ _ _ _ | EvFsCreateDirectory _ _ | EvFsWriteFile _ _ _ => true
  | _ => false
  end.

(** The successful call after which a tool sets [cline.didEditFile]:
    the deletion, the creation of a requested directory, the write of a
    file (not the creation of its parent directory). *)
Definition marksEdit (name : BatchToolName) (e : Event) : bool :=
  match name, e with
  | delete_items, EvFsDelete _ _ _ (Fulfilled _) => true
  | create_directories, EvFsCreateDirectory _ (Fulfilled _) => true
  | write_files, EvFsWriteFile _ _ (Fulfilled _) => true
  | _, _ => false
  end.

(** A computation that raises [didEditFile] exactly when an event of
    its trace satisfies [P], and never lowers it. *)
Definition Flags {Env A} (P : Event -> bool) (m : M Env A) : Prop :=
  forall c, didEditFile (final (m c)) = didEditFile c || existsb P (trace (m c)).

(* ===================================================================== *)
(** ** The parameters of the tools *)
(* ===================================================================== *)

(** The name a tool gives itself when it reports a missing parameter. *)
Definition toolText (name : BatchToolName) : string :=
  match name with
  | read_files => "read_files"
  | write_files => "write_files"
  | list_directories => "list_directories"
  | create_directories => "create_directories"
  | delete_items => "delete_items"
  end.

(** The array parameter a tool requires. *)
Definition arrayParam (name : BatchToolName) (block : ToolUse) : JsValue :=
  match name with
  | write_files => items (params block)
  | _ => paths (params block)
  end.

Definition arrayParamText (name : BatchToolName) : string :=
  match name with
  | write_files => "items"
  | _ => "paths"
  end.

Definition arrayParamHint (name : BatchToolName) : string :=
  match name with
  | read_files => "Expected a non-empty array of file paths."
  | write_files => "Expected a non-empty array of {path, content} objects."
  | list_directories | create_directories => "Expected a non-empty array of directory paths."
  | delete_items => "Expected a non-empty array of file or directory paths to delete."
  end.

(** The tools whose array parameter is [paths]. *)
Definition takesPaths (name : BatchToolName) : bool :=
  match name with
  | write_files => false
  | _ => true
  end.

Definition isAsk (e : Event) : bool :=
  match e with EvAsk _ _ => true | _ => false end.

(** The same block, streamed in part or complete. *)
Definition asPartial (block : ToolUse) (b : bool) : ToolUse :=
  mkToolUse (params block) b.

(** The collaborators each tool talks to.  Every tool reports, says,
    announces, asks and logs; the ignore policy is consulted by all but
    the directory creation; the error collaborator is left out by the
    read tool; the settings are read by the read and list tools; each
    driver or reader call belongs to the tools that need it. *)
Definition speaksOf (name : BatchToolName) (e : Event) : bool :=
  match e with
  | EvMissingParam _ _ _ _ | EvSay _ _ | EvPushToolResult _ | EvAsk _ _
  | EvAskApproval _ _ | EvConsole _ _ => true
  | EvValidateAccess _ _ =>
      match name with create_directories => false | _ => true end
  | EvHandleError _ _ =>
      match name with read_files => false | _ => true end
  | EvGetState _ =>
      match name with read_files | list_directories => true | _ => false end
  | EvFsDelete _ _ _ _ =>
      match name with delete_items => true | _ => false end
  | EvFsCreateDirectory _ _ =>
      match name with create_directories | write_files => true | _ => false end
  | EvFsWriteFile _ _ _ | EvFileExists _ _ =>
      match name with write_files => true | _ => false end
  | EvCountFileLines _ _ | EvIsBinaryFile _ _ | EvReadLines _ _ _ _
  | EvExtractText _ _ | EvParseDefinitions _ _ =>
      match name with read_files => true | _ => false end
  | EvListFiles _ _ _ _ | EvFormatFilesList _ _ =>
      match name with list_directories => true | _ => false end
  end.

(** A computation all of whose events satisfy [P]. *)
Definition Emits {Env A} (P : Event -> bool) (m : M Env A) : Prop :=
  forall c, Forall (fun e => P e = true) (trace (m c)).

(** How the run of a block streamed in part relates to the run of the
    same block once complete: the partial run asks for no approval and
    performs no operation; either the two runs are the same (the
    parameters are rejected, or the policy refuses the batch), or they make
    the same checks, after which the partial run only announces the payload
    that the complete run submits for approval. *)
Definition Announces (partialRun completeRun : list Event) : Prop :=
  Forall (fun e => isApproval e = false /\ isOperation e = false) partialRun /\
  ((Forall (fun e => isAsk e = false) partialRun /\ completeRun = partialRun)
   \/ exists checks content,
        partialRun = checks ++ [EvAsk content true] /\
        Forall (fun e => isCheck e = true) checks /\
        exists answer rest, completeRun = checks ++ EvAskApproval content answer :: rest).

(* ===================================================================== *)
(** ** The summary of the delete, create and write tools *)
(* ===================================================================== *)

Definition sameStatus (a b : Status) : bool :=
  match a, b with
  | st_success, st_success | st_error, st_error => true
  | _, _ => false
  end.

(** How many results carry the status [s]. *)
Definition countStatus (s : Status) (l : list Status) : Z :=
  Z.of_nat (length (filter (sameStatus s) l)).

(** The sentence said before the report, for the tools that say
    one. *)
Definition summaryOf (name : BatchToolName) (succeeded failed : Z) : option string :=
  match name with
  | delete_items => Some (DeleteItems.summary succeeded failed)
  | create_directories => Some (CreateDirectories.summary succeeded failed)
  | write_files => Some (WriteFiles.summary succeeded failed)
  | _ => None
  end.

(** A result as the three loops build it: a success without an error,
    or an error with a message that is not empty. *)
Definition Outcome (st : Status) (err : option string) : Prop :=
  (st = st_success /\ err = None) \/ (st = st_error /\ exists e, err = Some e /\ e <> "").

(** What a tool says between its loop and its report. *)
Definition closingWords (rep : Report) : list Event :=
  match rep with
  | WriteReport rs =>
      [EvSay "text" (WriteFiles.summary (snd (fst (WriteFiles.formatResults rs)))
                       (snd (WriteFiles.formatResults rs)))]
  | CreateReport rs =>
      [EvSay "text"
         (CreateDirectories.summary (snd (fst (CreateDirectories.formatResults rs)))
            (snd (CreateDirectories.formatResults rs)))]
  | DeleteReport rs =>
      [EvSay "text" (DeleteItems.summary (snd (fst (DeleteItems.formatResults rs)))
                       (snd (DeleteItems.formatResults rs)))]
  | ReadReport _ _ | ListReport _ => []
  end.

(** The results of a report are built as the loops build them. *)
Definition wellFormed (rep : Report) : Prop :=
  match rep with
  | WriteReport rs => Forall (fun r => Outcome (WriteFiles.status r) (WriteFiles.error r)) rs
  | CreateReport rs =>
      Forall (fun r => Outcome (CreateDirectories.status r) (CreateDirectories.error r)) rs
  | DeleteReport rs => Forall (fun r => Outcome (DeleteItems.status r) (DeleteItems.error r)) rs
  | ReadReport _ _ | ListReport _ => True
  end.

(* ===================================================================== *)
(** ** What an iteration leaves, by the outcome of its calls *)
(* ===================================================================== *)

(** The fresh access check let the item pass (no check is made when no
    controller is configured). *)
Definition passedGuard {Env} (H : Host Env) (p : string) (guard : list Event) : Prop :=
  guard = [EvValidateAccess p true] \/ (guard = [] /\ rooIgnoreController H = None).

(** The error thrown when the fresh access check refuses the item. *)
Definition refusal (L : Imports) (p : string) : JsError :=
  mkError None (rooIgnoreError L p).

(** [const recursive = recursiveRaw?.toLowerCase() === "true"] *)
Definition recursiveOf (block : ToolUse) : bool :=
  match recursive (params block) with
  | Some r => (ListDirectories.toLowerCase r =? "true")%string
  | None => false
  end.

(** [const { showRooIgnoredFiles = true } = state ?? {}] *)
Definition showIgnoredOf (st : option ProviderState) : bool :=
  match st with
  | Some ps => match showRooIgnoredFiles ps with Some b => b | None => true end
  | None => true
  end.

(** The [catch] of the listing loop. *)
Definition caughtListing (L : Imports) {Env} (H : Host Env) (p : string) (err : JsError)
    : list Event :=
  [EvConsole "error" ("Error listing directory " ^^ path_resolve L (cwd H) p ^^ ":");
   EvHandleError ("listing directory " ^^ p) err].

Definition failedListing (p : string) (err : JsError) : ListDirectories.ListResult :=
  ListDirectories.mkResult p None
    (Some (orElse (message err) "Unknown error listing directory")) None.

(** What one iteration of the listing loop leaves for the directory [p]:
    refused by the fresh access check; or listed, with the limit of 200
    entries and the recursive flag of the block, and then formatted; a
    failure of either call is caught, logged, handed to the error
    collaborator and recorded. *)
Definition ListOutcome (L : Imports) {Env} (H : Host Env) (recursiveFlag : bool)
    (p : string) (chunk : list Event) (r : ListDirectories.ListResult) : Prop :=
  let a := path_resolve L (cwd H) p in
  (chunk = EvValidateAccess p false :: caughtListing L H p (refusal L p) /\
   r = failedListing p (refusal L p))
  \/ exists guard listed,
       passedGuard H p guard /\
       match listed with
       | Rejected err =>
           chunk = guard ++ EvListFiles a recursiveFlag 200 listed :: caughtListing L H p err /\
           r = failedListing p err
       | Fulfilled (files, hitLimit) =>
           exists formatted,
             match formatted with
             | Rejected err =>
                 chunk = guard ++ EvListFiles a recursiveFlag 200 listed
                           :: EvFormatFilesList a formatted :: caughtListing L H p err /\
                 r = failedListing p err
             | Fulfilled text =>
                 chunk = guard ++ [EvListFiles a recursiveFlag 200 listed;
                                   EvFormatFilesList a formatted] /\
                 r = ListDirectories.mkResult p (Some text) None (Some hitLimit)
             end
       end.

(** What follows an approval in [listDirectoriesTool], with the flags the
    loop runs with. *)
Definition ListExact (L : Imports) {Env} (H : Host Env) (block : ToolUse)
    (mid : list Event) : Prop :=
  exists st chunks results,
    Runs (ListDirectories.listItem L H (recursiveOf block) (showIgnoredOf st))
         (validPaths (paths (params block))) chunks results /\
    mid = EvGetState st :: concat chunks ++
          [EvPushToolResult (ListDirectories.formatResults results)].

(** The probes that open every read: the line count (a failure is
    logged and counts as 0 lines) and the binary detection (a failure
    counts as not binary). *)
Definition probes (a : string) (counted : Settled Z) (binary : Settled bool) : list Event :=
  EvCountFileLines a counted ::
  match counted with
  | Fulfilled _ => []
  | Rejected _ => [EvConsole "warn" ("Could not count lines for " ^^ a ^^ ":")]
  end ++ [EvIsBinaryFile a binary].

Definition countedLines (counted : Settled Z) : Z :=
  match counted with Fulfilled n => n | Rejected _ => 0 end.

Definition detectedBinary (binary : Settled bool) : bool :=
  match binary with Fulfilled b => b | Rejected _ => false end.

(** The [catch] of the reading loop: the failure is logged, not handed
    to the error collaborator. *)
Definition caughtReading (L : Imports) {Env} (H : Host Env) (p : string) : list Event :=
  [EvConsole "error" ("Error reading file " ^^ path_resolve L (cwd H) p ^^ ":")].

Definition failedReading (p : string) (err : JsError) : ReadFiles.FileResult :=
  ReadFiles.mkResult p None (Some (orElse (message err) "Unknown error reading file"))
    None None None.

(** What one iteration of the reading loop leaves for the file [p] when
    a line range was given: refused by the fresh access check; or probed
    and then read with [readLines(path, endLine, startLine)], the lines
    numbered from the first line of the range. *)
Definition RangeOutcome (L : Imports) {Env} (H : Host Env) (startLine endLine : option Z)
    (p : string) (chunk : list Event) (r : ReadFiles.FileResult) : Prop :=
  let a := path_resolve L (cwd H) p in
  (chunk = EvValidateAccess p false :: caughtReading L H p /\
   r = failedReading p (refusal L p))
  \/ exists guard counted binary lines,
       passedGuard H p guard /\
       match lines with
       | Rejected err =>
           chunk = guard ++ probes a counted binary
                     ++ EvReadLines a endLine startLine lines :: caughtReading L H p /\
           r = failedReading p err
       | Fulfilled text =>
           chunk = guard ++ probes a counted binary ++ [EvReadLines a endLine startLine lines] /\
           r = ReadFiles.mkResult p
                 (Some (addLineNumbers L text (match startLine with Some s => s + 1 | None => 1 end)))
                 None (Some false) (Some (countedLines counted)) (Some "")
       end.

(** [!isBinary && maxReadFileLine >= 0 && currentTotalLines > maxReadFileLine] *)
Definition truncates (maxReadFileLine : Z) (counted : Settled Z) (binary : Settled bool)
    : bool :=
  negb (detectedBinary binary) && (maxReadFileLine >=? 0)
  && (countedLines counted >? maxReadFileLine).

(** What one iteration of the reading loop leaves for the file [p] when
    no line range was given: refused by the fresh access check; or probed
    and then, when the file is not binary and has more lines than a
    maximum that is not negative, read up to the maximum (no lines are
    read when the maximum is 0) and outlined; and otherwise extracted in
    full.  When the read of the head and the outline both fail, the error
    recorded is that of one of the two (of the rejection that arrived
    first, which the trace does not tell). *)
Definition PlainOutcome (L : Imports) {Env} (H : Host Env) (maxReadFileLine : Z)
    (p : string) (chunk : list Event) (r : ReadFiles.FileResult) : Prop :=
  let a := path_resolve L (cwd H) p in
  (chunk = EvValidateAccess p false :: caughtReading L H p /\
   r = failedReading p (refusal L p))
  \/ exists guard counted binary,
       passedGuard H p guard /\
       if truncates maxReadFileLine counted binary then
         exists head defs,
           let calls :=
             (if maxReadFileLine >? 0
              then [EvReadLines a (Some (maxReadFileLine - 1)) (Some 0) head] else [])
             ++ [EvParseDefinitions a defs] in
           ((maxReadFileLine >? 0) = false -> head = Fulfilled "") /\
           match head, defs with
           | Fulfilled h, Fulfilled d =>
               chunk = guard ++ probes a counted binary ++ calls /\
               r = ReadFiles.mkResult p (Some (numberedHead L h)) None (Some true)
                     (Some (countedLines counted)) (Some (outlineSuffix d))
           | Rejected err, Fulfilled _ | Fulfilled _, Rejected err =>
               chunk = guard ++ probes a counted binary ++ calls ++ caughtReading L H p /\
               r = failedReading p err
           | Rejected headErr, Rejected defsErr =>
               chunk = guard ++ probes a counted binary ++ calls ++ caughtReading L H p /\
               (r = failedReading p headErr \/ r = failedReading p defsErr)
           end
       else
         exists text,
           match text with
           | Fulfilled t =>
               chunk = guard ++ probes a counted binary ++ [EvExtractText a text] /\
               r = ReadFiles.mkResult p (Some t) None (Some false)
                     (Some (countedLines counted)) (Some "")
           | Rejected err =>
               chunk = guard ++ probes a counted binary
                         ++ EvExtractText a text :: caughtReading L H p /\
               r = failedReading p err
           end.

(* ===================================================================== *)
(** ** How a failure is reported *)
(* ===================================================================== *)

(** The error of a call whose failure ends the item: a rejected call
    of the driver or of a reader.  The line count and the binary probe
    are left out: the read loop absorbs their failure. *)
Definition thrownBy (e : Event) : option JsError :=
  match e with
  | EvFsDelete _ _ _ (Rejected err) | EvFsCreateDirectory _ (Rejected err)
  | EvFsWriteFile _ _ (Rejected err) | EvReadLines _ _ _ (Rejected err)
  | EvExtractText _ (Rejected err) | EvParseDefinitions _ (Rejected err)
  | EvListFiles _ _ _ (Rejected err) | EvFormatFilesList _ (Rejected err) => Some err
  | _ => None
  end.

(** A refusal of the access check. *)
Definition isRefusal (e : Event) : bool :=
  match e with EvValidateAccess _ false => true | _ => false end.

(** A call that ends the item: a refusal, or a call that threw. *)
Definition endsItem (e : Event) : bool :=
  isRefusal e || match thrownBy e with Some _ => true | None => false end.

(** The error an iteration may catch: thrown by one of its calls, or
    by the fresh access check that refused the item. *)
Definition Caught (L : Imports) (p : string) (chunk : list Event) (err : JsError) : Prop :=
  (exists e, In e chunk /\ thrownBy e = Some err)
  \/ (In (EvValidateAccess p false) chunk /\ err = refusal L p).

(** What a tool tells the error collaborator it was doing. *)
Definition actionText (name : BatchToolName) (p : string) : string :=
  match name with
  | delete_items => "deleting " ^^ p
  | create_directories => "creating directory " ^^ p
  | write_files => "writing file " ^^ p
  | list_directories => "listing directory " ^^ p
  | read_files => "reading file " ^^ p
  end.

(** The message recorded for an error that carries none. *)
Definition fallbackText (name : BatchToolName) : string :=
  match name with
  | read_files => "Unknown error reading file"
  | list_directories => "Unknown error listing directory"
  | _ => "Unknown error"
  end.

(** What the result of the item records for the error caught: the
    message of the error, or the fallback of the tool when it is empty; the
    delete tool records an error whose code is [FileNotFound] under a text
    of its own. *)
Definition recordedAs (name : BatchToolName) (err : JsError) : string :=
  match name with
  | delete_items =>
      if isFileNotFound err then "File or directory not found."
      else orElse (message err) (fallbackText name)
  | _ => orElse (message err) (fallbackText name)
  end.

(** The calls to the error collaborator for the error caught: one,
    with the action of the tool on the item; none in the read tool, and
    none in the delete tool for an error whose code is [FileNotFound]. *)
Definition handedOver (name : BatchToolName) (p : string) (err : JsError) : list Event :=
  match name with
  | read_files => []
  | delete_items =>
      if isFileNotFound err then [] else [EvHandleError (actionText name p) err]
  | _ => [EvHandleError (actionText name p) err]
  end.

(** How the failure of the item [p] is reported.  A result without an
    error is that of an iteration none of whose calls threw, and nothing is
    handed to the error collaborator.  A result with an error records an
    error that the iteration caught, and the error collaborator is called
    as [handedOver] tells. *)
Definition FailureReported (L : Imports) (name : BatchToolName) (p : string)
    (chunk : list Event) (row : string * option string) : Prop :=
  match snd row with
  | None => (forall err, ~ Caught L p chunk err) /\ filter isHandleError chunk = []
  | Some msg =>
      exists err,
        Caught L p chunk err /\
        msg = recordedAs name err /\
        filter isHandleError chunk = handedOver name p err
  end.

(* ===================================================================== *)
(** ** What every iteration leaves, tool by tool *)
(* ===================================================================== *)

(** What one iteration of the creation loop leaves for the directory
    [p]: its events and its result, by the outcome of the driver call. *)
Definition CreateOutcome (L : Imports) {Env} (H : Host Env) (p : string)
    (chunk : list Event) (r : CreateDirectories.CreateResult) : Prop :=
  let a := path_resolve L (cwd H) p in
  exists out,
    match out with
    | Fulfilled _ =>
        chunk = [EvFsCreateDirectory a out] /\
        r = CreateDirectories.mkResult p st_success None
    | Rejected err =>
        chunk = [EvFsCreateDirectory a out;
                 EvConsole "error"
                   ("Error creating directory " ^^ p ^^ ": "
                      ^^ orElse (message err) "Unknown error");
                 EvHandleError ("creating directory " ^^ p) err] /\
        r = CreateDirectories.mkResult p st_error (Some (orElse (message err) "Unknown error"))
    end.



Definition isExtract (e : Event) : bool :=
  match e with EvExtractText _ _ => true | _ => false end.

(* ===================================================================== *)
(** ** The validation of the items of the write tool *)
(* ===================================================================== *)

(** An entry that passes the validation: an object whose [path] is a
    non-blank string and whose [content] is a string. *)
Definition entryValid (item : JsValue) : bool :=
  truthy item && typeofObject item
  && isNonBlankString (WriteFiles.propOf item "path")
  && WriteFiles.isString (WriteFiles.propOf item "content").

(** The item pushed for a valid entry (line 59). *)
Definition toItem (item : JsValue) : WriteFiles.WriteItem :=
  WriteFiles.mkItem (trim (WriteFiles.stringOf (WriteFiles.propOf item "path")))
    (WriteFiles.stringOf (WriteFiles.propOf item "content")).

(** The entries before the first one that is not valid. *)
Fixpoint validPrefix (itemsInput : list JsValue) : list JsValue :=
  match itemsInput with
  | [] => []
  | item :: rest => if entryValid item then item :: validPrefix rest else []
  end.

(** The test of lines 67-70 on one validation error. *)
Definition bothPhrases (err : string) : bool :=
  includes err "missing a valid 'path'" && includes err "missing 'content'".

(** [s] and [n] differ at a position that both have. *)
Fixpoint differs (s n : string) : bool :=
  match s, n with
  | String a s', String b n' => negb (Ascii.eqb a b) || differs s' n'
  | _, _ => false
  end.

(** No occurrence of [n] can start inside [a], whatever follows [a]. *)
Fixpoint noOverlap (a n : string) : bool :=
  match a with
  | EmptyString => true
  | String _ a' => differs a n && noOverlap a' n
  end.

(** The character [c] does not occur in [s]. *)
Fixpoint lacks (c : ascii) (s : string) : bool :=
  match s with
  | EmptyString => true
  | String a r => negb (Ascii.eqb a c) && lacks c r
  end.

(** [dir !== absolutePath && dir !== cline.cwd && dir !== "."] *)
Definition needsParent (L : Imports) {Env} (H : Host Env) (item : WriteFiles.WriteItem)
    : bool :=
  let absolutePath := path_resolve L (cwd H) (WriteFiles.path item) in
  let dir := path_dirname L absolutePath in
  negb (dir =? absolutePath)%string && negb (dir =? cwd H)%string && negb (dir =? ".")%string.

(** The [catch] of the writing loop. *)
Definition caughtWriting (p : string) (err : JsError) : list Event :=
  [EvConsole "error" ("Error writing file " ^^ p ^^ ": " ^^ orElse (message err) "Unknown error");
   EvHandleError ("writing file " ^^ p) err].

Definition failedWriting (p : string) (err : JsError) : WriteFiles.WriteResult :=
  WriteFiles.mkResult p st_error (Some (orElse (message err) "Unknown error")).

(** What one iteration of the writing loop leaves for an item: the
    parent directory is created first when the item needs one; the file is
    written, with the encoded content, unless that creation failed; a
    failure of either call is caught, logged, handed to the error
    collaborator and recorded. *)
Definition WriteOutcome (L : Imports) {Env} (H : Host Env) (item : WriteFiles.WriteItem)
    (chunk : list Event) (r : WriteFiles.WriteResult) : Prop :=
  let absolutePath := path_resolve L (cwd H) (WriteFiles.path item) in
  let dir := path_dirname L absolutePath in
  exists made,
    let lead := if needsParent L H item then [EvFsCreateDirectory dir made] else [] in
    match made with
    | Rejected err =>
        needsParent L H item = true /\
        chunk = lead ++ caughtWriting (WriteFiles.path item) err /\
        r = failedWriting (WriteFiles.path item) err
    | Fulfilled _ =>
        exists written,
          match written with
          | Fulfilled _ =>
              chunk = lead ++ [EvFsWriteFile absolutePath (encode (WriteFiles.content item))
                                 written] /\
              r = WriteFiles.mkResult (WriteFiles.path item) st_success None
          | Rejected err =>
              chunk = lead ++ EvFsWriteFile absolutePath (encode (WriteFiles.content item))
                                written
                        :: caughtWriting (WriteFiles.path item) err /\
              r = failedWriting (WriteFiles.path item) err
          end
    end.

(** A read with [start_line] or [end_line] given. *)
Definition isRangeRead (block : ToolUse) : bool :=
  truthyStr (start_line (params block)) || truthyStr (end_line (params block)).

(** Every item of the batch was attempted and its outcome recorded:
    item by item, in order, the events of the iteration and the result it
    appended are those of the item's own calls, by their outcomes,
    whatever happened to the items before it. *)
Definition Recorded (L : Imports) {Env} (H : Host Env) (name : BatchToolName)
    (block : ToolUse) (chunks : list (list Event)) (rep : Report) : Prop :=
  match name, rep with
  | delete_items, DeleteReport results =>
      Forall2 (fun p cr => DeleteOutcome L H p (fst cr) (snd cr))
              (validPaths (paths (params block))) (combine chunks results)
  | create_directories, CreateReport results =>
      Forall2 (fun p cr => CreateOutcome L H p (fst cr) (snd cr))
              (validPaths (paths (params block))) (combine chunks results)
  | write_files, WriteReport results =>
      exists its,
        itemsToProcess block = Some its /\
        Forall2 (fun item cr => WriteOutcome L H item (fst cr) (snd cr))
                its (combine chunks results)
  | list_directories, ListReport results =>
      Forall2 (fun p cr => ListOutcome L H (recursiveOf block) p (fst cr) (snd cr))
              (validPaths (paths (params block))) (combine chunks results)
  | read_files, ReadReport maxReadFileLine results =>
      exists startLine endLine,
        ReadFiles.parseLine (start_line (params block)) = Some startLine /\
        ReadFiles.parseLine (end_line (params block)) = Some endLine /\
        Forall2 (fun p cr =>
                   if isRangeRead block
                   then RangeOutcome L H startLine endLine p (fst cr) (snd cr)
                   else PlainOutcome L H maxReadFileLine p (fst cr) (snd cr))
                (validPaths (paths (params block))) (combine chunks results)
  | _, _ => False
  end.

(** The first line bound of a read that is given and does not parse,
    with the name of its parameter. *)
Definition badBound (block : ToolUse) : option (string * string) :=
  match ReadFiles.parseLine (start_line (params block)) with
  | None => Some ("start_line", ReadFiles.showOpt (start_line (params block)))
  | Some _ =>
      match ReadFiles.parseLine (end_line (params block)) with
      | None => Some ("end_line", ReadFiles.showOpt (end_line (params block)))
      | Some _ => None
      end
  end.

(** The rejection of a batch none of whose items can be processed
    (line 88). *)
Definition noValidItems (validationErrors : list string) : string :=
  "Invalid 'items' parameter: No valid items found. Errors: " ^^ join "; " validationErrors.

(* ===================================================================== *)
(** ** Reading the rule files *)
(* ===================================================================== *)

(** An error that [safeReadFile] throws again: one without a code, or
    with a code other than [ENOENT] and [EISDIR]. *)
Definition isHard (err : JsError) : bool :=
  match code err with
  | Some c => (c =? "")%string || negb (Prompts.isAbsence c)
  | None => true
  end.

(** What [safeReadFile] makes of the outcome of its read. *)
Definition settled (outcome : Settled string) : Settled string :=
  match outcome with
  | Fulfilled content => Fulfilled (trim content)
  | Rejected err => if isHard err then Rejected err else Fulfilled ""
  end.

(** A read that did not stop the caller. *)
Definition benign (outcome : Settled string) : bool :=
  match settled outcome with Fulfilled _ => true | Rejected _ => false end.

(** The block [loadRuleFiles] adds for a rule file, nothing for an
    empty one. *)
Definition ruleBlock (file content : string) : string :=
  if Prompts.nonEmpty content
  then nl ^^ "# Rules from " ^^ file ^^ ":" ^^ nl ^^ content ^^ nl
  else "".

(** The rules combined from the outcomes of the reads, file by file. *)
Fixpoint rulesFrom (files : list string) (outcomes : list (Settled string)) : Settled string :=
  match files, outcomes with
  | file :: files', outcome :: outcomes' =>
      match settled outcome with
      | Rejected err => Rejected err
      | Fulfilled content =>
          match rulesFrom files' outcomes' with
          | Fulfilled rest => Fulfilled (ruleBlock file content ^^ rest)
          | Rejected err => Rejected err
          end
      end
  | _, _ => Fulfilled ""
  end.

(** The reads of the files [paths], in order, with their outcomes. *)
Definition readsOf (paths : list string) (outcomes : list (Settled string))
    : list Prompts.FsEvent :=
  map (fun po => Prompts.EvReadFile (fst po) (snd po)) (combine paths outcomes).

(** The reads went as far as they could, by the result: through all
    the files, every read benign, when the caller got its value; up to the
    error that is thrown again otherwise, the reads before it benign. *)
Definition Stopped {A} (paths : list string) (outcomes : list (Settled string))
    (res : Settled A) : Prop :=
  match res with
  | Fulfilled _ => length outcomes = length paths /\ forallb benign outcomes = true
  | Rejected err =>
      exists before,
        outcomes = before ++ [Rejected err] /\ isHard err = true /\
        forallb benign before = true /\ (length outcomes <= length paths)%nat
  end.

(** The files [addCustomInstructions] reads: the rule file of the mode
    when a mode is given, then the three generic rule files. *)
Definition ruleFilesFor (L : Prompts.Imports) (cwd mode : string) : list string :=
  (if Prompts.nonEmpty mode then [Prompts.path_join L cwd (".clinerules-" ^^ mode)] else [])
  ++ map (Prompts.path_join L cwd) Prompts.ruleFiles.

(** The non-empty strings of a list, in order. *)
Definition present (parts : list string) : list string := filter Prompts.nonEmpty parts.

(** [parts.length > 0 ? head + parts.join("\n\n") : ""] over the
    non-empty parts. *)
Definition assembled (head : string) (parts : list string) : string :=
  match present parts with
  | [] => ""
  | shown => head ^^ join (nl ^^ nl) shown
  end.

(** [`Language Preference:...`] for a language that is given. *)
Definition languageText (L : Prompts.Imports) (l : string) : string :=
  "Language Preference:" ^^ nl ^^ "You should always speak and think in the " ^^ Prompts.dquote
    ^^ (if Prompts.isLanguage L l then Prompts.LANGUAGES L l else l) ^^ Prompts.dquote
    ^^ " (" ^^ l
    ^^ ") language unless the user gives you instructions below to do otherwise.".

(** [s && s.trim() ? shown : ""] *)
Definition whenNotBlank (s shown : string) : string :=
  if Prompts.nonEmpty s && Prompts.nonEmpty (trim s) then shown else "".

(** The components are assembled from the inputs, from the content of
    the rule file of the mode and from the combined generic rules, the
    empty parts left out. *)
Definition Assembled (L : Prompts.Imports) (modeCustomInstructions globalCustomInstructions : JsValue)
    (mode : string) (language rooIgnoreInstructions : option string)
    (modeRuleContent genericRuleContent : string)
    (comps : Prompts.CustomInstructionsComponents) : Prop :=
  Prompts.languagePreference comps =
    (if truthyStr language
     then languageText L (match language with Some l => l | None => "" end) else "") /\
  Prompts.globalInstructions comps =
    Prompts.titled "Global Instructions:" globalCustomInstructions /\
  Prompts.modeSpecificInstructions comps =
    Prompts.titled "Mode-specific Instructions:" modeCustomInstructions /\
  Prompts.rulesModeSpecific comps =
    whenNotBlank modeRuleContent
      ("# Rules from .clinerules-" ^^ mode ^^ ":" ^^ nl ^^ modeRuleContent) /\
  Prompts.rulesRooIgnore comps =
    match rooIgnoreInstructions with Some s => s | None => "" end /\
  Prompts.rulesGeneric comps = whenNotBlank genericRuleContent (trim genericRuleContent) /\
  Prompts.rulesAll comps =
    assembled ("Rules:" ^^ nl ^^ nl)
      [Prompts.rulesModeSpecific comps; Prompts.rulesRooIgnore comps;
       Prompts.rulesGeneric comps] /\
  Prompts.fullSection comps =
    assembled Prompts.sectionHead
      [Prompts.languagePreference comps; Prompts.globalInstructions comps;
       Prompts.modeSpecificInstructions comps; Prompts.rulesAll comps].

(* ===================================================================== *)
(** ** More worlds for the concrete host *)
(* ===================================================================== *)

Module Scenes.



(** The host of [Mock.host], but for a file system on which neither
    the lines nor the outline of a file can be had, the outline parser being
    the first to give up. *)
Definition racingHost : Host Mock.World :=
  {| cwd := cwd Mock.host;
     rooIgnoreController := rooIgnoreController Mock.host;
     say := say Mock.host;
     sayAndCreateMissingParamError := sayAndCreateMissingParamError Mock.host;
     ask := ask Mock.host;
     askApproval := askApproval Mock.host;
     handleError := handleError Mock.host;
     pushToolResult := pushToolResult Mock.host;
     getState := getState Mock.host;
     fs_delete := fs_delete Mock.host;
     fs_createDirectory := fs_createDirectory Mock.host;
     fs_writeFile := fs_writeFile Mock.host;
     fileExistsAtPath := fileExistsAtPath Mock.host;
     countFileLines := countFileLines Mock.host;
     isBinaryFile := isBinaryFile Mock.host;
     readLines := fun _ _ _ w => (Rejected (mkError None "readLines failed"), w);
     extractTextFromFile := extractTextFromFile Mock.host;
     parseSourceCodeDefinitionsForFile :=
       fun _ w => (Rejected (mkError None "outline failed"), w);
     listFiles := listFiles Mock.host;
     formatFilesList := formatFilesList Mock.host;
     outlineRejectsFirst := fun _ _ => true |}.

End Scenes.
(* ===================================================================== *)
(** ** The built-ins on examples *)
(* ===================================================================== *)

Example parseInt_5 : parseInt "5" = Some 5. Proof. reflexivity. Qed.
Example parseInt_abc : parseInt "abc" = None. Proof. reflexivity. Qed.
Example parseInt_neg : parseInt "  -12px" = Some (-12). Proof. reflexivity. Qed.
Example parseInt_hex : parseInt "0x1f" = Some 31. Proof. reflexivity. Qed.
Example numToString_600 : numToString 600 = "600". Proof. reflexivity. Qed.
Example trim_ex : trim "  a b  " = "a b". Proof. reflexivity. Qed.

(** White space beyond ASCII is trimmed too: a no-break space (U+00A0,
    bytes [C2 A0]) before and a line separator (U+2028, bytes [E2 80 A8])
    after; and a byte order mark (U+FEFF, bytes [EF BB BF]) before a number
    is skipped by [parseInt]. *)
Example trim_unicode :
  trim (String (ascii_of_nat 194) (String (ascii_of_nat 160)
          ("a b" ++ String (ascii_of_nat 226) (String (ascii_of_nat 128)
                      (String (ascii_of_nat 168) ""))))) = "a b".
Proof. reflexivity. Qed.
Example trim_keeps_letters :
  trim (String (ascii_of_nat 195) (String (ascii_of_nat 160) " ")) =
  String (ascii_of_nat 195) (String (ascii_of_nat 160) "").
Proof. reflexivity. Qed.
Example parseInt_unicode :
  parseInt (String (ascii_of_nat 239) (String (ascii_of_nat 187)
              (String (ascii_of_nat 191) " 7"))) = Some 7.
Proof. reflexivity. Qed.
Example includes_ex : includes "Item at index 10 is" "Item at index 1" = true.
Proof. reflexivity. Qed.

(* ===================================================================== *)
(** ** Facts about the monad *)
(* ===================================================================== *)

Section MonadFacts.
Context {Env : Type}.

Lemma trace_bind {A B} (m : M Env A) (f : A -> M Env B) c :
  trace (bind m f c) = trace (m c) ++ trace (f (value (m c)) (final (m c))).
Proof.
  unfold bind, trace, value, final.
  destruct (m c) as [[a c1] t1]; simpl.
  destruct (f a c1) as [[b c2] t2]; reflexivity.
Qed.

Lemma value_bind {A B} (m : M Env A) (f : A -> M Env B) c :
  value (bind m f c) = value (f (value (m c)) (final (m c))).
Proof.
  unfold bind, value, final.
  destruct (m c) as [[a c1] t1]; simpl.
  destruct (f a c1) as [[b c2] t2]; reflexivity.
Qed.

Lemma final_bind {A B} (m : M Env A) (f : A -> M Env B) c :
  final (bind m f c) = final (f (value (m c)) (final (m c))).
Proof.
  unfold bind, value, final.
  destruct (m c) as [[a c1] t1]; simpl.
  destruct (f a c1) as [[b c2] t2]; reflexivity.
Qed.

Lemma trace_ret {A} (a : A) (c : Cline Env) : trace (ret a c) = [].
Proof. reflexivity. Qed.

Lemma value_ret {A} (a : A) (c : Cline Env) : value (ret a c) = a.
Proof. reflexivity. Qed.

Lemma trace_call {A} (f : Env -> A * Env) ev c :
  trace (call f ev c) = [ev (fst (f (env c)))].
Proof. unfold call, trace. destruct (f (env c)); reflexivity. Qed.

Lemma value_call {A} (f : Env -> A * Env) ev c :
  value (call f ev c) = fst (f (env c)).
Proof. unfold call, value. destruct (f (env c)); reflexivity. Qed.

Lemma trace_tell (f : Env -> Env) ev c : trace (tell f ev c) = [ev].
Proof. reflexivity. Qed.

Lemma trace_peek {A} (f : Env -> A) (c : Cline Env) : trace (peek f c) = [].
Proof. reflexivity. Qed.

Lemma value_peek {A} (f : Env -> A) (c : Cline Env) : value (peek f c) = f (env c).
Proof. reflexivity. Qed.

Lemma trace_console level text (c : Cline Env) :
  trace (console level text c) = [EvConsole level text].
Proof. reflexivity. Qed.

Lemma trace_incrMistakes (c : Cline Env) : trace (incrMistakes c) = [].
Proof. reflexivity. Qed.

Lemma trace_resetMistakes (c : Cline Env) : trace (resetMistakes c) = [].
Proof. reflexivity. Qed.

Lemma trace_markEdited (c : Cline Env) : trace (markEdited c) = [].
Proof. reflexivity. Qed.

Lemma trace_andThen {A B} (m : M Env (Settled A)) (k : A -> M Env (Settled B)) c :
  trace (andThen m k c) =
  trace (m c) ++ match value (m c) with
                 | Fulfilled a => trace (k a (final (m c)))
                 | Rejected _ => []
                 end.
Proof.
  unfold andThen. rewrite trace_bind. destruct (value (m c)); reflexivity.
Qed.

Lemma value_andThen {A B} (m : M Env (Settled A)) (k : A -> M Env (Settled B)) c :
  value (andThen m k c) =
  match value (m c) with
  | Fulfilled a => value (k a (final (m c)))
  | Rejected e => Rejected e
  end.
Proof.
  unfold andThen. rewrite value_bind. destruct (value (m c)); reflexivity.
Qed.
End MonadFacts.

Section SharedFacts.
Context {Env : Type} (H : Host Env).

Lemma trace_doSay kind text c : trace (doSay H kind text c) = [EvSay kind text].
Proof. reflexivity. Qed.

Lemma trace_doPush text c : trace (doPush H text c) = [EvPushToolResult text].
Proof. reflexivity. Qed.

Lemma trace_doHandleError action err c :
  trace (doHandleError H action err c) = [EvHandleError action err].
Proof. reflexivity. Qed.

Lemma trace_doAsk content b c : trace (doAsk H content b c) = [EvAsk content b].
Proof. reflexivity. Qed.

Lemma trace_doAskApproval content c :
  trace (doAskApproval H content c) = [EvAskApproval content (value (doAskApproval H content c))].
Proof. unfold doAskApproval. rewrite trace_call, value_call. reflexivity. Qed.

Lemma trace_doMissingParam tool param hint c :
  trace (doMissingParam H tool param hint c) =
  [EvMissingParam tool param hint (value (doMissingParam H tool param hint c))].
Proof. unfold doMissingParam. rewrite trace_call, value_call. reflexivity. Qed.

Lemma trace_doGetState c :
  trace (doGetState H c) = [EvGetState (value (doGetState H c))].
Proof. unfold doGetState. rewrite trace_call, value_call. reflexivity. Qed.

(** A policy query leaves at most its own event, carrying the answer. *)
Lemma trace_validateAccess p c :
  trace (validateAccess H p c) = [EvValidateAccess p (value (validateAccess H p c))]
  \/ (rooIgnoreController H = None /\ trace (validateAccess H p c) = []
      /\ value (validateAccess H p c) = true).
Proof.
  unfold validateAccess. destruct (rooIgnoreController H).
  - left. rewrite trace_call, value_call. reflexivity.
  - right. auto.
Qed.
End SharedFacts.

Create Rewrite HintDb run.
#[local] Hint Rewrite @trace_bind @value_bind @trace_ret @value_ret @trace_tell
  @trace_console @trace_incrMistakes @trace_resetMistakes @trace_markEdited
  @trace_doSay @trace_doPush @trace_doHandleError @trace_doAsk @trace_doAskApproval
  @trace_doMissingParam @trace_doGetState @trace_call @value_call
  @trace_andThen @value_andThen @trace_peek @value_peek : run.

Ltac run := autorewrite with run; cbn [app].

(* ===================================================================== *)
(** ** Facts about the loops *)
(* ===================================================================== *)

Section LoopFacts.
Context {Env A R : Type} (body : A -> list R -> M Env (list R)).

Lemma forOf_runs :
  Pushes body ->
  forall xs acc c, exists chunks rs,
    trace (forOf xs body acc c) = concat chunks /\
    value (forOf xs body acc c) = acc ++ rs /\
    Runs body xs chunks rs.
Proof.
  intros Hp xs. induction xs as [|x xs IH]; intros acc c.
  - exists [], []. cbn. rewrite app_nil_r. repeat split. constructor.
  - cbn [forOf]. rewrite trace_bind, value_bind.
    destruct (Hp x acc c) as [r Hr]. rewrite Hr.
    destruct (IH (acc ++ [r]) (final (body x acc c))) as (chunks & rs & Ht & Hv & HR).
    exists (trace (body x acc c) :: chunks), (r :: rs).
    rewrite Ht, Hv, <- app_assoc. repeat split.
    constructor; assumption.
Qed.

Lemma Runs_length xs chunks rs :
  Runs body xs chunks rs -> length rs = length xs /\ length chunks = length xs.
Proof. induction 1; cbn; intuition congruence. Qed.

(** What holds of every iteration holds of each item with its events
    and its result. *)
Lemma Runs_each (P : A -> list Event -> R -> Prop) :
  (forall x acc c r, value (body x acc c) = acc ++ [r] -> P x (trace (body x acc c)) r) ->
  forall xs chunks rs, Runs body xs chunks rs ->
    Forall2 (fun x cr => P x (fst cr) (snd cr)) xs (combine chunks rs).
Proof.
  intros HP xs chunks rs HR. induction HR; cbn; constructor; auto.
  cbn. apply HP. assumption.
Qed.

Lemma Runs_results (P : A -> R -> Prop) :
  (forall x acc c r, value (body x acc c) = acc ++ [r] -> P x r) ->
  forall xs chunks rs, Runs body xs chunks rs -> Forall2 P xs rs.
Proof. intros HP xs chunks rs HR. induction HR; constructor; eauto. Qed.

Lemma Runs_chunks (Q : A -> list Event -> Prop) :
  (forall x acc c, Q x (trace (body x acc c))) ->
  forall xs chunks rs, Runs body xs chunks rs -> Forall2 Q xs chunks.
Proof. intros HQ xs chunks rs HR. induction HR; constructor; auto. Qed.

Lemma Runs_events (P : Event -> Prop) :
  (forall x acc c, Forall P (trace (body x acc c))) ->
  forall xs chunks rs, Runs body xs chunks rs -> Forall P (concat chunks).
Proof.
  intros HP xs chunks rs HR. induction HR; cbn.
  - constructor.
  - apply Forall_app. split; auto.
Qed.
End LoopFacts.

Lemma Forall2_map_eq {A B C} (f : A -> C) (g : B -> C) xs ys :
  Forall2 (fun x y => g y = f x) xs ys -> map g ys = map f xs.
Proof. induction 1; cbn; congruence. Qed.

(** Where an event sits when a list is cut in two ways. *)
Lemma cut_twice {A} (pre post l1 l2 : list A) (a b : A) :
  pre ++ a :: post = l1 ++ b :: l2 ->
  In a l1 \/ (a = b /\ pre = l1) \/ In b pre.
Proof.
  revert l1. induction pre as [|p pre IH]; intros [|x l1] E; cbn in E.
  - inversion E. auto.
  - inversion E. left. left. reflexivity.
  - inversion E. right. right. left. reflexivity.
  - inversion E as [[E1 E2]]. destruct (IH _ E2) as [Hi | [[Ha Hb] | Hi]].
    + left. right. assumption.
    + right. left. subst. auto.
    + right. right. right. assumption.
Qed.

(* ===================================================================== *)
(** ** Facts about traces *)
(* ===================================================================== *)

Lemma deniedPaths_app show t1 t2 :
  deniedPaths show (t1 ++ t2) = deniedPaths show t1 ++ deniedPaths show t2.
Proof. unfold deniedPaths. apply flat_map_app. Qed.

Lemma deniedPaths_none show tr :
  deniedPaths show tr = [] ->
  forall p b, In (EvValidateAccess p b) tr -> b = true.
Proof.
  induction tr as [|e tr IH]; cbn; intros E p b Hin; [contradiction|].
  apply app_eq_nil in E. destruct E as [E1 E2].
  destruct Hin as [-> | Hin]; [|eauto].
  destruct b; [reflexivity | discriminate].
Qed.

Lemma deniedPaths_In show tr p :
  In (EvValidateAccess p false) tr -> In (show p) (deniedPaths show tr).
Proof.
  intros Hin. unfold deniedPaths. apply in_flat_map.
  exists (EvValidateAccess p false). cbn. auto.
Qed.

Lemma check_of_validate tr :
  Forall (fun e => isValidate e = true) tr -> Forall (fun e => isCheck e = true) tr.
Proof. apply Forall_impl. intros [] E; cbn in *; congruence. Qed.

Lemma quiet_of_check tr :
  Forall (fun e => isCheck e = true) tr -> Forall (fun e => quiet e = true) tr.
Proof. apply Forall_impl. intros [] E; cbn in *; congruence. Qed.

Lemma check_not_approval e : isCheck e = true -> isApproval e = false.
Proof. destruct e; cbn; congruence. Qed.

Lemma check_not_operation e : isCheck e = true -> isOperation e = false.
Proof. destruct e; cbn; congruence. Qed.

Lemma check_not_push e : isCheck e = true -> isPush e = false.
Proof. destruct e; cbn; congruence. Qed.

Section ShapeFacts.
Variable Mid : list Event -> Prop.
Hypothesis Mid_asks_no_more :
  forall mid, Mid mid -> Forall (fun e => isApproval e = false) mid.

(** A denied request is the last event of the run. *)
Lemma Shape_denied tr content :
  Shape Mid tr -> In (EvAskApproval content false) tr ->
  exists pre, tr = pre ++ [EvAskApproval content false] /\
              Forall (fun e => isCheck e = true) pre.
Proof.
  intros [Hq | [(pre & ct & -> & Hpre) | (pre & ct & mid & -> & Hpre & Hmid)]] Hin.
  - rewrite Forall_forall in Hq. apply Hq in Hin. discriminate.
  - apply in_app_or in Hin. destruct Hin as [Hin | [E | []]].
    + rewrite Forall_forall in Hpre. apply Hpre in Hin. discriminate.
    + inversion E; subst. eauto.
  - apply in_app_or in Hin. destruct Hin as [Hin | [E | Hin]].
    + rewrite Forall_forall in Hpre. apply Hpre in Hin. discriminate.
    + discriminate.
    + apply Mid_asks_no_more in Hmid. rewrite Forall_forall in Hmid.
      apply Hmid in Hin. discriminate.
Qed.

(** An approved request is followed by the execution described by
    [Mid]. *)
Lemma Shape_approved tr content :
  Shape Mid tr -> In (EvAskApproval content true) tr ->
  exists pre mid, tr = pre ++ EvAskApproval content true :: mid /\
                  Forall (fun e => isCheck e = true) pre /\ Mid mid.
Proof.
  intros [Hq | [(pre & ct & -> & Hpre) | (pre & ct & mid & -> & Hpre & Hmid)]] Hin.
  - rewrite Forall_forall in Hq. apply Hq in Hin. discriminate.
  - apply in_app_or in Hin. destruct Hin as [Hin | [E | []]].
    + rewrite Forall_forall in Hpre. apply Hpre in Hin. discriminate.
    + discriminate.
  - apply in_app_or in Hin. destruct Hin as [Hin | [E | Hin]].
    + rewrite Forall_forall in Hpre. apply Hpre in Hin. discriminate.
    + inversion E; subst. eauto.
    + apply Mid_asks_no_more in Hmid. rewrite Forall_forall in Hmid.
      apply Hmid in Hin. discriminate.
Qed.
End ShapeFacts.

Ltac quiet_list := repeat constructor.

(* ===================================================================== *)
(** ** Facts about deleteItemsTool *)
(* ===================================================================== *)

Section DeleteFacts.
Import DeleteItems.
Context (L : Imports) {Env : Type} (H : Host Env).

(** One iteration of the deletion loop: one driver call, then the
    error collaborator unless the driver reported an absence. *)
Lemma deleteItem_run relPath acc c :
  exists out,
    trace (deleteItem L H relPath acc c) =
      EvFsDelete (path_resolve L (cwd H) relPath) true false out ::
      match out with
      | Fulfilled _ => []
      | Rejected err =>
          if isFileNotFound err then []
          else [EvConsole "error"
                  ("Error deleting " ^^ relPath ^^ ": " ^^ orElse (message err) "Unknown error");
                EvHandleError ("deleting " ^^ relPath) err]
      end /\
    value (deleteItem L H relPath acc c) =
      acc ++ [match out with
              | Fulfilled _ => mkResult relPath st_success None
              | Rejected err =>
                  mkResult relPath st_error
                    (Some (if isFileNotFound err then "File or directory not found."
                           else orElse (message err) "Unknown error"))
              end].
Proof.
  exists (fst (fs_delete H (path_resolve L (cwd H) relPath) true false (env c))).
  unfold deleteItem. run.
  destruct (fst (fs_delete H (path_resolve L (cwd H) relPath) true false (env c))) as [u|err].
  - run. auto.
  - destruct (isFileNotFound err); run; auto.
Qed.

Lemma deleteItem_pushes : Pushes (deleteItem L H).
Proof.
  intros x acc c. destruct (deleteItem_run x acc c) as (out & _ & Hv). eauto.
Qed.

Lemma checkItem_run x st c :
  trace (checkItem L H x st c) = trace (validateAccess H x c) /\
  Forall (fun e => isValidate e = true) (trace (validateAccess H x c)) /\
  snd (value (checkItem L H x st c)) =
    snd st ++ deniedPaths (getReadablePath L (cwd H)) (trace (validateAccess H x c)).
Proof.
  destruct st as [pfa dis]. unfold checkItem. run. rewrite app_nil_r.
  split; [reflexivity|].
  destruct (trace_validateAccess H x c) as [E | (_ & E & Ev)].
  - rewrite E. split; [repeat constructor|].
    destruct (value (validateAccess H x c)); cbn; rewrite ?app_nil_r; reflexivity.
  - rewrite E, Ev. cbn. rewrite app_nil_r. auto.
Qed.

(** The policy loop asks once per path and collects the refusals. *)
Lemma delete_checks xs st c :
  Forall (fun e => isValidate e = true) (trace (forOf xs (checkItem L H) st c)) /\
  snd (value (forOf xs (checkItem L H) st c)) =
    snd st ++ deniedPaths (getReadablePath L (cwd H)) (trace (forOf xs (checkItem L H) st c)).
Proof.
  revert st c. induction xs as [|x xs IH]; intros st c.
  - cbn. rewrite app_nil_r. auto.
  - cbn [forOf]. rewrite trace_bind, value_bind.
    destruct (IH (value (checkItem L H x st c)) (final (checkItem L H x st c))) as [IH1 IH2].
    destruct (checkItem_run x st c) as (Et & Ef & Ev).
    rewrite IH2, Ev, deniedPaths_app, Et, <- app_assoc. split; [|reflexivity].
    apply Forall_app. auto.
Qed.

Lemma delete_shape block c :
  Shape (DeleteMid L H (validPaths (paths (params block))))
        (trace (deleteItemsTool L H block c)).
Proof.
  unfold deleteItemsTool.
  destruct (missingArray (paths (params block))).
  { left. run. quiet_list. }
  destruct (length (validPaths (paths (params block))) =? 0)%nat.
  { left. run. quiet_list. }
  rewrite trace_bind.
  set (chk := forOf _ _ _ c).
  destruct (delete_checks (validPaths (paths (params block))) ([], []) c) as [Hc Hd].
  fold chk in Hc, Hd.
  destruct (value chk) as [pfa dis] eqn:Echk.
  destruct (0 <? length dis)%nat.
  { left. run. apply Forall_app. split.
    - apply quiet_of_check, check_of_validate, Hc.
    - quiet_list. }
  destruct (partial block).
  { left. run. apply Forall_app. split.
    - apply quiet_of_check, check_of_validate, Hc.
    - quiet_list. }
  run.
  set (c1 := final (resetMistakes (final chk))).
  destruct (value (doAskApproval H _ c1)) eqn:Eans; cbn [negb].
  - right. right.
    destruct (forOf_runs _ deleteItem_pushes (validPaths (paths (params block))) []
                (final (doAskApproval H (approvalContent L (validPaths (paths (params block))) pfa) c1)))
      as (chunks & rs & Ht & Hv & HR).
    cbn [app] in Hv.
    exists (trace chk), (approvalContent L (validPaths (paths (params block))) pfa),
      (concat chunks ++
         [EvSay "text" (summary (snd (fst (formatResults rs))) (snd (formatResults rs)));
          EvPushToolResult (fst (fst (formatResults rs)))]).
    split; [|split].
    + f_equal. f_equal. rewrite trace_bind, Hv, Ht.
      destruct (formatResults rs) as [[xml sc] ec]. run. reflexivity.
    + apply check_of_validate, Hc.
    + exists chunks, rs. auto.
  - right. left. exists (trace chk), (approvalContent L (validPaths (paths (params block))) pfa).
    run. split; [reflexivity|]. apply check_of_validate, Hc.
Qed.
End DeleteFacts.

(* ===================================================================== *)
(** ** Facts about createDirectoriesTool *)
(* ===================================================================== *)

Section CreateFacts.
Import CreateDirectories.
Context (L : Imports) {Env : Type} (H : Host Env).

Lemma createItem_run relDirPath acc c :
  exists out,
    trace (createItem L H relDirPath acc c) =
      EvFsCreateDirectory (path_resolve L (cwd H) relDirPath) out ::
      match out with
      | Fulfilled _ => []
      | Rejected err =>
          [EvConsole "error"
             ("Error creating directory " ^^ relDirPath ^^ ": "
                ^^ orElse (message err) "Unknown error");
           EvHandleError ("creating directory " ^^ relDirPath) err]
      end /\
    value (createItem L H relDirPath acc c) =
      acc ++ [match out with
              | Fulfilled _ => mkResult relDirPath st_success None
              | Rejected err =>
                  mkResult relDirPath st_error (Some (orElse (message err) "Unknown error"))
              end].
Proof.
  exists (fst (fs_createDirectory H (path_resolve L (cwd H) relDirPath) (env c))).
  unfold createItem. run.
  destruct (fst (fs_createDirectory H (path_resolve L (cwd H) relDirPath) (env c)));
    run; auto.
Qed.

Lemma createItem_pushes : Pushes (createItem L H).
Proof.
  intros x acc c. destruct (createItem_run x acc c) as (out & _ & Hv). eauto.
Qed.

Lemma create_shape block c :
  Shape (CreateMid L H (validPaths (paths (params block))))
        (trace (createDirectoriesTool L H block c)).
Proof.
  unfold createDirectoriesTool.
  destruct (missingArray (paths (params block))).
  { left. run. quiet_list. }
  destruct (length (validPaths (paths (params block))) =? 0)%nat.
  { left. run. quiet_list. }
  destruct (partial block).
  { left. run. quiet_list. }
  run.
  set (c1 := final (resetMistakes c)).
  set (content := approvalContent L H (validPaths (paths (params block)))).
  destruct (value (doAskApproval H content c1)) eqn:Eans; cbn [negb].
  - right. right.
    destruct (forOf_runs _ createItem_pushes (validPaths (paths (params block))) []
                (final (doAskApproval H content c1)))
      as (chunks & rs & Ht & Hv & HR).
    cbn [app] in Hv.
    exists [], content,
      (concat chunks ++
         [EvSay "text" (summary (snd (fst (formatResults rs))) (snd (formatResults rs)));
          EvPushToolResult (fst (fst (formatResults rs)))]).
    split; [|split].
    + cbn [app]. f_equal. rewrite trace_bind, Hv, Ht.
      destruct (formatResults rs) as [[xml sc] ec]. run. reflexivity.
    + constructor.
    + exists chunks, rs. auto.
  - right. left. exists [], content. run. split; [reflexivity | constructor].
Qed.
End CreateFacts.

(* ===================================================================== *)
(** ** Facts about writeFilesTool *)
(* ===================================================================== *)

Section WriteFacts.
Import WriteFiles.
Context (L : Imports) {Env : Type} (H : Host Env).

(** The [try] block of the writing loop: an optional directory
    creation, then the write unless the creation failed. *)
Lemma writeOne_run item c :
  let absolutePath := path_resolve L (cwd H) (path item) in
  let dir := path_dirname L absolutePath in
  (exists out,
      trace (writeOne L H item c) = [EvFsWriteFile absolutePath (encode (content item)) out] /\
      value (writeOne L H item c) = out)
  \/ (exists u out,
      trace (writeOne L H item c) =
        [EvFsCreateDirectory dir (Fulfilled u);
         EvFsWriteFile absolutePath (encode (content item)) out] /\
      value (writeOne L H item c) = out)
  \/ (exists e,
      trace (writeOne L H item c) = [EvFsCreateDirectory dir (Rejected e)] /\
      value (writeOne L H item c) = Rejected e).
Proof.
  cbn zeta. unfold writeOne.
  set (absolutePath := path_resolve L (cwd H) (path item)).
  set (dir := path_dirname L absolutePath).
  destruct (negb (dir =? absolutePath)%string && negb (dir =? cwd H)%string
            && negb (dir =? ".")%string).
  - run.
    destruct (fst (fs_createDirectory H dir (env c))) as [u|e].
    + right. left. run. eauto.
    + right. right. eauto.
  - left. run. eauto.
Qed.

Lemma writeItem_run item acc c :
  trace (writeItem L H item acc c) =
    trace (writeOne L H item c) ++
    match value (writeOne L H item c) with
    | Fulfilled _ => []
    | Rejected err =>
        [EvConsole "error"
           ("Error writing file " ^^ path item ^^ ": " ^^ orElse (message err) "Unknown error");
         EvHandleError ("writing file " ^^ path item) err]
    end /\
  value (writeItem L H item acc c) =
    acc ++ [match value (writeOne L H item c) with
            | Fulfilled _ => mkResult (path item) st_success None
            | Rejected err =>
                mkResult (path item) st_error (Some (orElse (message err) "Unknown error"))
            end].
Proof.
  unfold writeItem. run.
  destruct (value (writeOne L H item c)); run; auto.
Qed.

Lemma writeItem_pushes : Pushes (writeItem L H).
Proof.
  intros x acc c. destruct (writeItem_run x acc c) as (_ & Hv). eauto.
Qed.

Lemma write_checkItem_run x st c :
  trace (checkItem L H x st c) = trace (validateAccess H (path x) c) /\
  Forall (fun e => isValidate e = true) (trace (validateAccess H (path x) c)) /\
  snd (value (checkItem L H x st c)) =
    snd st ++ deniedPaths (fun p => p) (trace (validateAccess H (path x) c)).
Proof.
  destruct st as [pfa dis]. unfold checkItem. run. rewrite app_nil_r.
  split; [reflexivity|].
  destruct (trace_validateAccess H (path x) c) as [E | (_ & E & Ev)].
  - rewrite E. split; [repeat constructor|].
    destruct (value (validateAccess H (path x) c)); cbn; rewrite ?app_nil_r; reflexivity.
  - rewrite E, Ev. cbn. rewrite app_nil_r. auto.
Qed.

Lemma write_checks xs st c :
  Forall (fun e => isValidate e = true) (trace (forOf xs (checkItem L H) st c)) /\
  snd (value (forOf xs (checkItem L H) st c)) =
    snd st ++ deniedPaths (fun p => p) (trace (forOf xs (checkItem L H) st c)).
Proof.
  revert st c. induction xs as [|x xs IH]; intros st c.
  - cbn. rewrite app_nil_r. auto.
  - cbn [forOf]. rewrite trace_bind, value_bind.
    destruct (IH (value (checkItem L H x st c)) (final (checkItem L H x st c))) as [IH1 IH2].
    destruct (write_checkItem_run x st c) as (Et & Ef & Ev).
    rewrite IH2, Ev, deniedPaths_app, Et, <- app_assoc. split; [|reflexivity].
    apply Forall_app. auto.
Qed.

Lemma fileStatuses_checks xs c :
  Forall (fun e => isCheck e = true) (trace (mapM (fileStatus L H) xs c)).
Proof.
  revert c. induction xs as [|x xs IH]; intros c.
  - constructor.
  - cbn [mapM]. run. unfold fileStatus at 1. run. constructor; [reflexivity|].
    rewrite app_nil_r. apply IH.
Qed.

Lemma processItems_shape block its c :
  Shape (WriteMid L H its) (trace (processItems L H block its c)).
Proof.
  unfold processItems. rewrite trace_bind.
  set (chk := forOf _ _ _ c).
  destruct (write_checks its ([], []) c) as [Hc Hd].
  fold chk in Hc, Hd.
  destruct (value chk) as [pfa dis] eqn:Echk.
  destruct (0 <? length dis)%nat.
  { left. run. apply Forall_app. split.
    - apply quiet_of_check, check_of_validate, Hc.
    - quiet_list. }
  rewrite trace_bind.
  set (sts := mapM _ _ (final chk)).
  pose proof (fileStatuses_checks its (final chk)) as Hs. fold sts in Hs.
  destruct (partial block).
  { left. run. apply Forall_app. split.
    - apply quiet_of_check, check_of_validate, Hc.
    - apply Forall_app. split; [apply quiet_of_check, Hs | quiet_list]. }
  run.
  set (c1 := final (resetMistakes (final sts))).
  set (content := approvalContent L pfa (value sts)).
  assert (Hpre : Forall (fun e => isCheck e = true) (trace chk ++ trace sts)).
  { apply Forall_app. split; [apply check_of_validate, Hc | exact Hs]. }
  destruct (value (doAskApproval H content c1)) eqn:Eans; cbn [negb].
  - right. right.
    destruct (forOf_runs _ writeItem_pushes its [] (final (doAskApproval H content c1)))
      as (chunks & rs & Ht & Hv & HR).
    cbn [app] in Hv.
    exists (trace chk ++ trace sts), content,
      (concat chunks ++
         [EvSay "text" (summary (snd (fst (formatResults rs))) (snd (formatResults rs)));
          EvPushToolResult (fst (fst (formatResults rs)))]).
    split; [|split].
    + rewrite <- app_assoc. f_equal. f_equal. f_equal. rewrite trace_bind, Hv, Ht.
      destruct (formatResults rs) as [[xml sc] ec]. run. reflexivity.
    + exact Hpre.
    + exists chunks, rs. auto.
  - right. left. exists (trace chk ++ trace sts), content.
    run. rewrite <- app_assoc. split; [reflexivity | exact Hpre].
Qed.

Lemma write_shape block c :
  Shape (WriteBlockMid L H block) (trace (writeFilesTool L H block c)).
Proof.
  unfold writeFilesTool, WriteBlockMid, itemsToProcess.
  destruct (missingArray (items (params block))).
  { left. run. quiet_list. }
  destruct (validateFrom (arrayElems (items (params block))) 0 [] []) as [validItems errs].
  destruct (hasCombinedError errs).
  { left. run. quiet_list. }
  destruct (selectItems (arrayElems (items (params block))) errs validItems) as [its|e].
  2:{ left. run. constructor. }
  destruct ((length its =? 0)%nat && (0 <? length (arrayElems (items (params block))))%nat).
  { left. run. quiet_list. }
  run. rewrite app_nil_r.
  destruct (processItems_shape block its c)
    as [Hq | [(pre & ct & E & Hpre) | (pre & ct & mid & E & Hpre & Hmid)]].
  - left. exact Hq.
  - right. left. eauto.
  - right. right. exists pre, ct, mid. repeat split; auto. exists its. auto.
Qed.
End WriteFacts.

(* ===================================================================== *)
(** ** Facts about the execution-time guard *)
(* ===================================================================== *)

Section GuardFacts.
Context (L : Imports) {Env : Type} (H : Host Env).

Lemma guardAccess_run p c :
  (trace (guardAccess L H p c) = [EvValidateAccess p false] /\
   value (guardAccess L H p c) = Rejected (mkError None (rooIgnoreError L p)))
  \/ (trace (guardAccess L H p c) = [EvValidateAccess p true] /\
      value (guardAccess L H p c) = Fulfilled tt)
  \/ (rooIgnoreController H = None /\ trace (guardAccess L H p c) = [] /\
      value (guardAccess L H p c) = Fulfilled tt).
Proof.
  unfold guardAccess. run.
  destruct (trace_validateAccess H p c) as [E | (Hn & E & Ev)].
  - rewrite E. destruct (value (validateAccess H p c)); cbn; auto.
  - rewrite E, Ev. cbn. auto.
Qed.

Lemma GuardedRun_quiet p a chunk :
  GuardedRun H p a chunk -> Forall (fun e => isApproval e = false) chunk.
Proof.
  assert (Hon : forall e, onPath a e = true -> isApproval e = false).
  { intros []; cbn; congruence. }
  intros [(tl & -> & Htl) | (guard & first & tl & -> & Hg & _ & Htl)].
  - constructor; [reflexivity|]. eapply Forall_impl; [|exact Htl].
    intros e [_ He]. auto.
  - apply Forall_app. split.
    + destruct Hg as [-> | [-> _]]; repeat constructor.
    + eapply Forall_impl; [|exact Htl]. auto.
Qed.
End GuardFacts.

Ltac on_path :=
  repeat constructor; cbn; rewrite ?String.eqb_refl; auto.

(* ===================================================================== *)
(** ** Facts about listDirectoriesTool *)
(* ===================================================================== *)

Section ListFacts.
Import ListDirectories.
Context (L : Imports) {Env : Type} (H : Host Env).

Lemma listContent_run rf sh p c :
  exists out tl,
    trace (listContent L H rf sh p c) =
      EvListFiles (path_resolve L (cwd H) p) rf 200 out :: tl /\
    Forall (fun e => onPath (path_resolve L (cwd H) p) e = true) tl /\
    (forall r, value (listContent L H rf sh p c) = Fulfilled r -> path r = p).
Proof.
  unfold listContent. run.
  destruct (fst (listFiles H (path_resolve L (cwd H) p) rf 200 (env c))) as [[files hit]|e].
  - run.
    match goal with |- context [fst (formatFilesList ?h ?a ?f ?l ?s ?e)] =>
      destruct (fst (formatFilesList h a f l s e)) end; run.
    + eexists _, _. split; [reflexivity|]. split; [on_path|].
      intros r E. inversion E. reflexivity.
    + eexists _, _. split; [reflexivity|]. split; [on_path | discriminate].
  - eexists _, _. split; [reflexivity|]. split; [constructor | discriminate].
Qed.

Lemma listItem_run rf sh p acc c :
  exists r,
    value (listItem L H rf sh p acc c) = acc ++ [r] /\ path r = p /\
    GuardedRun H p (path_resolve L (cwd H) p) (trace (listItem L H rf sh p acc c)).
Proof.
  unfold listItem, listOne. run.
  destruct (guardAccess_run L H p c) as [[Et Ev] | [[Et Ev] | (Hn & Et & Ev)]];
    rewrite Et, Ev.
  - run. eexists. split; [reflexivity|]. split; [reflexivity|].
    left. eexists. split; [reflexivity|]. repeat constructor.
  - destruct (listContent_run rf sh p (final (guardAccess L H p c)))
      as (out & tl & Etr & Htl & Hpath).
    rewrite Etr.
    destruct (value (listContent L H rf sh p (final (guardAccess L H p c)))) as [r|e].
    + run. exists r. split; [reflexivity|]. split; [auto|].
      right. exists [EvValidateAccess p true], (EvListFiles (path_resolve L (cwd H) p) rf 200 out), tl.
      rewrite app_nil_r. repeat split; auto.
      constructor; [cbn; apply String.eqb_refl | exact Htl].
    + run. eexists. split; [reflexivity|]. split; [reflexivity|].
      right. exists [EvValidateAccess p true], (EvListFiles (path_resolve L (cwd H) p) rf 200 out),
        (tl ++ [EvConsole "error" ("Error listing directory " ^^ path_resolve L (cwd H) p ^^ ":");
                EvHandleError ("listing directory " ^^ p) e]).
      repeat split; auto.
      constructor; [cbn; apply String.eqb_refl|].
      apply Forall_app. split; [exact Htl | on_path].
  - destruct (listContent_run rf sh p (final (guardAccess L H p c)))
      as (out & tl & Etr & Htl & Hpath).
    rewrite Etr.
    destruct (value (listContent L H rf sh p (final (guardAccess L H p c)))) as [r|e].
    + run. exists r. split; [reflexivity|]. split; [auto|].
      right. exists [], (EvListFiles (path_resolve L (cwd H) p) rf 200 out), tl.
      rewrite app_nil_r. repeat split; auto.
      constructor; [cbn; apply String.eqb_refl | exact Htl].
    + run. eexists. split; [reflexivity|]. split; [reflexivity|].
      right. exists [], (EvListFiles (path_resolve L (cwd H) p) rf 200 out),
        (tl ++ [EvConsole "error" ("Error listing directory " ^^ path_resolve L (cwd H) p ^^ ":");
                EvHandleError ("listing directory " ^^ p) e]).
      repeat split; auto.
      constructor; [cbn; apply String.eqb_refl|].
      apply Forall_app. split; [exact Htl | on_path].
Qed.

Lemma listItem_pushes rf sh : Pushes (listItem L H rf sh).
Proof.
  intros x acc c. destruct (listItem_run rf sh x acc c) as (r & Hv & _). eauto.
Qed.

Lemma list_approvalPath_run x c :
  trace (approvalPath L H x c) = trace (validateAccess H x c) /\
  value (approvalPath L H x c) =
    mkApprovalPath (getReadablePath L (cwd H) x)
      (Runtime.isPathOutsideWorkspace L (path_resolve L (cwd H) x))
      (value (validateAccess H x c)).
Proof. unfold approvalPath. run. rewrite app_nil_r. auto. Qed.

Lemma list_checks xs c :
  Forall (fun e => isValidate e = true) (trace (mapM (approvalPath L H) xs c)) /\
  map ap_path (filter (fun p => negb (accessAllowed p)) (value (mapM (approvalPath L H) xs c))) =
    deniedPaths (getReadablePath L (cwd H)) (trace (mapM (approvalPath L H) xs c)).
Proof.
  revert c. induction xs as [|x xs IH]; intros c.
  - cbn. auto.
  - cbn [mapM]. run. rewrite app_nil_r, deniedPaths_app.
    destruct (IH (final (approvalPath L H x c))) as [IH1 IH2].
    destruct (list_approvalPath_run x c) as [Et Ev]. rewrite Et, Ev.
    cbn [filter accessAllowed].
    destruct (trace_validateAccess H x c) as [E | (_ & E & Ea)].
    + rewrite E. split; [constructor; [reflexivity | exact IH1]|].
      destruct (value (validateAccess H x c)); cbn; rewrite IH2; reflexivity.
    + rewrite E, Ea. cbn. auto.
Qed.

Lemma list_shape block c :
  Shape (ListMid L H (validPaths (paths (params block))))
        (trace (listDirectoriesTool L H block c)).
Proof.
  unfold listDirectoriesTool.
  destruct (missingArray (paths (params block))).
  { left. run. quiet_list. }
  destruct (length (validPaths (paths (params block))) =? 0)%nat.
  { left. run. quiet_list. }
  rewrite trace_bind.
  set (chk := mapM _ _ c).
  destruct (list_checks (validPaths (paths (params block))) c) as [Hc Hd].
  fold chk in Hc, Hd.
  destruct (0 <? length _)%nat.
  { left. run. apply Forall_app. split.
    - apply quiet_of_check, check_of_validate, Hc.
    - quiet_list. }
  destruct (partial block).
  { left. run. apply Forall_app. split.
    - apply quiet_of_check, check_of_validate, Hc.
    - quiet_list. }
  run.
  set (c1 := final (resetMistakes (final chk))).
  match goal with |- context [doAskApproval H ?ct c1] => set (content := ct) end.
  destruct (value (doAskApproval H content c1)) eqn:Eans; cbn [negb].
  - right. right. run.
    set (c2 := final (doAskApproval H content c1)).
    match goal with |- context [forOf _ (listItem L H ?rf ?sh) [] ?c3] =>
      destruct (forOf_runs _ (listItem_pushes rf sh) (validPaths (paths (params block))) [] c3)
        as (chunks & rs & Ht & Hv & HR);
      exists (trace chk), content,
        (EvGetState (value (doGetState H c2)) :: concat chunks ++
           [EvPushToolResult (formatResults rs)]);
      split; [|split];
      [ rewrite Ht, Hv; reflexivity
      | apply check_of_validate, Hc
      | exists (value (doGetState H c2)), rf, sh, chunks, rs; auto ]
    end.
  - right. left. exists (trace chk), content.
    run. split; [reflexivity|]. apply check_of_validate, Hc.
Qed.
End ListFacts.

(* ===================================================================== *)
(** ** Facts about readFilesTool *)
(* ===================================================================== *)

Section ReadFacts.
Import ReadFiles.
Context (L : Imports) {Env : Type} (H : Host Env).

Lemma countLines_run a c :
  exists out,
    trace (countLines H a c) =
      EvCountFileLines a out ::
      match out with
      | Fulfilled _ => []
      | Rejected _ => [EvConsole "warn" ("Could not count lines for " ^^ a ^^ ":")]
      end /\
    value (countLines H a c) = match out with Fulfilled n => n | Rejected _ => 0 end.
Proof.
  exists (fst (countFileLines H a (env c))). unfold countLines. run.
  destruct (fst (countFileLines H a (env c))); run; auto.
Qed.

Lemma detectBinary_run a c :
  exists out,
    trace (detectBinary H a c) = [EvIsBinaryFile a out] /\
    value (detectBinary H a c) = match out with Fulfilled b => b | Rejected _ => false end.
Proof.
  exists (fst (isBinaryFile H a (env c))). unfold detectBinary. run.
  destruct (fst (isBinaryFile H a (env c))); run; auto.
Qed.

Lemma readHeadAndDefinitions_run a m c :
  exists head defs outlineFirst,
    trace (readHeadAndDefinitions H a m c) =
      (if m >? 0 then [EvReadLines a (Some (m - 1)) (Some 0) head] else []) ++
      [EvParseDefinitions a defs] /\
    ((m >? 0) = false -> head = Fulfilled "") /\
    value (readHeadAndDefinitions H a m c) = awaitedBoth outlineFirst head defs.
Proof.
  unfold readHeadAndDefinitions, doReadLines. rewrite trace_bind, value_bind.
  destruct (m >? 0).
  - run.
    set (o1 := fst (readLines H a _ _ _)).
    set (o2 := fst (parseSourceCodeDefinitionsForFile H a _)).
    destruct o1 as [h|e1] eqn:E1, o2 as [d|e2] eqn:E2.
    + exists (Fulfilled h), (Fulfilled d), false. run. repeat split. discriminate.
    + exists (Fulfilled h), (Rejected e2), false. run. repeat split. discriminate.
    + exists (Rejected e1), (Fulfilled d), false. run. repeat split. discriminate.
    + eexists (Rejected e1), (Rejected e2), _. run. repeat split. discriminate.
  - run.
    set (o2 := fst (parseSourceCodeDefinitionsForFile H a _)).
    exists (Fulfilled ""), o2, false. destruct o2; run; auto.
Qed.

Lemma readContent_run ir s e m p c :
  exists out tl,
    trace (readContent L H ir s e m p c) =
      EvCountFileLines (path_resolve L (cwd H) p) out :: tl /\
    Forall (fun ev => onPath (path_resolve L (cwd H) p) ev = true) tl /\
    (forall r, value (readContent L H ir s e m p c) = Fulfilled r -> path r = p).
Proof.
  unfold readContent. rewrite trace_bind, value_bind.
  set (a := path_resolve L (cwd H) p).
  destruct (countLines_run a c) as (out & Etc & Evc). rewrite Etc, Evc.
  set (c1 := final (countLines H a c)).
  rewrite trace_bind, value_bind.
  destruct (detectBinary_run a c1) as (outb & Etb & Evb). rewrite Etb, Evb.
  set (c2 := final (detectBinary H a c1)).
  set (n := match out with Fulfilled n => n | Rejected _ => 0 end).
  set (b := match outb with Fulfilled b => b | Rejected _ => false end).
  exists out. eexists. split; [cbn [app]; reflexivity|].
  assert (Hpre : forall rest,
            Forall (fun ev => onPath a ev = true) rest ->
            Forall (fun ev => onPath a ev = true)
              (match out with
               | Fulfilled _ => []
               | Rejected _ => [EvConsole "warn" ("Could not count lines for " ^^ a ^^ ":")]
               end ++ EvIsBinaryFile a outb :: rest)).
  { intros rest Hrest. apply Forall_app. split; [destruct out; on_path|].
    constructor; [cbn; apply String.eqb_refl | exact Hrest]. }
  destruct ir.
  - unfold doReadLines. run.
    destruct (fst (readLines H a e s (env c2))); run.
    + split; [apply Hpre; on_path | intros r E; inversion E; reflexivity].
    + split; [apply Hpre; on_path | discriminate].
  - destruct (negb b && (m >=? 0) && (n >? m)).
    + rewrite trace_andThen, value_andThen.
      destruct (readHeadAndDefinitions_run a m c2) as (head & defs & first & Eth & _ & Evh).
      rewrite Eth, Evh.
      split.
      * apply Hpre. apply Forall_app. split.
        { apply Forall_app. split; [destruct (m >? 0); on_path | on_path]. }
        destruct head as [h|], defs as [d|]; (cbn [awaitedBoth]; run; constructor).
      * destruct head as [h|], defs as [d|]; (cbn [awaitedBoth]; run; try discriminate).
        intros r E. inversion E. reflexivity.
    + run.
      destruct (fst (extractTextFromFile H a (env c2))); run.
      * split; [apply Hpre; on_path | intros r E; inversion E; reflexivity].
      * split; [apply Hpre; on_path | discriminate].
Qed.

Lemma readItem_run ir s e m p acc c :
  exists r,
    value (readItem L H ir s e m p acc c) = acc ++ [r] /\ path r = p /\
    GuardedRun H p (path_resolve L (cwd H) p) (trace (readItem L H ir s e m p acc c)).
Proof.
  unfold readItem, readOne. run.
  set (a := path_resolve L (cwd H) p).
  destruct (guardAccess_run L H p c) as [[Et Ev] | [[Et Ev] | (Hn & Et & Ev)]];
    rewrite Et, Ev.
  - run. eexists. split; [reflexivity|]. split; [reflexivity|].
    left. eexists. split; [reflexivity|]. repeat constructor.
  - destruct (readContent_run ir s e m p (final (guardAccess L H p c)))
      as (out & tl & Etr & Htl & Hpath).
    fold a in Etr, Htl. rewrite Etr.
    destruct (value (readContent L H ir s e m p (final (guardAccess L H p c)))) as [r|err].
    + run. exists r. split; [reflexivity|]. split; [auto|].
      right. exists [EvValidateAccess p true], (EvCountFileLines a out), tl.
      rewrite app_nil_r. repeat split; auto.
      constructor; [cbn; apply String.eqb_refl | exact Htl].
    + run. eexists. split; [reflexivity|]. split; [reflexivity|].
      right. exists [EvValidateAccess p true], (EvCountFileLines a out),
        (tl ++ [EvConsole "error" ("Error reading file " ^^ a ^^ ":")]).
      repeat split; auto.
      constructor; [cbn; apply String.eqb_refl|].
      apply Forall_app. split; [exact Htl | on_path].
  - destruct (readContent_run ir s e m p (final (guardAccess L H p c)))
      as (out & tl & Etr & Htl & Hpath).
    fold a in Etr, Htl. rewrite Etr.
    destruct (value (readContent L H ir s e m p (final (guardAccess L H p c)))) as [r|err].
    + run. exists r. split; [reflexivity|]. split; [auto|].
      right. exists [], (EvCountFileLines a out), tl.
      rewrite app_nil_r. repeat split; auto.
      constructor; [cbn; apply String.eqb_refl | exact Htl].
    + run. eexists. split; [reflexivity|]. split; [reflexivity|].
      right. exists [], (EvCountFileLines a out),
        (tl ++ [EvConsole "error" ("Error reading file " ^^ a ^^ ":")]).
      repeat split; auto.
      constructor; [cbn; apply String.eqb_refl|].
      apply Forall_app. split; [exact Htl | on_path].
Qed.

Lemma readItem_pushes ir s e m : Pushes (readItem L H ir s e m).
Proof.
  intros x acc c. destruct (readItem_run ir s e m x acc c) as (r & Hv & _). eauto.
Qed.

Lemma read_approvalPath_run x c :
  trace (approvalPath L H x c) = trace (validateAccess H x c) /\
  value (approvalPath L H x c) =
    mkApprovalPath (getReadablePath L (cwd H) x)
      (Runtime.isPathOutsideWorkspace L (path_resolve L (cwd H) x))
      (value (validateAccess H x c)).
Proof. unfold approvalPath. run. rewrite app_nil_r. auto. Qed.

Lemma read_checks xs c :
  Forall (fun e => isValidate e = true) (trace (mapM (approvalPath L H) xs c)) /\
  map ap_path (filter (fun p => negb (accessAllowed p)) (value (mapM (approvalPath L H) xs c))) =
    deniedPaths (getReadablePath L (cwd H)) (trace (mapM (approvalPath L H) xs c)).
Proof.
  revert c. induction xs as [|x xs IH]; intros c.
  - cbn. auto.
  - cbn [mapM]. run. rewrite app_nil_r, deniedPaths_app.
    destruct (IH (final (approvalPath L H x c))) as [IH1 IH2].
    destruct (read_approvalPath_run x c) as [Et Ev]. rewrite Et, Ev.
    cbn [filter accessAllowed].
    destruct (trace_validateAccess H x c) as [E | (_ & E & Ea)].
    + rewrite E. split; [constructor; [reflexivity | exact IH1]|].
      destruct (value (validateAccess H x c)); cbn; rewrite IH2; reflexivity.
    + rewrite E, Ea. cbn. auto.
Qed.

Lemma read_shape block c :
  Shape (ReadMid L H block) (trace (readFilesTool L H block c)).
Proof.
  unfold readFilesTool, ReadMid.
  destruct (missingArray (paths (params block))).
  { left. run. quiet_list. }
  destruct (length (validPaths (paths (params block))) =? 0)%nat.
  { left. run. quiet_list. }
  destruct (parseLine (start_line (params block))) as [startLine|].
  2:{ left. run. quiet_list. }
  destruct (parseLine (end_line (params block))) as [endLine|].
  2:{ left. run. quiet_list. }
  destruct (rangeInverted startLine endLine).
  { left. run. quiet_list. }
  rewrite trace_bind, trace_doGetState. cbn [app].
  set (st := value (doGetState H c)).
  set (c0 := final (doGetState H c)).
  set (m := match st with
            | Some ps => match Runtime.maxReadFileLine ps with Some m => m | None => 500 end
            | None => 500
            end).
  rewrite trace_bind.
  set (chk := mapM _ _ c0).
  destruct (read_checks (validPaths (paths (params block))) c0) as [Hc Hd].
  fold chk in Hc, Hd.
  assert (Hpre : Forall (fun e => isCheck e = true) (EvGetState st :: trace chk)).
  { constructor; [reflexivity | apply check_of_validate, Hc]. }
  destruct (0 <? length _)%nat.
  { left. run. apply quiet_of_check in Hpre. rewrite app_comm_cons.
    apply Forall_app. split; [exact Hpre | quiet_list]. }
  destruct (partial block).
  { left. run. apply quiet_of_check in Hpre. rewrite app_comm_cons.
    apply Forall_app. split; [exact Hpre | quiet_list]. }
  run.
  set (c1 := final (resetMistakes (final chk))).
  match goal with |- context [doAskApproval H ?ct c1] => set (content := ct) end.
  destruct (value (doAskApproval H content c1)) eqn:Eans; cbn [negb].
  - right. right. run.
    set (c2 := final (doAskApproval H content c1)).
    destruct (forOf_runs _
                (readItem_pushes
                   (truthyStr (start_line (params block)) || truthyStr (end_line (params block)))
                   startLine endLine m)
                (validPaths (paths (params block))) [] c2)
      as (chunks & rs & Ht & Hv & HR).
    exists (EvGetState st :: trace chk), content,
      (concat chunks ++ [EvPushToolResult (formatResults m rs)]).
    split; [|split].
    + rewrite Ht, Hv. reflexivity.
    + exact Hpre.
    + exists m, startLine, endLine, chunks, rs. auto.
  - right. left. exists (EvGetState st :: trace chk), content.
    run. split; [reflexivity | exact Hpre].
Qed.
End ReadFacts.

(* ===================================================================== *)
(** ** The five tools together *)
(* ===================================================================== *)

Section ToolFacts.
Context (L : Imports) {Env : Type} (H : Host Env).

Lemma runTool_shape name block c :
  Shape (ToolMid L H name block) (trace (runTool L H name block c)).
Proof.
  destruct name; cbn [runTool ToolMid].
  - apply read_shape.
  - run. rewrite app_nil_r. apply write_shape.
  - apply list_shape.
  - apply create_shape.
  - apply delete_shape.
Qed.

Lemma deleteItem_quiet x acc c :
  Forall (fun e => isApproval e = false) (trace (DeleteItems.deleteItem L H x acc c)).
Proof.
  destruct (deleteItem_run L H x acc c) as (out & -> & _).
  destruct out as [|err]; [|destruct (isFileNotFound err)]; repeat constructor.
Qed.

Lemma createItem_quiet x acc c :
  Forall (fun e => isApproval e = false) (trace (CreateDirectories.createItem L H x acc c)).
Proof.
  destruct (createItem_run L H x acc c) as (out & -> & _).
  destruct out; repeat constructor.
Qed.

Lemma writeItem_quiet x acc c :
  Forall (fun e => isApproval e = false) (trace (WriteFiles.writeItem L H x acc c)).
Proof.
  destruct (writeItem_run L H x acc c) as (-> & _).
  destruct (writeOne_run L H x c) as [(out & -> & ->) | [(u & out & -> & ->) | (e & -> & ->)]];
    try destruct out; repeat constructor.
Qed.

Lemma listItem_quiet rf sh x acc c :
  Forall (fun e => isApproval e = false) (trace (ListDirectories.listItem L H rf sh x acc c)).
Proof.
  destruct (listItem_run L H rf sh x acc c) as (r & _ & _ & Hg).
  eapply GuardedRun_quiet, Hg.
Qed.

Lemma readItem_quiet ir s e m x acc c :
  Forall (fun ev => isApproval ev = false) (trace (ReadFiles.readItem L H ir s e m x acc c)).
Proof.
  destruct (readItem_run L H ir s e m x acc c) as (r & _ & _ & Hg).
  eapply GuardedRun_quiet, Hg.
Qed.

Lemma ToolMid_asks_no_more name block mid :
  ToolMid L H name block mid -> Forall (fun e => isApproval e = false) mid.
Proof.
  destruct name; cbn [ToolMid].
  - intros (m & s & e & chunks & rs & _ & _ & HR & ->).
    apply Forall_app. split; [|repeat constructor].
    eapply Runs_events; [|exact HR]. intros; apply readItem_quiet.
  - intros (its & _ & chunks & rs & HR & ->).
    apply Forall_app. split; [|repeat constructor].
    eapply Runs_events; [|exact HR]. intros; apply writeItem_quiet.
  - intros (st & rf & sh & chunks & rs & HR & ->).
    constructor; [reflexivity|].
    apply Forall_app. split; [|repeat constructor].
    eapply Runs_events; [|exact HR]. intros; apply listItem_quiet.
  - intros (chunks & rs & HR & ->).
    apply Forall_app. split; [|repeat constructor].
    eapply Runs_events; [|exact HR]. intros; apply createItem_quiet.
  - intros (chunks & rs & HR & ->).
    apply Forall_app. split; [|repeat constructor].
    eapply Runs_events; [|exact HR]. intros; apply deleteItem_quiet.
Qed.

(** The anatomy of an approved run: checks, the approval, then one
    chunk of events per item, then the summary and the one report. *)
Lemma approved_run name block c content :
  In (EvAskApproval content true) (trace (runTool L H name block c)) ->
  exists pre lead chunks tail rep,
    trace (runTool L H name block c) =
      pre ++ EvAskApproval content true :: lead ++ concat chunks ++ tail
          ++ [EvPushToolResult (reportText rep)] /\
    Forall (fun e => isCheck e = true) pre /\
    Forall (fun e => isCheck e = true) lead /\
    Forall (fun e => isSay e = true) tail /\
    LoopOf L H name block chunks rep.
Proof.
  intros Hin.
  destruct (Shape_approved _ (ToolMid_asks_no_more name block) _ _
              (runTool_shape name block c) Hin) as (pre & mid & E & Hpre & Hmid).
  rewrite E. exists pre.
  destruct name; cbn [ToolMid] in Hmid.
  - destruct Hmid as (m & s & e & chunks & rs & Hs & He & HR & ->).
    exists [], chunks, [], (ReadReport m rs). cbn [app reportText].
    repeat split; auto. cbn. eauto.
  - destruct Hmid as (its & Hits & chunks & rs & HR & ->).
    exists [], chunks,
      [EvSay "text" (WriteFiles.summary (snd (fst (WriteFiles.formatResults rs)))
                       (snd (WriteFiles.formatResults rs)))],
      (WriteReport rs). cbn [app reportText].
    repeat split; auto. cbn. eauto.
  - destruct Hmid as (st & rf & sh & chunks & rs & HR & ->).
    exists [EvGetState st], chunks, [], (ListReport rs). cbn [app reportText].
    repeat split; auto. cbn. eauto.
  - destruct Hmid as (chunks & rs & HR & ->).
    exists [], chunks,
      [EvSay "text"
         (CreateDirectories.summary (snd (fst (CreateDirectories.formatResults rs)))
            (snd (CreateDirectories.formatResults rs)))],
      (CreateReport rs). cbn [app reportText].
    repeat split; auto.
  - destruct Hmid as (chunks & rs & HR & ->).
    exists [], chunks,
      [EvSay "text" (DeleteItems.summary (snd (fst (DeleteItems.formatResults rs)))
                       (snd (DeleteItems.formatResults rs)))],
      (DeleteReport rs). cbn [app reportText].
    repeat split; auto.
Qed.
End ToolFacts.

(* ===================================================================== *)
(** ** What the loops leave in the trace and in the report *)
(* ===================================================================== *)

Lemma filter_none {A} (f : A -> bool) l :
  Forall (fun x => f x = false) l -> filter f l = [].
Proof. induction 1 as [|x l Hx _ IH]; cbn; [|rewrite Hx]; auto. Qed.

Lemma inLoop_guarded tr :
  Forall (fun e => inLoop e = true) tr -> Forall (fun e => inGuardedLoop e = true) tr.
Proof.
  apply Forall_impl. intros e He. unfold inGuardedLoop. rewrite He. reflexivity.
Qed.

Lemma onPath_inLoop a tr :
  Forall (fun e => onPath a e = true) tr -> Forall (fun e => inLoop e = true) tr.
Proof. apply Forall_impl. intros []; cbn; congruence. Qed.

Section BodyFacts.
Context (L : Imports) {Env : Type} (H : Host Env).

Lemma deleteItem_events x acc c :
  Forall (fun e => inLoop e = true) (trace (DeleteItems.deleteItem L H x acc c)).
Proof.
  destruct (deleteItem_run L H x acc c) as (out & -> & _).
  destruct out as [|err]; [|destruct (isFileNotFound err)]; repeat constructor.
Qed.

Lemma createItem_events x acc c :
  Forall (fun e => inLoop e = true) (trace (CreateDirectories.createItem L H x acc c)).
Proof.
  destruct (createItem_run L H x acc c) as (out & -> & _).
  destruct out; repeat constructor.
Qed.

Lemma writeItem_events x acc c :
  Forall (fun e => inLoop e = true) (trace (WriteFiles.writeItem L H x acc c)).
Proof.
  destruct (writeItem_run L H x acc c) as (-> & _).
  destruct (writeOne_run L H x c) as [(out & -> & ->) | [(u & out & -> & ->) | (e & -> & ->)]];
    try destruct out; repeat constructor.
Qed.

Lemma GuardedRun_events p a chunk :
  GuardedRun H p a chunk -> Forall (fun e => inGuardedLoop e = true) chunk.
Proof.
  intros [(tl & -> & Htl) | (guard & first & tl & -> & Hg & _ & Htl)].
  - constructor; [reflexivity|]. apply inLoop_guarded.
    eapply onPath_inLoop, Forall_impl; [|exact Htl]. intros e [_ He]. exact He.
  - apply Forall_app. split.
    + destruct Hg as [-> | [-> _]]; repeat constructor.
    + eapply inLoop_guarded, onPath_inLoop, Htl.
Qed.

Lemma LoopOf_events name block chunks rep :
  LoopOf L H name block chunks rep ->
  Forall (fun e => inGuardedLoop e = true) (concat chunks).
Proof.
  destruct name, rep as [m rs|rs|rs|rs|rs]; cbn [LoopOf]; try contradiction.
  - intros (s & e & _ & _ & HR). eapply Runs_events; [|exact HR].
    intros x acc c.
    match type of HR with Runs (ReadFiles.readItem _ _ ?ir _ _ _) _ _ _ =>
      destruct (readItem_run L H ir s e m x acc c) as (r & _ & _ & Hg) end.
    eapply GuardedRun_events, Hg.
  - intros (its & _ & HR). eapply Runs_events; [|exact HR].
    intros. apply inLoop_guarded, writeItem_events.
  - intros (rf & sh & HR). eapply Runs_events; [|exact HR].
    intros x acc c. destruct (listItem_run L H rf sh x acc c) as (r & _ & _ & Hg).
    eapply GuardedRun_events, Hg.
  - intros HR. eapply Runs_events; [|exact HR].
    intros. apply inLoop_guarded, createItem_events.
  - intros HR. eapply Runs_events; [|exact HR].
    intros. apply inLoop_guarded, deleteItem_events.
Qed.

Lemma LoopOf_tool name block chunks rep :
  LoopOf L H name block chunks rep -> reportTool rep = name.
Proof. destruct name, rep; cbn; intros; auto; contradiction. Qed.

(** One row per processed item, carrying the item's path. *)
Lemma LoopOf_paths name block chunks rep :
  LoopOf L H name block chunks rep ->
  map fst (reportRows rep) = processedPaths name block.
Proof.
  destruct name, rep as [m rs|rs|rs|rs|rs];
    cbn [LoopOf reportRows processedPaths]; try contradiction;
    rewrite map_map; cbn [fst].
  - intros (s & e & _ & _ & HR).
    rewrite <- (map_id (validPaths _)). apply Forall2_map_eq.
    eapply Runs_results; [|exact HR]. intros x acc c r Hv.
    destruct (readItem_run L H
                (truthyStr (start_line (params block)) || truthyStr (end_line (params block)))
                s e m x acc c) as (r' & Hv' & Hp & _).
    rewrite Hv in Hv'. apply app_inv_head in Hv'. inversion Hv'. subst. reflexivity.
  - intros (its & -> & HR).
    apply Forall2_map_eq.
    eapply Runs_results; [|exact HR]. intros x acc c r Hv.
    destruct (writeItem_run L H x acc c) as (_ & Hv').
    rewrite Hv in Hv'. apply app_inv_head in Hv'. inversion Hv' as [Hr].
    destruct (value (WriteFiles.writeOne L H x c)); reflexivity.
  - intros (rf & sh & HR).
    rewrite <- (map_id (validPaths _)). apply Forall2_map_eq.
    eapply Runs_results; [|exact HR]. intros x acc c r Hv.
    destruct (listItem_run L H rf sh x acc c) as (r' & Hv' & Hp & _).
    rewrite Hv in Hv'. apply app_inv_head in Hv'. inversion Hv'. subst. reflexivity.
  - intros HR.
    rewrite <- (map_id (validPaths _)). apply Forall2_map_eq.
    eapply Runs_results; [|exact HR]. intros x acc c r Hv.
    destruct (createItem_run L H x acc c) as (out & _ & Hv').
    rewrite Hv in Hv'. apply app_inv_head in Hv'. inversion Hv' as [Hr].
    destruct out; reflexivity.
  - intros HR.
    rewrite <- (map_id (validPaths _)). apply Forall2_map_eq.
    eapply Runs_results; [|exact HR]. intros x acc c r Hv.
    destruct (deleteItem_run L H x acc c) as (out & _ & Hv').
    rewrite Hv in Hv'. apply app_inv_head in Hv'. inversion Hv' as [Hr].
    destruct out; reflexivity.
Qed.
End BodyFacts.

(* ===================================================================== *)
(** ** Facts about the validation of write items *)
(* ===================================================================== *)

Section ValidationFacts.
Import WriteFiles.

Lemma isNonBlankString_inv v :
  isNonBlankString v = true -> exists s, v = JsString s.
Proof. destruct v; cbn; try discriminate. eauto. Qed.

Lemma validateFrom_trimmed all itemsInput i valid errs :
  (forall x, In x itemsInput -> In x all) ->
  Forall (fun it => trimmedFrom all (path it)) valid ->
  Forall (fun it => trimmedFrom all (path it)) (fst (validateFrom itemsInput i valid errs)).
Proof.
  revert i valid errs. induction itemsInput as [|item rest IH]; intros i valid errs Hin Hv.
  - exact Hv.
  - assert (Hrest : forall x, In x rest -> In x all) by (intros; apply Hin; right; auto).
    cbn [validateFrom].
    destruct (negb (truthy item) || negb (typeofObject item)); [apply IH; auto|].
    cbn zeta.
    destruct (isNonBlankString (propOf item "path")) eqn:Ep; cbn [negb].
    + match goal with |- context [(length ?l =? 0)%nat && true] =>
        destruct ((length l =? 0)%nat) end; cbn [andb]; apply IH; auto.
      apply Forall_app. split; [exact Hv|]. constructor; [|constructor].
      destruct (isNonBlankString_inv _ Ep) as [s Es].
      exists item, s. rewrite Es. cbn. repeat split; auto. apply Hin. left. reflexivity.
    + rewrite andb_false_r.
      destruct (negb (isString (propOf item "content"))); [exact Hv | apply IH; auto].
Qed.

Lemma selectItems_sub (P : WriteItem -> Prop) itemsInput errs valid its :
  selectItems itemsInput errs valid = Fulfilled its ->
  Forall P valid -> Forall P its.
Proof.
  revert its. induction valid as [|it valid IH]; intros its E Hv; cbn in E.
  - inversion E. constructor.
  - inversion Hv as [|? ? Hit Hrest]; subst.
    destruct (blamed itemsInput it errs) as [b|]; [|discriminate].
    destruct (selectItems itemsInput errs valid) as [keep|]; [|discriminate].
    inversion E. destruct b; cbn; auto.
Qed.

Lemma itemsToProcess_trimmed block its :
  itemsToProcess block = Some its ->
  Forall (fun it => trimmedFrom (arrayElems (items (params block))) (path it)) its.
Proof.
  unfold itemsToProcess.
  destruct (missingArray _); [discriminate|].
  pose proof (validateFrom_trimmed (arrayElems (items (params block)))
                (arrayElems (items (params block))) 0 [] [] (fun x Hx => Hx)
                (Forall_nil _)) as Hv.
  destruct (validateFrom _ 0 [] []) as [valid errs]. cbn [fst] in Hv.
  destruct (hasCombinedError errs); [discriminate|].
  destruct (selectItems _ errs valid) as [sel|] eqn:Es; [|discriminate].
  destruct (_ && _); [discriminate|].
  intros E. inversion E; subst. eapply selectItems_sub; eauto.
Qed.
End ValidationFacts.

Section RowFacts.
Context {Env A R K Row : Type} (body : A -> list R -> M Env (list R)).

(** [Runs_each], through a key of the items and a view of the
    results. *)
Lemma Runs_rows (key : A -> K) (view : R -> Row) (P : K -> list Event -> Row -> Prop) :
  (forall x acc c r, value (body x acc c) = acc ++ [r] ->
                     P (key x) (trace (body x acc c)) (view r)) ->
  forall xs chunks rs, Runs body xs chunks rs ->
    Forall2 (fun k cr => P k (fst cr) (snd cr)) (map key xs) (combine chunks (map view rs)).
Proof.
  intros HP xs chunks rs HR. induction HR; cbn; constructor; auto.
  cbn. apply HP. assumption.
Qed.
End RowFacts.

Section AttemptFacts.
Context (L : Imports) {Env : Type} (H : Host Env).

Lemma LoopOf_attempted name block chunks rep :
  LoopOf L H name block chunks rep ->
  Forall2 (fun p cr => Attempted L H name p (fst cr) (snd cr))
          (processedPaths name block) (combine chunks (reportRows rep)).
Proof.
  destruct name, rep as [m rs|rs|rs|rs|rs];
    cbn [LoopOf reportRows processedPaths]; try contradiction.
  - intros (s & e & _ & _ & HR).
    rewrite <- (map_id (validPaths _)).
    eapply Runs_rows with (key := fun x => x); [|exact HR].
    intros x acc c r Hv.
    destruct (readItem_run L H
                (truthyStr (start_line (params block)) || truthyStr (end_line (params block)))
                s e m x acc c) as (r' & Hv' & Hp & Hg).
    rewrite Hv in Hv'. apply app_inv_head in Hv'. inversion Hv'. subst.
    split; [reflexivity | exact Hg].
  - intros (its & -> & HR).
    eapply Runs_rows; [|exact HR].
    intros x acc c r Hv.
    destruct (writeItem_run L H x acc c) as (Et & Hv').
    rewrite Hv in Hv'. apply app_inv_head in Hv'. inversion Hv' as [Hr]. clear Hv'.
    rewrite Et.
    destruct (writeOne_run L H x c)
      as [(out & -> & ->) | [(u & out & -> & ->) | (e & -> & ->)]].
    + destruct out as [u|e]; (split; [reflexivity|]); cbn [snd WriteFiles.error app].
      * split; [eauto 8|]. split; [repeat constructor | reflexivity].
      * split; [eauto 8|]. split; [discriminate|].
        intros Hf. inversion Hf. discriminate.
    + destruct out as [u'|e]; (split; [reflexivity|]); cbn [snd WriteFiles.error app].
      * split; [eauto 8|]. split; [repeat constructor | reflexivity].
      * split; [eauto 8|]. split; [discriminate|].
        intros Hf. inversion Hf as [|? ? _ Hf']. inversion Hf'. discriminate.
    + split; [reflexivity|]. cbn [snd WriteFiles.error app].
      split; [eauto 8|]. split; [discriminate|].
      intros Hf. inversion Hf. discriminate.
  - intros (rf & sh & HR).
    rewrite <- (map_id (validPaths _)).
    eapply Runs_rows with (key := fun x => x); [|exact HR].
    intros x acc c r Hv.
    destruct (listItem_run L H rf sh x acc c) as (r' & Hv' & Hp & Hg).
    rewrite Hv in Hv'. apply app_inv_head in Hv'. inversion Hv'. subst.
    split; [reflexivity | exact Hg].
  - intros HR.
    rewrite <- (map_id (validPaths _)).
    eapply Runs_rows with (key := fun x => x); [|exact HR].
    intros x acc c r Hv.
    destruct (createItem_run L H x acc c) as (out & -> & Hv').
    rewrite Hv in Hv'. apply app_inv_head in Hv'. inversion Hv' as [Hr]. clear Hv'.
    destruct out as [u|e]; (split; [reflexivity|]); cbn [snd CreateDirectories.error].
    + split; [eexists _, _; split; [reflexivity | constructor]|].
      split; [repeat constructor | reflexivity].
    + split; [eexists _, _; split; [reflexivity | repeat constructor]|].
      split; [discriminate|]. intros Hf. inversion Hf. discriminate.
  - intros HR.
    rewrite <- (map_id (validPaths _)).
    eapply Runs_rows with (key := fun x => x); [|exact HR].
    intros x acc c r Hv.
    destruct (deleteItem_run L H x acc c) as (out & -> & Hv').
    rewrite Hv in Hv'. apply app_inv_head in Hv'. inversion Hv' as [Hr]. clear Hv'.
    destruct out as [u|e]; (split; [reflexivity|]); cbn [snd DeleteItems.error].
    + split; [eexists _, _; split; [reflexivity | constructor]|].
      split; [repeat constructor | reflexivity].
    + split; [eexists _, _; split; [reflexivity|];
              destruct (isFileNotFound e); repeat constructor|].
      split; [discriminate|]. intros Hf. inversion Hf. discriminate.
Qed.

Lemma LoopOf_lengths name block chunks rep :
  LoopOf L H name block chunks rep ->
  length chunks = length (processedPaths name block) /\
  length (reportRows rep) = length (processedPaths name block).
Proof.
  intros HL. pose proof (LoopOf_paths L H name block chunks rep HL) as Hp.
  split; [|rewrite <- Hp, length_map; reflexivity].
  destruct name, rep as [m rs|rs|rs|rs|rs];
    cbn [LoopOf processedPaths] in *; try contradiction.
  - destruct HL as (s & e & _ & _ & HR). apply (Runs_length _ _ _ _ HR).
  - destruct HL as (its & Eits & HR). rewrite Eits, length_map. apply (Runs_length _ _ _ _ HR).
  - destruct HL as (rf & sh & HR). apply (Runs_length _ _ _ _ HR).
  - apply (Runs_length _ _ _ _ HL).
  - apply (Runs_length _ _ _ _ HL).
Qed.
End AttemptFacts.

(* ===================================================================== *)
(** ** Facts about the policy pre-check *)
(* ===================================================================== *)

Lemma length_pos_nonempty {A} (l : list A) : (0 <? length l)%nat = true -> l <> [].
Proof. destruct l; cbn; [discriminate | intros _ E; discriminate]. Qed.

Lemma length_zero_empty {A} (l : list A) : (0 <? length l)%nat = false -> l = [].
Proof. destruct l; cbn; [reflexivity | discriminate]. Qed.

Ltac silent_list := repeat constructor.

Section PolicyFacts.
Context (L : Imports) {Env : Type} (H : Host Env).

Lemma delete_policy block c :
  PolicyShape L (getReadablePath L (cwd H)) (complaint L delete_items)
    (trace (DeleteItems.deleteItemsTool L H block c)).
Proof.
  unfold DeleteItems.deleteItemsTool.
  destruct (missingArray (paths (params block))).
  { left. run. silent_list. }
  destruct (length (validPaths (paths (params block))) =? 0)%nat.
  { left. run. silent_list. }
  rewrite trace_bind.
  set (chk := forOf _ _ _ c).
  destruct (delete_checks L H (validPaths (paths (params block))) ([], []) c) as [Hc Hd].
  fold chk in Hc, Hd.
  destruct (value chk) as [pfa dis] eqn:Echk. cbn [snd app] in Hd.
  destruct (0 <? length dis)%nat eqn:Edis.
  { right. left. exists (trace chk). run. rewrite <- Hd.
    split; [reflexivity|]. split; [apply check_of_validate, Hc|].
    apply length_pos_nonempty. exact Edis. }
  right. right. apply length_zero_empty in Edis. subst dis.
  eexists (trace chk), _. split; [reflexivity|].
  split; [apply check_of_validate, Hc|]. split; [auto|].
  destruct (partial block).
  - left. run. eauto.
  - right. run. eauto.
Qed.

Lemma list_policy block c :
  PolicyShape L (getReadablePath L (cwd H)) (complaint L list_directories)
    (trace (ListDirectories.listDirectoriesTool L H block c)).
Proof.
  unfold ListDirectories.listDirectoriesTool.
  destruct (missingArray (paths (params block))).
  { left. run. silent_list. }
  destruct (length (validPaths (paths (params block))) =? 0)%nat.
  { left. run. silent_list. }
  rewrite trace_bind.
  set (chk := mapM _ _ c).
  destruct (list_checks L H (validPaths (paths (params block))) c) as [Hc Hd].
  fold chk in Hc, Hd. rewrite Hd.
  destruct (0 <? length _)%nat eqn:Edis.
  { right. left. exists (trace chk). run.
    split; [reflexivity|]. split; [apply check_of_validate, Hc|].
    apply length_pos_nonempty. exact Edis. }
  right. right. apply length_zero_empty in Edis.
  eexists (trace chk), _. split; [reflexivity|].
  split; [apply check_of_validate, Hc|]. split; [auto|].
  destruct (partial block).
  - left. run. eauto.
  - right. run. eauto.
Qed.

Lemma read_policy block c :
  PolicyShape L (getReadablePath L (cwd H)) (complaint L read_files)
    (trace (ReadFiles.readFilesTool L H block c)).
Proof.
  unfold ReadFiles.readFilesTool.
  destruct (missingArray (paths (params block))).
  { left. run. silent_list. }
  destruct (length (validPaths (paths (params block))) =? 0)%nat.
  { left. run. silent_list. }
  destruct (ReadFiles.parseLine (start_line (params block))) as [startLine|].
  2:{ left. run. silent_list. }
  destruct (ReadFiles.parseLine (end_line (params block))) as [endLine|].
  2:{ left. run. silent_list. }
  destruct (ReadFiles.rangeInverted startLine endLine).
  { left. run. silent_list. }
  rewrite trace_bind, trace_doGetState. cbn [app].
  set (st := value (doGetState H c)).
  set (c0 := final (doGetState H c)).
  rewrite trace_bind.
  set (chk := mapM _ _ c0).
  destruct (read_checks L H (validPaths (paths (params block))) c0) as [Hc Hd].
  fold chk in Hc, Hd. rewrite Hd.
  assert (Hpre : Forall (fun e => isCheck e = true) (EvGetState st :: trace chk)).
  { constructor; [reflexivity | apply check_of_validate, Hc]. }
  change (deniedPaths (getReadablePath L (cwd H)) (trace chk))
    with (deniedPaths (getReadablePath L (cwd H)) (EvGetState st :: trace chk)).
  destruct (0 <? length _)%nat eqn:Edis.
  { right. left. exists (EvGetState st :: trace chk). run.
    split; [reflexivity|]. split; [exact Hpre|].
    apply length_pos_nonempty. exact Edis. }
  right. right. apply length_zero_empty in Edis.
  eexists (EvGetState st :: trace chk), _. split; [reflexivity|].
  split; [exact Hpre|]. split; [auto|].
  destruct (partial block).
  - left. run. eauto.
  - right. run. eauto.
Qed.

Lemma runTool_policy name block c :
  pathChecked name = true ->
  PolicyShape L (getReadablePath L (cwd H)) (complaint L name)
    (trace (runTool L H name block c)).
Proof.
  destruct name; cbn [pathChecked runTool]; try discriminate; intros _.
  - apply read_policy.
  - apply list_policy.
  - apply delete_policy.
Qed.

(** A refusal met before any approval ends the run with the aggregated
    error. *)
Lemma PolicyShape_refused show msg tr pre p post :
  PolicyShape L show msg tr ->
  tr = pre ++ EvValidateAccess p false :: post ->
  Forall (fun e => isApproval e = false) pre ->
  exists checks,
    tr = checks ++
         [EvSay "rooignore_error" (msg (deniedPaths show checks));
          EvPushToolResult (toolError L (msg (deniedPaths show checks)))] /\
    Forall (fun e => isCheck e = true) checks /\
    In (show p) (deniedPaths show checks).
Proof.
  intros [Hq | [(checks & E & Hc & Hd) | (checks & rest & E & Hc & Hd & Hrest)]] Etr Hpre.
  - exfalso. assert (Hin : In (EvValidateAccess p false) tr).
    { rewrite Etr. apply in_elt. }
    rewrite Forall_forall in Hq. apply Hq in Hin. destruct Hin as [Hv _]. discriminate.
  - exists checks. split; [exact E|]. split; [exact Hc|].
    apply deniedPaths_In.
    assert (Hin : In (EvValidateAccess p false) tr).
    { rewrite Etr. apply in_elt. }
    rewrite E in Hin. apply in_app_or in Hin.
    destruct Hin as [Hin | [Hin | [Hin | []]]]; [exact Hin | discriminate | discriminate].
  - exfalso.
    assert (Hno : ~ In (EvValidateAccess p false) checks).
    { intros Hin. pose proof (deniedPaths_none show checks Hd p false Hin). discriminate. }
    destruct Hrest as [(ct & b & ->) | (ct & b & mid & ->)]; rewrite E in Etr.
    + assert (Hin : In (EvValidateAccess p false) (checks ++ [EvAsk ct b])).
      { rewrite Etr. apply in_elt. }
      apply in_app_or in Hin. destruct Hin as [Hin | [Hin | []]]; [auto | discriminate].
    + symmetry in Etr. apply cut_twice in Etr.
      destruct Etr as [Hin | [[Hab _] | Hin]]; [auto | discriminate |].
      rewrite Forall_forall in Hpre. apply Hpre in Hin. discriminate.
Qed.
End PolicyFacts.

Section CreateLoopFacts.
Context (L : Imports) {Env : Type} (H : Host Env).



End CreateLoopFacts.

(* ===================================================================== *)
(** ** Facts about the re-validation scan *)
(* ===================================================================== *)

Section ScanFacts.
Context (L : Imports) {Env : Type} (H : Host Env).








End ScanFacts.

Section RevalidationFacts.
Context (L : Imports) {Env : Type} (H : Host Env).





End RevalidationFacts.

(* ===================================================================== *)
(** ** Facts about the line range *)
(* ===================================================================== *)

Lemma parseLine_parsed str n :
  parseInt str = Some n ->
  truthyStr (Some str) = true /\
  ReadFiles.parseLine (Some str) = Some (Some (Z.max 0 (n - 1))).
Proof.
  intros E. assert (Ht : truthyStr (Some str) = true).
  { destruct str; [discriminate | reflexivity]. }
  split; [exact Ht|]. unfold ReadFiles.parseLine. rewrite Ht, E. reflexivity.
Qed.

(* ===================================================================== *)
(** ** Facts about a read without a line range *)
(* ===================================================================== *)

Section PlainReadFacts.
Import ReadFiles.
Context (L : Imports) {Env : Type} (H : Host Env).

(** Past the guard, a read without a range counts the lines, probes
    for binary content and then either reads the head and asks for the
    outline (truncation) or extracts the whole text. *)
Lemma readContent_plain m p c :
  let a := path_resolve L (cwd H) p in
  exists outc outb,
    let n := match outc with Fulfilled n => n | Rejected _ => 0 end in
    let b := match outb with Fulfilled b => b | Rejected _ => false end in
    let probe :=
      EvCountFileLines a outc ::
      match outc with
      | Fulfilled _ => []
      | Rejected _ => [EvConsole "warn" ("Could not count lines for " ^^ a ^^ ":")]
      end ++ [EvIsBinaryFile a outb] in
    if negb b && (m >=? 0) && (n >? m) then
      exists head defs outlineFirst,
        trace (readContent L H false None None m p c) =
          probe ++ (if m >? 0 then [EvReadLines a (Some (m - 1)) (Some 0) head] else [])
                ++ [EvParseDefinitions a defs] /\
        ((m >? 0) = false -> head = Fulfilled "") /\
        value (readContent L H false None None m p c) =
          match awaitedBoth outlineFirst head defs with
          | Rejected e => Rejected e
          | Fulfilled (h, d) =>
              Fulfilled (mkResult p (Some (numberedHead L h)) None (Some true) (Some n)
                           (Some (outlineSuffix d)))
          end
    else
      exists text,
        trace (readContent L H false None None m p c) = probe ++ [EvExtractText a text] /\
        value (readContent L H false None None m p c) =
          match text with
          | Fulfilled t => Fulfilled (mkResult p (Some t) None (Some false) (Some n) (Some ""))
          | Rejected e => Rejected e
          end.
Proof.
  cbn zeta. unfold readContent. rewrite trace_bind, value_bind.
  set (a := path_resolve L (cwd H) p).
  destruct (countLines_run H a c) as (outc & Etc & Evc). rewrite Etc, Evc.
  set (c1 := final (countLines H a c)).
  rewrite trace_bind, value_bind.
  destruct (detectBinary_run H a c1) as (outb & Etb & Evb). rewrite Etb, Evb.
  set (c2 := final (detectBinary H a c1)).
  exists outc, outb.
  destruct (negb _ && _ && _).
  - rewrite trace_andThen, value_andThen.
    destruct (readHeadAndDefinitions_run H a m c2) as (head & defs & first & Eth & Hh & Evh).
    rewrite Eth, Evh. exists head, defs, first.
    split; [|split; [exact Hh|]].
    + destruct head as [h|], defs as [d|]; cbn [awaitedBoth]; run;
        rewrite <- ?app_assoc; cbn [app]; rewrite ?app_nil_r; reflexivity.
    + destruct head as [h|], defs as [d|]; cbn [awaitedBoth]; run; try reflexivity.
      unfold numberedHead, outlineSuffix.
      destruct d as [d|]; cbn [truthyStr]; [|reflexivity].
      destruct (d =? "")%string; reflexivity.
  - run. exists (fst (extractTextFromFile H a (env c2))).
    destruct (fst (extractTextFromFile H a (env c2))); run;
      rewrite <- ?app_assoc; cbn [app]; auto.
Qed.

(** The [catch] of the reading loop adds one console line and turns
    the error into the item's result. *)
Lemma readItem_unfold ir s e m p acc c :
  trace (readItem L H ir s e m p acc c) =
    trace (readOne L H ir s e m p c) ++
    match value (readOne L H ir s e m p c) with
    | Fulfilled _ => []
    | Rejected _ => [EvConsole "error" ("Error reading file " ^^ path_resolve L (cwd H) p ^^ ":")]
    end /\
  value (readItem L H ir s e m p acc c) =
    acc ++ [match value (readOne L H ir s e m p c) with
            | Fulfilled r => r
            | Rejected err =>
                mkResult p None (Some (orElse (message err) "Unknown error reading file"))
                  None None None
            end].
Proof.
  unfold readItem. run. destruct (value (readOne L H ir s e m p c)); run; auto.
Qed.
End PlainReadFacts.

(* ===================================================================== *)
(** ** Facts about substrings *)
(* ===================================================================== *)





(** Take a membership in an explicit list of events apart. *)
Ltac split_in H :=
  repeat match type of H with
         | In _ (_ ++ _) => apply in_app_or in H; destruct H as [H | H]
         | In _ (_ :: _) => destruct H as [H | H]
         | In _ [] => destruct H
         | In _ (match ?x with _ => _ end) => destruct x
         end.

(* ===================================================================== *)
(** ** The anatomy of an approved read *)
(* ===================================================================== *)

Section ReadAnatomy.
Import ReadFiles.
Context (L : Imports) {Env : Type} (H : Host Env).


End ReadAnatomy.

(* ===================================================================== *)
(** ** Facts about a truncated read *)
(* ===================================================================== *)

Section TruncationFacts.
Context (L : Imports) {Env : Type} (H : Host Env).







End TruncationFacts.
(* ===================================================================== *)
(** ** Facts about the state a computation leaves *)
(* ===================================================================== *)

Section StateFacts.
Context {Env : Type}.

Lemma final_ret {A} (a : A) (c : Cline Env) : final (ret a c) = c.
Proof. reflexivity. Qed.

Lemma final_call {A} (f : Env -> A * Env) ev (c : Cline Env) :
  final (call f ev c) = mkCline (snd (f (env c))) (consecutiveMistakeCount c) (didEditFile c).
Proof. unfold call, final. destruct (f (env c)). reflexivity. Qed.

Lemma tally_app n t1 t2 : tally n (t1 ++ t2) = tally (tally n t1) t2.
Proof. unfold tally. apply fold_left_app. Qed.

Lemma Tallies_ret {A} (a : A) : Tallies (ret (Env := Env) a).
Proof. intros c. reflexivity. Qed.

Lemma Tallies_peek {A} (f : Env -> A) : Tallies (peek f).
Proof. intros c. reflexivity. Qed.

Lemma Tallies_bind {A B} (m : M Env A) (f : A -> M Env B) :
  Tallies m -> (forall a, Tallies (f a)) -> Tallies (bind m f).
Proof.
  intros Hm Hf c. rewrite final_bind, trace_bind, tally_app, Hf, Hm. reflexivity.
Qed.

Lemma Tallies_call {A} (f : Env -> A * Env) ev :
  (forall a, isApproval (ev a) = false /\ isRejection (ev a) = false) ->
  Tallies (call f ev).
Proof.
  intros Hev c. rewrite final_call, trace_call. cbn.
  unfold tallyStep. destruct (Hev (fst (f (env c)))) as [-> ->]. reflexivity.
Qed.

Lemma Tallies_console level text : Tallies (console (Env := Env) level text).
Proof. intros c. reflexivity. Qed.

Lemma Tallies_markEdited : Tallies (markEdited (Env := Env)).
Proof. intros c. reflexivity. Qed.

Lemma Tallies_andThen {A B} (m : M Env (Settled A)) (k : A -> M Env (Settled B)) :
  Tallies m -> (forall a, Tallies (k a)) -> Tallies (andThen m k).
Proof.
  intros Hm Hk. unfold andThen. apply Tallies_bind; [exact Hm|].
  intros [a|e]; [apply Hk | apply Tallies_ret].
Qed.

Lemma Tallies_forOf {A S} (body : A -> S -> M Env S) :
  (forall x s, Tallies (body x s)) -> forall xs s, Tallies (forOf xs body s).
Proof.
  intros Hb xs. induction xs as [|x xs IH]; intros s; cbn [forOf].
  - apply Tallies_ret.
  - apply Tallies_bind; auto.
Qed.

Lemma Tallies_mapM {A B} (f : A -> M Env B) :
  (forall x, Tallies (f x)) -> forall xs, Tallies (mapM f xs).
Proof.
  intros Hf xs. induction xs as [|x xs IH]; cbn [mapM].
  - apply Tallies_ret.
  - apply Tallies_bind; [apply Hf|]. intros y.
    apply Tallies_bind; [exact IH|]. intros ys. apply Tallies_ret.
Qed.

Section FlagFacts.
Variable P : Event -> bool.

Lemma Flags_ret {A} (a : A) : Flags P (ret (Env := Env) a).
Proof. intros c. cbn. rewrite orb_false_r. reflexivity. Qed.

Lemma Flags_peek {A} (f : Env -> A) : Flags P (peek f).
Proof. intros c. cbn. rewrite orb_false_r. reflexivity. Qed.

Lemma Flags_bind {A B} (m : M Env A) (f : A -> M Env B) :
  Flags P m -> (forall a, Flags P (f a)) -> Flags P (bind m f).
Proof.
  intros Hm Hf c. rewrite final_bind, trace_bind, existsb_app, Hf, Hm, orb_assoc.
  reflexivity.
Qed.

Lemma Flags_call {A} (f : Env -> A * Env) ev :
  (forall a, P (ev a) = false) -> Flags P (call f ev).
Proof.
  intros Hev c. rewrite final_call, trace_call. cbn. rewrite Hev, !orb_false_r. reflexivity.
Qed.

Lemma Flags_console level text :
  P (EvConsole level text) = false -> Flags P (console (Env := Env) level text).
Proof. intros HP c. cbn. rewrite HP, !orb_false_r. reflexivity. Qed.

Lemma Flags_incrMistakes : Flags P (incrMistakes (Env := Env)).
Proof. intros c. cbn. rewrite orb_false_r. reflexivity. Qed.

Lemma Flags_resetMistakes : Flags P (resetMistakes (Env := Env)).
Proof. intros c. cbn. rewrite orb_false_r. reflexivity. Qed.

Lemma Flags_andThen {A B} (m : M Env (Settled A)) (k : A -> M Env (Settled B)) :
  Flags P m -> (forall a, Flags P (k a)) -> Flags P (andThen m k).
Proof.
  intros Hm Hk. unfold andThen. apply Flags_bind; [exact Hm|].
  intros [a|e]; [apply Hk | apply Flags_ret].
Qed.

Lemma Flags_forOf {A S} (body : A -> S -> M Env S) :
  (forall x s, Flags P (body x s)) -> forall xs s, Flags P (forOf xs body s).
Proof.
  intros Hb xs. induction xs as [|x xs IH]; intros s; cbn [forOf].
  - apply Flags_ret.
  - apply Flags_bind; auto.
Qed.

Lemma Flags_mapM {A B} (f : A -> M Env B) :
  (forall x, Flags P (f x)) -> forall xs, Flags P (mapM f xs).
Proof.
  intros Hf xs. induction xs as [|x xs IH]; cbn [mapM].
  - apply Flags_ret.
  - apply Flags_bind; [apply Hf|]. intros y.
    apply Flags_bind; [exact IH|]. intros ys. apply Flags_ret.
Qed.
End FlagFacts.

Context (H : Host Env).

(** A rejection of the parameters: the counter goes up, then the
    rejection is said. *)
Lemma Tallies_rejected {A} msg (k : M Env A) :
  Tallies k -> Tallies (incrMistakes ;;; doSay H "error" msg ;;; k).
Proof.
  intros Hk c. rewrite !final_bind, !trace_bind, trace_incrMistakes, trace_doSay.
  cbn [app]. rewrite Hk. reflexivity.
Qed.

Lemma Tallies_missing {A} tool param hint (k : string -> M Env A) :
  (forall msg, Tallies (k msg)) ->
  Tallies (incrMistakes ;;; msg <- doMissingParam H tool param hint ;; k msg).
Proof.
  intros Hk c. rewrite !final_bind, !trace_bind, trace_incrMistakes, trace_doMissingParam.
  cbn [app]. rewrite Hk. unfold doMissingParam. rewrite final_call. reflexivity.
Qed.

(** The approval request finds the counter reset. *)
Lemma Tallies_approval {A} content (k : bool -> M Env A) :
  (forall b, Tallies (k b)) ->
  Tallies (resetMistakes ;;; didApprove <- doAskApproval H content ;; k didApprove).
Proof.
  intros Hk c. rewrite !final_bind, !trace_bind, trace_resetMistakes, trace_doAskApproval.
  cbn [app]. rewrite Hk. unfold doAskApproval. rewrite final_call. reflexivity.
Qed.

Lemma Tallies_validateAccess p : Tallies (validateAccess H p).
Proof.
  unfold validateAccess. destruct (rooIgnoreController H).
  - apply Tallies_call. intros; split; reflexivity.
  - apply Tallies_ret.
Qed.

Lemma Tallies_doSay kind text :
  (kind =? "error")%string = false -> Tallies (doSay H kind text).
Proof.
  intros Hk. apply Tallies_call. intros _. cbn. rewrite Hk. auto.
Qed.

Lemma Tallies_doPush text : Tallies (doPush H text).
Proof. apply Tallies_call. intros; split; reflexivity. Qed.

Lemma Tallies_doAsk content b : Tallies (doAsk H content b).
Proof. apply Tallies_call. intros; split; reflexivity. Qed.

Lemma Tallies_doHandleError action err : Tallies (doHandleError H action err).
Proof. apply Tallies_call. intros; split; reflexivity. Qed.

Lemma Tallies_doGetState : Tallies (doGetState H).
Proof. apply Tallies_call. intros; split; reflexivity. Qed.

Lemma Flags_validateAccess P p :
  (forall e, isMutation e = false -> P e = false) -> Flags P (validateAccess H p).
Proof.
  intros HP. unfold validateAccess. destruct (rooIgnoreController H).
  - apply Flags_call. intros. apply HP. reflexivity.
  - apply Flags_ret.
Qed.

End StateFacts.

(** The steps that prove a computation keeps the counter as its trace
    tells: the rejections and the approval request as units, everything
    else piece by piece. *)
Ltac tallies :=
  repeat first
    [ apply Tallies_rejected
    | apply Tallies_missing; intros
    | apply Tallies_approval; intros
    | apply Tallies_ret
    | apply Tallies_peek
    | apply Tallies_console
    | apply Tallies_markEdited
    | apply Tallies_validateAccess
    | apply Tallies_doPush
    | apply Tallies_doAsk
    | apply Tallies_doHandleError
    | apply Tallies_doGetState
    | apply Tallies_doSay; reflexivity
    | apply Tallies_call; intros; split; reflexivity
    | apply Tallies_forOf; intros
    | apply Tallies_mapM; intros
    | apply Tallies_andThen; [|intros]
    | apply Tallies_bind; [|intros]
    | match goal with
      | |- Tallies (if ?b then _ else _) => destruct b
      | |- Tallies (match ?x with _ => _ end) => destruct x
      | |- Tallies (let '(_, _) := ?x in _) => destruct x
      end ].

Section TallyFacts.
Context (L : Imports) {Env : Type} (H : Host Env).

Lemma delete_tallies block : Tallies (DeleteItems.deleteItemsTool L H block).
Proof.
  unfold DeleteItems.deleteItemsTool, DeleteItems.checkItem, DeleteItems.deleteItem.
  tallies.
Qed.

Lemma create_tallies block : Tallies (CreateDirectories.createDirectoriesTool L H block).
Proof.
  unfold CreateDirectories.createDirectoriesTool, CreateDirectories.createItem.
  tallies.
Qed.

Lemma list_tallies block : Tallies (ListDirectories.listDirectoriesTool L H block).
Proof.
  unfold ListDirectories.listDirectoriesTool, ListDirectories.approvalPath,
    ListDirectories.listItem, ListDirectories.listOne, ListDirectories.listContent,
    guardAccess.
  tallies.
Qed.

Lemma read_tallies block : Tallies (ReadFiles.readFilesTool L H block).
Proof.
  unfold ReadFiles.readFilesTool, ReadFiles.approvalPath, ReadFiles.readItem,
    ReadFiles.readOne, ReadFiles.readContent, ReadFiles.readHeadAndDefinitions,
    ReadFiles.countLines, ReadFiles.detectBinary, ReadFiles.doReadLines, guardAccess.
  tallies.
Qed.

Lemma write_tallies block : Tallies (WriteFiles.writeFilesTool L H block).
Proof.
  unfold WriteFiles.writeFilesTool, WriteFiles.processItems, WriteFiles.checkItem,
    WriteFiles.fileStatus, WriteFiles.writeItem, WriteFiles.writeOne.
  tallies.
Qed.

Lemma runTool_tallies name block : Tallies (runTool L H name block).
Proof.
  destruct name; cbn [runTool].
  - apply read_tallies.
  - apply Tallies_bind; [apply write_tallies | intros; apply Tallies_ret].
  - apply list_tallies.
  - apply create_tallies.
  - apply delete_tallies.
Qed.
End TallyFacts.

(** The steps that prove a computation raises [didEditFile] as its
    trace tells. *)
Ltac flags_with body :=
  repeat first
    [ apply Flags_ret
    | apply Flags_peek
    | apply Flags_incrMistakes
    | apply Flags_resetMistakes
    | body
    | apply Flags_console; reflexivity
    | apply Flags_validateAccess; intros [] ?; solve [reflexivity | discriminate]
    | apply Flags_call; intros; reflexivity
    | apply Flags_forOf; intros
    | apply Flags_mapM; intros
    | apply Flags_andThen; [|intros]
    | apply Flags_bind; [|intros]
    | match goal with
      | |- Flags _ (if ?b then _ else _) => destruct b
      | |- Flags _ (match ?x with _ => _ end) => destruct x
      | |- Flags _ (let '(_, _) := ?x in _) => destruct x
      end ].

Section EditFacts.
Context (L : Imports) {Env : Type} (H : Host Env).

Lemma deleteItem_flags p acc :
  Flags (marksEdit delete_items) (DeleteItems.deleteItem L H p acc).
Proof.
  intros c. unfold DeleteItems.deleteItem.
  rewrite final_bind, trace_bind, trace_call, value_call, final_call.
  destruct (fst (fs_delete H (path_resolve L (cwd H) p) true false (env c))) as [u|err].
  - cbn. rewrite orb_true_r. reflexivity.
  - destruct (isFileNotFound err); cbn; rewrite ?orb_false_r; reflexivity.
Qed.

Lemma createItem_flags p acc :
  Flags (marksEdit create_directories) (CreateDirectories.createItem L H p acc).
Proof.
  intros c. unfold CreateDirectories.createItem.
  rewrite final_bind, trace_bind, trace_call, value_call, final_call.
  destruct (fst (fs_createDirectory H (path_resolve L (cwd H) p) (env c))) as [u|err].
  - cbn. rewrite orb_true_r. reflexivity.
  - cbn. rewrite ?orb_false_r. reflexivity.
Qed.

Lemma writeItem_flags item acc :
  Flags (marksEdit write_files) (WriteFiles.writeItem L H item acc).
Proof.
  intros c. unfold WriteFiles.writeItem, WriteFiles.writeOne, andThen.
  set (a := path_resolve L (cwd H) (WriteFiles.path item)).
  set (dir := path_dirname L a).
  destruct (negb (dir =? a)%string && negb (dir =? cwd H)%string && negb (dir =? ".")%string).
  - rewrite !final_bind, !trace_bind, !value_bind, trace_call, value_call, final_call.
    destruct (fst (fs_createDirectory H dir (env c))) as [u|err].
    + rewrite trace_call, value_call, final_call. cbn [env].
      match goal with |- context [fs_writeFile H a ?p ?e] =>
        destruct (fst (fs_writeFile H a p e)) as [v|err] end.
      * cbn. rewrite orb_true_r. reflexivity.
      * cbn. rewrite ?orb_false_r. reflexivity.
    + cbn. rewrite ?orb_false_r. reflexivity.
  - rewrite !final_bind, !trace_bind, !value_bind, trace_ret, value_ret, final_ret.
    rewrite trace_call, value_call, final_call.
    match goal with |- context [fs_writeFile H a ?p ?e] =>
      destruct (fst (fs_writeFile H a p e)) as [v|err] end.
    + cbn. rewrite orb_true_r. reflexivity.
    + cbn. rewrite ?orb_false_r. reflexivity.
Qed.

Lemma delete_flags block :
  Flags (marksEdit delete_items) (DeleteItems.deleteItemsTool L H block).
Proof.
  unfold DeleteItems.deleteItemsTool, DeleteItems.checkItem. flags_with ltac:(apply deleteItem_flags).
Qed.

Lemma create_flags block :
  Flags (marksEdit create_directories) (CreateDirectories.createDirectoriesTool L H block).
Proof.
  unfold CreateDirectories.createDirectoriesTool. flags_with ltac:(apply createItem_flags).
Qed.

Lemma write_flags block :
  Flags (marksEdit write_files) (WriteFiles.writeFilesTool L H block).
Proof.
  unfold WriteFiles.writeFilesTool, WriteFiles.processItems, WriteFiles.checkItem,
    WriteFiles.fileStatus.
  flags_with ltac:(apply writeItem_flags).
Qed.

Lemma list_flags block :
  Flags (marksEdit list_directories) (ListDirectories.listDirectoriesTool L H block).
Proof.
  unfold ListDirectories.listDirectoriesTool, ListDirectories.approvalPath,
    ListDirectories.listItem, ListDirectories.listOne, ListDirectories.listContent,
    guardAccess.
  flags_with ltac:(fail).
Qed.

Lemma read_flags block :
  Flags (marksEdit read_files) (ReadFiles.readFilesTool L H block).
Proof.
  unfold ReadFiles.readFilesTool, ReadFiles.approvalPath, ReadFiles.readItem,
    ReadFiles.readOne, ReadFiles.readContent, ReadFiles.readHeadAndDefinitions,
    ReadFiles.countLines, ReadFiles.detectBinary, ReadFiles.doReadLines, guardAccess.
  flags_with ltac:(fail).
Qed.

Lemma runTool_flags name block : Flags (marksEdit name) (runTool L H name block).
Proof.
  destruct name; cbn [runTool].
  - apply read_flags.
  - apply Flags_bind; [apply write_flags | intros; apply Flags_ret].
  - apply list_flags.
  - apply create_flags.
  - apply delete_flags.
Qed.
End EditFacts.

(* ===================================================================== *)
(** ** Facts about the events a computation may leave *)
(* ===================================================================== *)

Section EmitFacts.
Context {Env : Type} (P : Event -> bool).

Lemma Emits_ret {A} (a : A) : Emits P (ret (Env := Env) a).
Proof. intros c. constructor. Qed.

Lemma Emits_peek {A} (f : Env -> A) : Emits P (peek f).
Proof. intros c. constructor. Qed.

Lemma Emits_bind {A B} (m : M Env A) (f : A -> M Env B) :
  Emits P m -> (forall a, Emits P (f a)) -> Emits P (bind m f).
Proof.
  intros Hm Hf c. rewrite trace_bind. apply Forall_app. split; [apply Hm | apply Hf].
Qed.

Lemma Emits_call {A} (f : Env -> A * Env) ev :
  (forall a, P (ev a) = true) -> Emits P (call f ev).
Proof. intros Hev c. rewrite trace_call. constructor; [apply Hev | constructor]. Qed.

Lemma Emits_console level text :
  P (EvConsole level text) = true -> Emits P (console (Env := Env) level text).
Proof. intros HP c. constructor; [exact HP | constructor]. Qed.

Lemma Emits_silent {A} (m : M Env A) : (forall c, trace (m c) = []) -> Emits P m.
Proof. intros Hm c. rewrite Hm. constructor. Qed.

Lemma Emits_andThen {A B} (m : M Env (Settled A)) (k : A -> M Env (Settled B)) :
  Emits P m -> (forall a, Emits P (k a)) -> Emits P (andThen m k).
Proof.
  intros Hm Hk. unfold andThen. apply Emits_bind; [exact Hm|].
  intros [a|e]; [apply Hk | apply Emits_ret].
Qed.

Lemma Emits_forOf {A S} (body : A -> S -> M Env S) :
  (forall x s, Emits P (body x s)) -> forall xs s, Emits P (forOf xs body s).
Proof.
  intros Hb xs. induction xs as [|x xs IH]; intros s; cbn [forOf].
  - apply Emits_ret.
  - apply Emits_bind; auto.
Qed.

Lemma Emits_mapM {A B} (f : A -> M Env B) :
  (forall x, Emits P (f x)) -> forall xs, Emits P (mapM f xs).
Proof.
  intros Hf xs. induction xs as [|x xs IH]; cbn [mapM].
  - apply Emits_ret.
  - apply Emits_bind; [apply Hf|]. intros y.
    apply Emits_bind; [exact IH|]. intros ys. apply Emits_ret.
Qed.

Lemma Emits_validateAccess (H : Host Env) p :
  (forall a, P (EvValidateAccess p a) = true) -> Emits P (validateAccess H p).
Proof.
  intros HP. unfold validateAccess. destruct (rooIgnoreController H).
  - apply Emits_call. exact HP.
  - apply Emits_ret.
Qed.
End EmitFacts.

Ltac emits :=
  repeat first
    [ apply Emits_ret
    | apply Emits_peek
    | apply Emits_silent; reflexivity
    | apply Emits_console; reflexivity
    | apply Emits_validateAccess; intros; reflexivity
    | apply Emits_call; intros; reflexivity
    | apply Emits_forOf; intros
    | apply Emits_mapM; intros
    | apply Emits_andThen; [|intros]
    | apply Emits_bind; [|intros]
    | match goal with
      | |- Emits _ (if ?b then _ else _) => destruct b
      | |- Emits _ (match ?x with _ => _ end) => destruct x
      | |- Emits _ (let '(_, _) := ?x in _) => destruct x
      end ].

Section AlphabetFacts.
Context (L : Imports) {Env : Type} (H : Host Env).

Lemma delete_speaks block :
  Emits (speaksOf delete_items) (DeleteItems.deleteItemsTool L H block).
Proof.
  unfold DeleteItems.deleteItemsTool, DeleteItems.checkItem, DeleteItems.deleteItem.
  emits.
Qed.

Lemma create_speaks block :
  Emits (speaksOf create_directories) (CreateDirectories.createDirectoriesTool L H block).
Proof.
  unfold CreateDirectories.createDirectoriesTool, CreateDirectories.createItem.
  emits.
Qed.

Lemma list_speaks block :
  Emits (speaksOf list_directories) (ListDirectories.listDirectoriesTool L H block).
Proof.
  unfold ListDirectories.listDirectoriesTool, ListDirectories.approvalPath,
    ListDirectories.listItem, ListDirectories.listOne, ListDirectories.listContent,
    guardAccess.
  emits.
Qed.

Lemma read_speaks block :
  Emits (speaksOf read_files) (ReadFiles.readFilesTool L H block).
Proof.
  unfold ReadFiles.readFilesTool, ReadFiles.approvalPath, ReadFiles.readItem,
    ReadFiles.readOne, ReadFiles.readContent, ReadFiles.readHeadAndDefinitions,
    ReadFiles.countLines, ReadFiles.detectBinary, ReadFiles.doReadLines, guardAccess.
  emits.
Qed.

Lemma write_speaks block :
  Emits (speaksOf write_files) (WriteFiles.writeFilesTool L H block).
Proof.
  unfold WriteFiles.writeFilesTool, WriteFiles.processItems, WriteFiles.checkItem,
    WriteFiles.fileStatus, WriteFiles.writeItem, WriteFiles.writeOne.
  emits.
Qed.

Lemma runTool_speaks name block : Emits (speaksOf name) (runTool L H name block).
Proof.
  destruct name; cbn [runTool].
  - apply read_speaks.
  - apply Emits_bind; [apply write_speaks | intros; apply Emits_ret].
  - apply list_speaks.
  - apply create_speaks.
  - apply delete_speaks.
Qed.
End AlphabetFacts.

(* ===================================================================== *)
(** ** Facts about the counter after an approval request *)
(* ===================================================================== *)

Lemma loop_event_no_rejection e : inGuardedLoop e = true -> isRejection e = false.
Proof. destruct e; cbn; congruence. Qed.

Lemma check_no_rejection e : isCheck e = true -> isRejection e = false.
Proof. destruct e; cbn; congruence. Qed.

Lemma tally_neutral n tr :
  Forall (fun e => isApproval e = false /\ isRejection e = false) tr -> tally n tr = n.
Proof.
  induction 1 as [|e tr [Ha Hr] _ IH]; [reflexivity|].
  cbn. unfold tallyStep at 2. rewrite Ha, Hr. exact IH.
Qed.

Lemma tally_settled n tr :
  Forall (fun e => isRejection e = false) tr -> tally 0 tr = 0 ->
  forall content b, tally n (EvAskApproval content b :: tr) = 0.
Proof. intros _ H0 content b. cbn. exact H0. Qed.

Lemma tally_zero tr : Forall (fun e => isRejection e = false) tr -> tally 0 tr = 0.
Proof.
  induction 1 as [|e tr Hr _ IH]; [reflexivity|].
  cbn. unfold tallyStep at 2. rewrite Hr. destruct (isApproval e); exact IH.
Qed.

Section SettledFacts.
Context (L : Imports) {Env : Type} (H : Host Env).

Lemma ToolMid_rejects_no_more name block mid :
  ToolMid L H name block mid -> Forall (fun e => isRejection e = false) mid.
Proof.
  intros Hmid.
  assert (Hloop : forall chunks rep, LoopOf L H name block chunks rep ->
            Forall (fun e => isRejection e = false) (concat chunks)).
  { intros chunks rep HL. eapply Forall_impl; [|eapply LoopOf_events, HL].
    intros e. apply loop_event_no_rejection. }
  destruct name; cbn [ToolMid] in Hmid.
  - destruct Hmid as (m & s & e & chunks & rs & Hs & He & HR & ->).
    apply Forall_app. split; [|repeat constructor].
    apply (Hloop chunks (ReadReport m rs)). cbn. eauto.
  - destruct Hmid as (its & Hits & chunks & rs & HR & ->).
    apply Forall_app. split; [|repeat constructor].
    apply (Hloop chunks (WriteReport rs)). cbn. eauto.
  - destruct Hmid as (st & rf & sh & chunks & rs & HR & ->).
    constructor; [reflexivity|].
    apply Forall_app. split; [|repeat constructor].
    apply (Hloop chunks (ListReport rs)). cbn. eauto.
  - destruct Hmid as (chunks & rs & HR & ->).
    apply Forall_app. split; [|repeat constructor].
    apply (Hloop chunks (CreateReport rs)). exact HR.
  - destruct Hmid as (chunks & rs & HR & ->).
    apply Forall_app. split; [|repeat constructor].
    apply (Hloop chunks (DeleteReport rs)). exact HR.
Qed.
End SettledFacts.

(* ===================================================================== *)
(** ** Facts about blocks streamed in part *)
(* ===================================================================== *)

Lemma check_is_calm tr :
  Forall (fun e => isCheck e = true) tr ->
  Forall (fun e => isApproval e = false /\ isOperation e = false) tr.
Proof. apply Forall_impl. intros []; cbn; intros; split; congruence. Qed.

Lemma check_is_no_ask tr :
  Forall (fun e => isCheck e = true) tr -> Forall (fun e => isAsk e = false) tr.
Proof. apply Forall_impl. intros []; cbn; intros; congruence. Qed.

(** The two ways a partial run can end, once the checks [chk] are
    known. *)
Lemma Announces_same chk tl :
  Forall (fun e => isCheck e = true) chk ->
  Forall (fun e => isApproval e = false /\ isOperation e = false /\ isAsk e = false) tl ->
  Announces (chk ++ tl) (chk ++ tl).
Proof.
  intros Hc Ht. split; [|left; split].
  - apply Forall_app. split; [apply check_is_calm, Hc|].
    eapply Forall_impl; [|exact Ht]. intros e (? & ? & ?). auto.
  - apply Forall_app. split; [apply check_is_no_ask, Hc|].
    eapply Forall_impl; [|exact Ht]. intros e (? & ? & ?). auto.
  - reflexivity.
Qed.

Lemma Announces_ask chk content answer rest :
  Forall (fun e => isCheck e = true) chk ->
  Announces (chk ++ [EvAsk content true]) (chk ++ EvAskApproval content answer :: rest).
Proof.
  intros Hc. split; [|right].
  - apply Forall_app. split; [apply check_is_calm, Hc | repeat constructor].
  - exists chk, content. repeat split; auto. eauto.
Qed.

Ltac calm_list := repeat (constructor; [repeat split; reflexivity|]); constructor.

Ltac rejected_alike :=
  run; apply (Announces_same []); [constructor | calm_list].

Section PartialFacts.
Context (L : Imports) {Env : Type} (H : Host Env).

Lemma delete_announces block c :
  Announces (trace (DeleteItems.deleteItemsTool L H (asPartial block true) c))
            (trace (DeleteItems.deleteItemsTool L H (asPartial block false) c)).
Proof.
  unfold DeleteItems.deleteItemsTool, asPartial. cbn [params partial].
  destruct (missingArray (paths (params block))); [rejected_alike|].
  destruct (length (validPaths (paths (params block))) =? 0)%nat; [rejected_alike|].
  destruct (delete_checks L H (validPaths (paths (params block))) ([], []) c) as [Hc _].
  apply check_of_validate in Hc.
  rewrite !trace_bind.
  set (chk := forOf _ _ _ c) in *.
  destruct (value chk) as [pfa dis].
  destruct (0 <? length dis)%nat.
  { run. apply Announces_same; [exact Hc | calm_list]. }
  run. apply Announces_ask, Hc.
Qed.

Lemma create_announces block c :
  Announces (trace (CreateDirectories.createDirectoriesTool L H (asPartial block true) c))
            (trace (CreateDirectories.createDirectoriesTool L H (asPartial block false) c)).
Proof.
  unfold CreateDirectories.createDirectoriesTool, asPartial. cbn [params partial].
  destruct (missingArray (paths (params block))); [rejected_alike|].
  destruct (length (validPaths (paths (params block))) =? 0)%nat; [rejected_alike|].
  run. apply (Announces_ask []). constructor.
Qed.

Lemma list_announces block c :
  Announces (trace (ListDirectories.listDirectoriesTool L H (asPartial block true) c))
            (trace (ListDirectories.listDirectoriesTool L H (asPartial block false) c)).
Proof.
  unfold ListDirectories.listDirectoriesTool, asPartial. cbn [params partial].
  destruct (missingArray (paths (params block))); [rejected_alike|].
  destruct (length (validPaths (paths (params block))) =? 0)%nat; [rejected_alike|].
  destruct (list_checks L H (validPaths (paths (params block))) c) as [Hc _].
  apply check_of_validate in Hc.
  rewrite !trace_bind.
  set (chk := mapM _ _ c) in *.
  destruct (0 <? length _)%nat.
  { run. apply Announces_same; [exact Hc | calm_list]. }
  run. apply Announces_ask, Hc.
Qed.

Lemma read_announces block c :
  Announces (trace (ReadFiles.readFilesTool L H (asPartial block true) c))
            (trace (ReadFiles.readFilesTool L H (asPartial block false) c)).
Proof.
  unfold ReadFiles.readFilesTool, asPartial. cbn [params partial].
  destruct (missingArray (paths (params block))); [rejected_alike|].
  destruct (length (validPaths (paths (params block))) =? 0)%nat; [rejected_alike|].
  destruct (ReadFiles.parseLine (start_line (params block))) as [startLine|];
    [|rejected_alike].
  destruct (ReadFiles.parseLine (end_line (params block))) as [endLine|];
    [|rejected_alike].
  destruct (ReadFiles.rangeInverted startLine endLine); [rejected_alike|].
  rewrite !trace_bind, !trace_doGetState. cbn [app].
  set (st := value (doGetState H c)).
  set (c0 := final (doGetState H c)).
  destruct (read_checks L H (validPaths (paths (params block))) c0) as [Hc _].
  apply check_of_validate in Hc.
  set (chk := mapM _ _ c0) in *.
  assert (Hpre : Forall (fun e => isCheck e = true) (EvGetState st :: trace chk)).
  { constructor; [reflexivity | exact Hc]. }
  destruct (0 <? length _)%nat.
  { run. rewrite !app_comm_cons. apply Announces_same; [exact Hpre | calm_list]. }
  run. rewrite !app_comm_cons. apply Announces_ask, Hpre.
Qed.

Lemma processItems_announces block its c :
  Announces (trace (WriteFiles.processItems L H (asPartial block true) its c))
            (trace (WriteFiles.processItems L H (asPartial block false) its c)).
Proof.
  unfold WriteFiles.processItems, asPartial. cbn [params partial].
  destruct (write_checks L H its ([], []) c) as [Hc _].
  apply check_of_validate in Hc.
  rewrite !trace_bind.
  set (chk := forOf _ _ _ c) in *.
  destruct (value chk) as [pfa dis].
  destruct (0 <? length dis)%nat.
  { run. apply Announces_same; [exact Hc | calm_list]. }
  rewrite !trace_bind.
  pose proof (fileStatuses_checks L H its (final chk)) as Hs.
  set (sts := mapM _ _ (final chk)) in *.
  run. rewrite !app_assoc. apply Announces_ask.
  apply Forall_app. auto.
Qed.

Lemma write_announces block c :
  Announces (trace (WriteFiles.writeFilesTool L H (asPartial block true) c))
            (trace (WriteFiles.writeFilesTool L H (asPartial block false) c)).
Proof.
  unfold WriteFiles.writeFilesTool. cbn [asPartial params].
  destruct (missingArray (items (params block))); [rejected_alike|].
  destruct (WriteFiles.validateFrom (arrayElems (items (params block))) 0 [] [])
    as [validItems errs].
  destruct (WriteFiles.hasCombinedError errs); [rejected_alike|].
  destruct (WriteFiles.selectItems (arrayElems (items (params block))) errs validItems)
    as [its|e].
  2:{ run. apply (Announces_same [] []); constructor. }
  destruct ((length its =? 0)%nat && (0 <? length (arrayElems (items (params block))))%nat);
    [rejected_alike|].
  run. rewrite !app_nil_r. apply processItems_announces.
Qed.

End PartialFacts.

(* ===================================================================== *)
(** ** Facts about the summaries *)
(* ===================================================================== *)

Lemma orElse_nonempty a b : b <> "" -> orElse a b <> "".
Proof.
  intros Hb. unfold orElse. destruct (a =? "")%string eqn:E; [exact Hb|].
  intros ->. discriminate.
Qed.

Lemma countStatus_cons s x l :
  countStatus s (x :: l) = (if sameStatus s x then 1 else 0) + countStatus s l.
Proof.
  unfold countStatus. cbn [filter]. destruct (sameStatus s x); cbn [length]; lia.
Qed.

Lemma countStatus_total l :
  countStatus st_success l + countStatus st_error l = Z.of_nat (length l).
Proof.
  induction l as [|x l IH]; [reflexivity|].
  rewrite !countStatus_cons. destruct x; cbn [sameStatus length]; lia.
Qed.

(** A report loop that counts an error for each result with a message
    and a success for each result without one, over results built as the
    loops build them. *)
Lemma fold_counts {R} (f : string * Z * Z -> R -> string * Z * Z)
    (st : R -> Status) (err : R -> option string) :
  (forall x s e r, Outcome (st r) (err r) ->
     snd (fst (f (x, s, e) r)) = s + (if sameStatus st_success (st r) then 1 else 0) /\
     snd (f (x, s, e) r) = e + (if sameStatus st_error (st r) then 1 else 0)) ->
  forall rs x s e, Forall (fun r => Outcome (st r) (err r)) rs ->
    snd (fst (fold_left f rs (x, s, e))) = s + countStatus st_success (map st rs) /\
    snd (fold_left f rs (x, s, e)) = e + countStatus st_error (map st rs).
Proof.
  intros Hf rs. induction rs as [|r rs IH]; intros x s e Hrs.
  - cbn. unfold countStatus. cbn. lia.
  - inversion Hrs as [|? ? Hr Hrest]; subst. cbn [fold_left map].
    destruct (Hf x s e r Hr) as [E1 E2].
    destruct (f (x, s, e) r) as [[x' s'] e'] eqn:Ef. cbn [fst snd] in E1, E2.
    destruct (IH x' s' e' Hrest) as [I1 I2].
    rewrite I1, I2, !countStatus_cons, E1, E2. lia.
Qed.

Ltac count_step :=
  intros x s e r [[Hs He] | [Hs (msg & He & Hn)]];
  cbn; rewrite Hs, He; cbn;
  [ split; lia
  | destruct (msg =? "")%string eqn:E;
    [apply String.eqb_eq in E; contradiction | cbn; split; lia] ].

Lemma delete_counts rs :
  Forall (fun r => Outcome (DeleteItems.status r) (DeleteItems.error r)) rs ->
  snd (fst (DeleteItems.formatResults rs)) = countStatus st_success (map DeleteItems.status rs) /\
  snd (DeleteItems.formatResults rs) = countStatus st_error (map DeleteItems.status rs).
Proof.
  intros Hrs. unfold DeleteItems.formatResults.
  destruct (fold_counts DeleteItems.formatItem DeleteItems.status DeleteItems.error
              ltac:(count_step) rs ("<deletion_results>" ^^ nl) 0 0 Hrs) as [E1 E2].
  destruct (fold_left _ _ _) as [[x s] e]. cbn [fst snd] in *. lia.
Qed.

Lemma create_counts rs :
  Forall (fun r => Outcome (CreateDirectories.status r) (CreateDirectories.error r)) rs ->
  snd (fst (CreateDirectories.formatResults rs)) =
    countStatus st_success (map CreateDirectories.status rs) /\
  snd (CreateDirectories.formatResults rs) =
    countStatus st_error (map CreateDirectories.status rs).
Proof.
  intros Hrs. unfold CreateDirectories.formatResults.
  destruct (fold_counts CreateDirectories.formatItem CreateDirectories.status
              CreateDirectories.error ltac:(count_step) rs ("<creation_results>" ^^ nl) 0 0 Hrs)
    as [E1 E2].
  destruct (fold_left _ _ _) as [[x s] e]. cbn [fst snd] in *. lia.
Qed.

Lemma write_counts rs :
  Forall (fun r => Outcome (WriteFiles.status r) (WriteFiles.error r)) rs ->
  snd (fst (WriteFiles.formatResults rs)) = countStatus st_success (map WriteFiles.status rs) /\
  snd (WriteFiles.formatResults rs) = countStatus st_error (map WriteFiles.status rs).
Proof.
  intros Hrs. unfold WriteFiles.formatResults.
  destruct (fold_counts WriteFiles.formatItem WriteFiles.status WriteFiles.error
              ltac:(count_step) rs ("<write_results>" ^^ nl) 0 0 Hrs) as [E1 E2].
  destruct (fold_left _ _ _) as [[x s] e]. cbn [fst snd] in *. lia.
Qed.

Lemma Forall2_right {A B} (P : B -> Prop) (xs : list A) (ys : list B) :
  Forall2 (fun _ y => P y) xs ys -> Forall P ys.
Proof. induction 1; constructor; auto. Qed.

Section OutcomeFacts.
Context (L : Imports) {Env : Type} (H : Host Env).

Lemma unknown_error_nonempty m : orElse m "Unknown error" <> "".
Proof. apply orElse_nonempty. discriminate. Qed.

Lemma delete_outcomes xs chunks rs :
  Runs (DeleteItems.deleteItem L H) xs chunks rs ->
  Forall (fun r => Outcome (DeleteItems.status r) (DeleteItems.error r)) rs.
Proof.
  intros HR. eapply Forall2_right, Runs_results; [|exact HR].
  intros x acc c r Hv. cbv beta.
  destruct (deleteItem_run L H x acc c) as (out & _ & Hv').
  rewrite Hv in Hv'. apply app_inv_head in Hv'. inversion Hv' as [Hr]. clear Hv'.
  destruct out as [u|err]; cbn; [left; auto|]. right. split; [reflexivity|].
  eexists. split; [reflexivity|].
  destruct (isFileNotFound err); [discriminate | apply unknown_error_nonempty].
Qed.

Lemma create_outcomes xs chunks rs :
  Runs (CreateDirectories.createItem L H) xs chunks rs ->
  Forall (fun r => Outcome (CreateDirectories.status r) (CreateDirectories.error r)) rs.
Proof.
  intros HR. eapply Forall2_right, Runs_results; [|exact HR].
  intros x acc c r Hv. cbv beta.
  destruct (createItem_run L H x acc c) as (out & _ & Hv').
  rewrite Hv in Hv'. apply app_inv_head in Hv'. inversion Hv' as [Hr]. clear Hv'.
  destruct out as [u|err]; cbn; [left; auto|]. right. split; [reflexivity|].
  eexists. split; [reflexivity | apply unknown_error_nonempty].
Qed.

Lemma write_outcomes xs chunks rs :
  Runs (WriteFiles.writeItem L H) xs chunks rs ->
  Forall (fun r => Outcome (WriteFiles.status r) (WriteFiles.error r)) rs.
Proof.
  intros HR. eapply Forall2_right, Runs_results; [|exact HR].
  intros x acc c r Hv. cbv beta.
  destruct (writeItem_run L H x acc c) as (_ & Hv').
  rewrite Hv in Hv'. apply app_inv_head in Hv'. inversion Hv' as [Hr]. clear Hv'.
  destruct (value (WriteFiles.writeOne L H x c)) as [u|err]; cbn; [left; auto|].
  right. split; [reflexivity|].
  eexists. split; [reflexivity | apply unknown_error_nonempty].
Qed.
End OutcomeFacts.

Lemma loop_event_no_say e : inGuardedLoop e = true -> isSay e = false.
Proof. destruct e; cbn; congruence. Qed.

Lemma check_no_say e : isCheck e = true -> isSay e = false.
Proof. destruct e; cbn; congruence. Qed.

Lemma loop_event_no_push e : inGuardedLoop e = true -> isPush e = false.
Proof. destruct e; cbn; congruence. Qed.

Section ExactRun.
Context (L : Imports) {Env : Type} (H : Host Env).

(** The anatomy of an approved run, with the closing words. *)
Lemma approved_run_exact name block c content :
  In (EvAskApproval content true) (trace (runTool L H name block c)) ->
  exists pre lead chunks rep,
    trace (runTool L H name block c) =
      pre ++ EvAskApproval content true :: lead ++ concat chunks ++ closingWords rep
          ++ [EvPushToolResult (reportText rep)] /\
    Forall (fun e => isCheck e = true) pre /\
    Forall (fun e => isCheck e = true) lead /\
    LoopOf L H name block chunks rep /\
    wellFormed rep.
Proof.
  intros Hin.
  destruct (Shape_approved _ (ToolMid_asks_no_more L H name block) _ _
              (runTool_shape L H name block c) Hin) as (pre & mid & E & Hpre & Hmid).
  rewrite E. exists pre.
  destruct name; cbn [ToolMid] in Hmid.
  - destruct Hmid as (m & s & e & chunks & rs & Hs & He & HR & ->).
    exists [], chunks, (ReadReport m rs). cbn [app reportText closingWords].
    repeat split; auto. cbn. eauto.
  - destruct Hmid as (its & Hits & chunks & rs & HR & ->).
    exists [], chunks, (WriteReport rs). cbn [app reportText closingWords].
    repeat split; auto; [cbn; eauto | eapply write_outcomes, HR].
  - destruct Hmid as (st & rf & sh & chunks & rs & HR & ->).
    exists [EvGetState st], chunks, (ListReport rs). cbn [app reportText closingWords].
    repeat split; auto. cbn. eauto.
  - destruct Hmid as (chunks & rs & HR & ->).
    exists [], chunks, (CreateReport rs). cbn [app reportText closingWords].
    repeat split; auto. eapply create_outcomes, HR.
  - destruct Hmid as (chunks & rs & HR & ->).
    exists [], chunks, (DeleteReport rs). cbn [app reportText closingWords].
    repeat split; auto. eapply delete_outcomes, HR.
Qed.

(** The closing words carry the numbers of successes and failures. *)
Lemma closingWords_count rep :
  wellFormed rep ->
  closingWords rep =
    match summaryOf (reportTool rep) (countStatus st_success (reportStatuses rep))
            (countStatus st_error (reportStatuses rep)) with
    | Some text => [EvSay "text" text]
    | None => []
    end.
Proof.
  destruct rep as [m rs|rs|rs|rs|rs]; cbn [wellFormed closingWords reportTool summaryOf
                                            reportStatuses]; intros Hw; try reflexivity.
  - destruct (write_counts rs Hw) as [-> ->]. reflexivity.
  - destruct (create_counts rs Hw) as [-> ->]. reflexivity.
  - destruct (delete_counts rs Hw) as [-> ->]. reflexivity.
Qed.

Lemma Outcome_rows {R} (st : R -> Status) (path : R -> string) (err : R -> option string) rs :
  Forall (fun r => Outcome (st r) (err r)) rs ->
  Forall2 (fun s row => s = st_success <-> snd row = None)
          (map st rs) (map (fun r => (path r, err r)) rs).
Proof.
  induction 1 as [|r rs Hr _ IH]; cbn [map]; constructor; [|exact IH].
  cbn [snd]. destruct Hr as [[-> ->] | [-> (e & -> & _)]]; split; intros; congruence.
Qed.

Lemma wellFormed_rows rep :
  wellFormed rep -> summaryOf (reportTool rep) 0 0 <> None ->
  Forall2 (fun s row => s = st_success <-> snd row = None)
          (reportStatuses rep) (reportRows rep).
Proof.
  destruct rep as [m rs|rs|rs|rs|rs]; cbn [wellFormed reportTool summaryOf reportStatuses
                                            reportRows]; intros Hw Hs;
    try apply Outcome_rows; try assumption; contradiction.
Qed.
End ExactRun.

(* ===================================================================== *)
(** ** Facts about the iterations of the list and read loops *)
(* ===================================================================== *)

Ltac run_in H := autorewrite with run in H; cbn [app] in H.

Section IterationFacts.
Context (L : Imports) {Env : Type} (H : Host Env).

Lemma guardAccess_cases p c :
  (trace (guardAccess L H p c) = [EvValidateAccess p false] /\
   value (guardAccess L H p c) = Rejected (refusal L p))
  \/ (passedGuard H p (trace (guardAccess L H p c)) /\
      value (guardAccess L H p c) = Fulfilled tt).
Proof.
  destruct (guardAccess_run L H p c) as [[Et Ev] | [[Et Ev] | (Hn & Et & Ev)]].
  - left. auto.
  - right. rewrite Et. split; [left; reflexivity | exact Ev].
  - right. rewrite Et. split; [right; auto | exact Ev].
Qed.

Lemma listItem_outcome rf sh p acc c r :
  value (ListDirectories.listItem L H rf sh p acc c) = acc ++ [r] ->
  ListOutcome L H rf p (trace (ListDirectories.listItem L H rf sh p acc c)) r.
Proof.
  unfold ListDirectories.listItem, ListDirectories.listOne, ListOutcome. cbv zeta.
  rewrite trace_bind, value_bind, trace_andThen, value_andThen.
  destruct (guardAccess_cases p c) as [[Et Ev] | [Hg Ev]]; rewrite Ev.
  - rewrite Et. run. intros Hv. apply app_inv_head in Hv. inversion Hv. left. auto.
  - set (c1 := final (guardAccess L H p c)).
    set (guard := trace (guardAccess L H p c)) in *.
    unfold ListDirectories.listContent.
    set (a := path_resolve L (cwd H) p).
    rewrite trace_andThen, value_andThen, trace_call, value_call.
    set (listed := fst (listFiles H a rf 200 (env c1))).
    intros Hv. right. exists guard, listed. split; [exact Hg|].
    destruct listed as [[files hit]|err].
    + rewrite trace_andThen, value_andThen, trace_call, value_call in *.
      match goal with |- context [fst (formatFilesList H a files hit sh ?e)] =>
        set (formatted := fst (formatFilesList H a files hit sh e)) in * end.
      exists formatted. destruct formatted as [text|err]; run; run_in Hv;
        apply app_inv_head in Hv; inversion Hv; rewrite <- ?app_assoc; cbn [app]; auto.
    + run. run_in Hv. apply app_inv_head in Hv. inversion Hv.
      rewrite <- ?app_assoc. cbn [app]. auto.
Qed.

Lemma readItem_range_outcome s e m p acc c r :
  value (ReadFiles.readItem L H true s e m p acc c) = acc ++ [r] ->
  RangeOutcome L H s e p (trace (ReadFiles.readItem L H true s e m p acc c)) r.
Proof.
  destruct (readItem_unfold L H true s e m p acc c) as [-> ->].
  unfold ReadFiles.readOne, RangeOutcome. cbv zeta.
  rewrite trace_andThen, value_andThen.
  destruct (guardAccess_cases p c) as [[Et Ev] | [Hg Ev]]; rewrite Ev.
  - rewrite Et. run. intros Hv. apply app_inv_head in Hv. inversion Hv. left. auto.
  - set (c1 := final (guardAccess L H p c)).
    set (guard := trace (guardAccess L H p c)) in *.
    unfold ReadFiles.readContent.
    set (a := path_resolve L (cwd H) p).
    rewrite trace_bind, value_bind.
    destruct (countLines_run H a c1) as (counted & Etc & Evc). rewrite Etc, Evc.
    set (c2 := final (ReadFiles.countLines H a c1)).
    rewrite trace_bind, value_bind.
    destruct (detectBinary_run H a c2) as (binary & Etb & Evb). rewrite Etb, ?Evb.
    set (c3 := final (ReadFiles.detectBinary H a c2)).
    unfold ReadFiles.doReadLines.
    rewrite trace_andThen, value_andThen, trace_call, value_call.
    set (lines := fst (readLines H a e s (env c3))).
    intros Hv. right. exists guard, counted, binary, lines. split; [exact Hg|].
    unfold probes, countedLines.
    destruct lines as [text|err]; run; run_in Hv; apply app_inv_head in Hv; inversion Hv;
      rewrite <- ?app_assoc; cbn [app]; rewrite <- ?app_assoc; cbn [app]; auto.
Qed.

Lemma readItem_plain_outcome m p acc c r :
  value (ReadFiles.readItem L H false None None m p acc c) = acc ++ [r] ->
  PlainOutcome L H m p (trace (ReadFiles.readItem L H false None None m p acc c)) r.
Proof.
  destruct (readItem_unfold L H false None None m p acc c) as [-> ->].
  unfold ReadFiles.readOne, PlainOutcome. cbv zeta.
  rewrite trace_andThen, value_andThen.
  destruct (guardAccess_cases p c) as [[Et Ev] | [Hg Ev]]; rewrite Ev.
  - rewrite Et. run. intros Hv. apply app_inv_head in Hv. inversion Hv. left. auto.
  - set (c1 := final (guardAccess L H p c)).
    set (guard := trace (guardAccess L H p c)) in *.
    destruct (readContent_plain L H m p c1) as (counted & binary & Hplain).
    cbv zeta in Hplain.
    intros Hv. right. exists guard, counted, binary. split; [exact Hg|].
    unfold truncates, detectedBinary, countedLines, probes.
    destruct (negb _ && _ && _).
    + destruct Hplain as (head & defs & first & Et & Hh & Ev').
      rewrite Et, Ev' in *. exists head, defs. cbv zeta. split; [exact Hh|].
      destruct head as [h|headErr], defs as [d|defsErr]; cbn [awaitedBoth] in *;
        apply app_inv_head in Hv; inversion Hv;
        rewrite <- ?app_assoc; cbn [app]; rewrite <- ?app_assoc; cbn [app];
        rewrite ?app_nil_r; auto.
      split; [reflexivity|]. destruct first; auto.
    + destruct Hplain as (text & Et & Ev').
      rewrite Et, Ev' in *. exists text.
      destruct text as [t|err]; apply app_inv_head in Hv; inversion Hv;
        rewrite <- ?app_assoc; cbn [app]; rewrite <- ?app_assoc; cbn [app];
        rewrite ?app_nil_r; auto.
Qed.

Lemma list_shape_exact block c :
  Shape (ListExact L H block) (trace (ListDirectories.listDirectoriesTool L H block c)).
Proof.
  unfold ListDirectories.listDirectoriesTool. fold (recursiveOf block).
  destruct (missingArray (paths (params block))).
  { left. run. quiet_list. }
  destruct (length (validPaths (paths (params block))) =? 0)%nat.
  { left. run. quiet_list. }
  rewrite trace_bind.
  set (chk := mapM _ _ c).
  destruct (list_checks L H (validPaths (paths (params block))) c) as [Hc Hd].
  fold chk in Hc, Hd.
  destruct (0 <? length _)%nat.
  { left. run. apply Forall_app. split.
    - apply quiet_of_check, check_of_validate, Hc.
    - quiet_list. }
  destruct (partial block).
  { left. run. apply Forall_app. split.
    - apply quiet_of_check, check_of_validate, Hc.
    - quiet_list. }
  run.
  set (c1 := final (resetMistakes (final chk))).
  match goal with |- context [doAskApproval H ?ct c1] => set (content := ct) end.
  destruct (value (doAskApproval H content c1)) eqn:Eans; cbn [negb].
  - right. right. run.
    set (c2 := final (doAskApproval H content c1)).
    set (st := value (doGetState H c2)).
    fold (showIgnoredOf st).
    destruct (forOf_runs _ (listItem_pushes L H (recursiveOf block) (showIgnoredOf st))
                (validPaths (paths (params block))) [] (final (doGetState H c2)))
      as (chunks & rs & Ht & Hv & HR).
    exists (trace chk), content,
      (EvGetState st :: concat chunks ++
         [EvPushToolResult (ListDirectories.formatResults rs)]).
    split; [|split].
    + rewrite Ht, Hv. reflexivity.
    + apply check_of_validate, Hc.
    + exists st, chunks, rs. auto.
  - right. left. exists (trace chk), content.
    run. split; [reflexivity|]. apply check_of_validate, Hc.
Qed.

Lemma ListExact_asks_no_more block mid :
  ListExact L H block mid -> Forall (fun e => isApproval e = false) mid.
Proof.
  intros (st & chunks & rs & HR & ->).
  apply (ToolMid_asks_no_more L H list_directories block). cbn [ToolMid].
  exists st, (recursiveOf block), (showIgnoredOf st), chunks, rs. auto.
Qed.
End IterationFacts.

Lemma parseLine_absent str startLine :
  truthyStr str = false -> ReadFiles.parseLine str = Some startLine -> startLine = None.
Proof. unfold ReadFiles.parseLine. intros ->. congruence. Qed.

(* ===================================================================== *)
(** ** Facts about a read without a range, by the configured maximum *)
(* ===================================================================== *)

Lemma string_append_assoc (a b c : string) : (a ^^ b) ^^ c = a ^^ b ^^ c.
Proof. induction a as [|ch a IH]; cbn; [|rewrite IH]; reflexivity. Qed.

Section MaximumFacts.
Context (L : Imports) {Env : Type} (H : Host Env).





End MaximumFacts.

(* ===================================================================== *)
(** ** Facts about the validation of the write tool *)
(* ===================================================================== *)

Section ValidationMore.
Import WriteFiles.

Lemma app_nonempty {A} (l : list A) x : (length (l ++ [x]) =? 0)%nat = false.
Proof. rewrite length_app. cbn. destruct (length l); reflexivity. Qed.

(** Once an error has been recorded nothing more is collected. *)
Lemma validateFrom_stuck itemsInput i valid errs :
  errs <> [] -> fst (validateFrom itemsInput i valid errs) = valid.
Proof.
  revert i valid errs. induction itemsInput as [|item rest IH]; intros i valid errs He;
    [reflexivity|].
  assert (Hgrow : forall (l : list string) x, l ++ [x] <> []).
  { intros l x E. destruct l; discriminate. }
  assert (Hlen : forall l : list string, l <> [] -> (length l =? 0)%nat = false).
  { intros [|x l] Hl; [contradiction | reflexivity]. }
  cbn [validateFrom].
  destruct (negb (truthy item) || negb (typeofObject item)); [apply IH, Hgrow|].
  cbv zeta.
  destruct (isNonBlankString (propOf item "path")); cbn [negb];
    destruct (isString (propOf item "content")); cbn [negb];
    rewrite ?Hlen by auto; cbn [andb]; try reflexivity; apply IH; auto.
Qed.

Lemma entryValid_step item rest i valid :
  entryValid item = true ->
  validateFrom (item :: rest) i valid [] = validateFrom rest (S i) (valid ++ [toItem item]) [].
Proof.
  unfold entryValid. intros Hv.
  apply andb_prop in Hv. destruct Hv as [Hv Hc].
  apply andb_prop in Hv. destruct Hv as [Hv Hp].
  apply andb_prop in Hv. destruct Hv as [Ht Ho].
  cbn [validateFrom]. rewrite Ht, Ho, Hp, Hc. reflexivity.
Qed.

Lemma entryInvalid_step item rest i valid :
  entryValid item = false -> fst (validateFrom (item :: rest) i valid []) = valid.
Proof.
  unfold entryValid. intros Hv. cbn [validateFrom].
  destruct (truthy item); cbn [negb orb];
    [|apply validateFrom_stuck; discriminate].
  destruct (typeofObject item); cbn [negb orb];
    [|apply validateFrom_stuck; discriminate].
  cbn [andb] in Hv. cbv zeta.
  destruct (isNonBlankString (propOf item "path")); cbn [negb andb app] in *.
  - rewrite Hv. cbn [negb app length Nat.eqb andb].
    apply validateFrom_stuck. discriminate.
  - destruct (isString (propOf item "content")); cbn [negb app length Nat.eqb andb];
      [apply validateFrom_stuck; discriminate | reflexivity].
Qed.

(** The valid items are the entries before the first invalid one. *)
Lemma validateFrom_prefix itemsInput i valid :
  fst (validateFrom itemsInput i valid []) = valid ++ map toItem (validPrefix itemsInput).
Proof.
  revert i valid. induction itemsInput as [|item rest IH]; intros i valid.
  - cbn. rewrite app_nil_r. reflexivity.
  - cbn [validPrefix]. destruct (entryValid item) eqn:Ev.
    + rewrite (entryValid_step _ _ _ _ Ev), IH, <- app_assoc. reflexivity.
    + rewrite (entryInvalid_step _ _ _ _ Ev). cbn. rewrite app_nil_r. reflexivity.
Qed.

Lemma validateFrom_clean itemsInput i valid :
  forallb entryValid itemsInput = true ->
  validateFrom itemsInput i valid [] = (valid ++ map toItem itemsInput, []).
Proof.
  revert i valid. induction itemsInput as [|item rest IH]; intros i valid Hv.
  - cbn. rewrite app_nil_r. reflexivity.
  - cbn [forallb] in Hv. apply andb_prop in Hv. destruct Hv as [Hi Hr].
    rewrite (entryValid_step _ _ _ _ Hi), (IH _ _ Hr), <- app_assoc. reflexivity.
Qed.

Lemma selectItems_clean itemsInput valid :
  selectItems itemsInput [] valid = Fulfilled valid.
Proof.
  induction valid as [|it valid IH]; [reflexivity|].
  cbn [selectItems blamed]. rewrite IH. reflexivity.
Qed.

(** The filter of lines 77-85 keeps a part of the valid items, in
    order. *)
Lemma selectItems_filter itemsInput errs valid its :
  selectItems itemsInput errs valid = Fulfilled its ->
  exists keep, its = filter keep valid.
Proof.
  intros E.
  exists (fun it => match blamed itemsInput it errs with
                    | Fulfilled b => negb b
                    | Rejected _ => false
                    end).
  revert its E. induction valid as [|it valid IH]; intros its E; cbn in E.
  - inversion E. reflexivity.
  - destruct (blamed itemsInput it errs) as [b|] eqn:Eb; [|discriminate].
    destruct (selectItems itemsInput errs valid) as [keep|]; [|discriminate].
    inversion E. cbn [filter]. rewrite Eb, <- (IH keep eq_refl).
    destruct b; reflexivity.
Qed.
End ValidationMore.

(* ===================================================================== *)
(** ** Facts about the occurrences of a phrase *)
(* ===================================================================== *)

Lemma differs_prefix s n x : differs s n = true -> String.prefix n (s ^^ x) = false.
Proof.
  revert n. induction s as [|a s IH]; intros n Hd; [discriminate|].
  destruct n as [|b n]; [discriminate|]. cbn in Hd |- *.
  destruct (ascii_dec b a) as [->|Hne].
  - rewrite Ascii.eqb_refl in Hd. cbn in Hd. apply IH, Hd.
  - reflexivity.
Qed.

Lemma noOverlap_includes a n x : noOverlap a n = true -> includes (a ^^ x) n = includes x n.
Proof.
  induction a as [|ch a IH]; intros Hn; [reflexivity|].
  cbn [noOverlap] in Hn. apply andb_prop in Hn. destruct Hn as [Hd Hr].
  change (String ch a ^^ x) with (String ch (a ^^ x)). cbn [includes].
  change (String ch (a ^^ x)) with (String ch a ^^ x).
  rewrite (differs_prefix _ _ x Hd), (IH Hr). reflexivity.
Qed.

Lemma lacks_includes c d n x :
  lacks c d = true -> includes (d ^^ x) (String c n) = includes x (String c n).
Proof.
  induction d as [|ch d IH]; intros Hl; [reflexivity|].
  cbn [lacks] in Hl. apply andb_prop in Hl. destruct Hl as [Hc Hr].
  change (String ch d ^^ x) with (String ch (d ^^ x)). cbn [includes String.prefix].
  destruct (ascii_dec c ch) as [->|Hne].
  - rewrite Ascii.eqb_refl in Hc. discriminate.
  - rewrite (IH Hr). reflexivity.
Qed.

Lemma lacks_app c a b : lacks c a = true -> lacks c b = true -> lacks c (a ^^ b) = true.
Proof.
  induction a as [|ch a IH]; intros Ha Hb; [exact Hb|].
  cbn [lacks] in Ha. apply andb_prop in Ha. destruct Ha as [Hc Hr].
  cbn. rewrite Hc, (IH Hr Hb). reflexivity.
Qed.

(** A number in decimal holds no letter. *)
Lemma lacks_uint d : lacks "m" (NilEmpty.string_of_uint d) = true.
Proof. induction d; cbn; auto. Qed.

Lemma lacks_number z : lacks "m" (numToString z) = true.
Proof.
  unfold numToString, NilZero.string_of_int, NilZero.string_of_uint.
  destruct (Z.to_int z) as [d|d].
  - destruct d; try reflexivity; apply (lacks_uint (_ d)) || cbn; auto using lacks_uint.
  - cbn [lacks]. destruct d; try reflexivity; cbn; auto using lacks_uint.
Qed.

Section PhraseFacts.
Import WriteFiles.

Lemma error_phrases i suffix :
  bothPhrases suffix = false -> bothPhrases (atIndex i ^^ suffix) = false.
Proof.
  unfold bothPhrases, atIndex. intros Hs.
  rewrite !string_append_assoc.
  repeat (rewrite (noOverlap_includes "Item at index ") by (vm_compute; reflexivity)).
  repeat (rewrite lacks_includes by apply lacks_number).
  exact Hs.
Qed.

(** No validation error holds both phrases. *)
Lemma validateFrom_errors itemsInput i valid errs :
  Forall (fun err => bothPhrases err = false) errs ->
  Forall (fun err => bothPhrases err = false) (snd (validateFrom itemsInput i valid errs)).
Proof.
  revert i valid errs. induction itemsInput as [|item rest IH]; intros i valid errs He;
    [exact He|].
  assert (Hgrow : forall l suffix,
            Forall (fun err => bothPhrases err = false) l ->
            bothPhrases suffix = false ->
            Forall (fun err => bothPhrases err = false) (l ++ [atIndex i ^^ suffix])).
  { intros l suffix Hl Hs. apply Forall_app. split; [exact Hl|].
    constructor; [apply error_phrases, Hs | constructor]. }
  cbn [validateFrom].
  destruct (negb (truthy item) || negb (typeofObject item));
    [apply IH, Hgrow; [exact He | reflexivity]|].
  cbv zeta.
  destruct (isNonBlankString (propOf item "path")); cbn [negb];
    destruct (isString (propOf item "content")); cbn [negb andb];
    rewrite ?andb_false_r, ?andb_true_r;
    try match goal with |- context [if ?b then _ else _] => destruct b end;
    try apply IH; repeat apply Hgrow; auto.
Qed.

Lemma hasCombinedError_never itemsInput i valid :
  hasCombinedError (snd (validateFrom itemsInput i valid [])) = false.
Proof.
  pose proof (validateFrom_errors itemsInput i valid [] (Forall_nil _)) as He.
  unfold hasCombinedError. apply andb_false_iff. right.
  induction He as [|err errs Herr _ IH]; [reflexivity|].
  cbn [existsb]. unfold bothPhrases in Herr. rewrite Herr, IH. reflexivity.
Qed.
End PhraseFacts.

Section WriteIterations.
Import WriteFiles.
Context (L : Imports) {Env : Type} (H : Host Env).

Lemma writeItem_outcome item acc c r :
  value (writeItem L H item acc c) = acc ++ [r] ->
  WriteOutcome L H item (trace (writeItem L H item acc c)) r.
Proof.
  destruct (writeItem_run L H item acc c) as [-> ->].
  unfold WriteOutcome, writeOne, needsParent. cbv zeta.
  set (a := path_resolve L (cwd H) (path item)).
  set (dir := path_dirname L a).
  rewrite trace_andThen, value_andThen.
  destruct (negb (dir =? a)%string && negb (dir =? cwd H)%string && negb (dir =? ".")%string).
  - rewrite trace_call, value_call.
    set (made := fst (fs_createDirectory H dir (env c))).
    intros Hv. exists made. destruct made as [u|err].
    + rewrite trace_call, value_call in *.
      match goal with |- context [fst (fs_writeFile H a ?p ?e)] =>
        set (written := fst (fs_writeFile H a p e)) in * end.
      exists written. destruct written as [v|err];
        apply app_inv_head in Hv; inversion Hv; cbn [app]; auto.
    + apply app_inv_head in Hv. inversion Hv. cbn [app]. auto.
  - rewrite trace_ret, value_ret, trace_call, value_call.
    match goal with |- context [fst (fs_writeFile H a ?p ?e)] =>
      set (written := fst (fs_writeFile H a p e)) in * end.
    intros Hv. exists (Fulfilled tt), written.
    destruct written as [v|err]; apply app_inv_head in Hv; inversion Hv; cbn [app]; auto.
Qed.
End WriteIterations.

(* ===================================================================== *)
(** ** Facts about what the write tool goes on with *)
(* ===================================================================== *)

Lemma missingArray_nonempty v : missingArray v = false -> arrayElems v <> [].
Proof.
  unfold missingArray. intros Hm E. rewrite E in Hm. cbn in Hm.
  rewrite orb_true_r in Hm. discriminate.
Qed.

Lemma nonempty_length {A} (l : list A) :
  l <> [] -> (length l =? 0)%nat = false /\ (0 <? length l)%nat = true.
Proof. destruct l; [contradiction | auto]. Qed.

Lemma prefix_refl s : String.prefix s s = true.
Proof.
  induction s as [|ch s IH]; [reflexivity|]. cbn.
  destruct (ascii_dec ch ch); [exact IH | contradiction].
Qed.

Lemma Runs_In {Env A R} (body : A -> list R -> M Env (list R)) xs chunks rs e :
  Runs body xs chunks rs -> In e (concat chunks) ->
  exists x acc c r, In x xs /\ value (body x acc c) = acc ++ [r] /\
                    In e (trace (body x acc c)).
Proof.
  induction 1 as [|x xs acc c r chunks rs Hv HR IH]; cbn; [contradiction|].
  intros Hin. apply in_app_or in Hin. destruct Hin as [Hin | Hin].
  - exists x, acc, c, r. auto.
  - destruct (IH Hin) as (x' & acc' & c' & r' & Hx & Hv' & He).
    exists x', acc', c', r'. auto.
Qed.

Section WriteSelection.
Import WriteFiles.
Context (L : Imports) {Env : Type} (H : Host Env).

Lemma itemsToProcess_clean block :
  missingArray (items (params block)) = false ->
  forallb entryValid (arrayElems (items (params block))) = true ->
  itemsToProcess block = Some (map toItem (arrayElems (items (params block)))).
Proof.
  intros Hm Hv. unfold itemsToProcess. rewrite Hm.
  rewrite (validateFrom_clean _ 0 [] Hv). cbn [app hasCombinedError length Nat.ltb Nat.leb andb].
  rewrite selectItems_clean.
  destruct (nonempty_length _ (missingArray_nonempty _ Hm)) as [E0 _].
  rewrite length_map, E0. reflexivity.
Qed.

Lemma itemsToProcess_prefix block its :
  itemsToProcess block = Some its ->
  exists keep, its = filter keep (map toItem (validPrefix (arrayElems (items (params block))))).
Proof.
  unfold itemsToProcess.
  destruct (missingArray _); [discriminate|].
  pose proof (validateFrom_prefix (arrayElems (items (params block))) 0 []) as Hp.
  destruct (validateFrom _ 0 [] []) as [valid errs]. cbn [fst app] in Hp.
  destruct (hasCombinedError errs); [discriminate|].
  destruct (selectItems _ errs valid) as [sel|] eqn:Es; [|discriminate].
  destruct (_ && _); [discriminate|].
  intros E. inversion E; subst. eapply selectItems_filter, Es.
Qed.

(** A write call of the loop is the write of its item. *)
Lemma writeItem_writes item acc c uri payload out :
  In (EvFsWriteFile uri payload out) (trace (writeItem L H item acc c)) ->
  uri = path_resolve L (cwd H) (path item) /\ payload = encode (content item).
Proof.
  destruct (writeItem_pushes L H item acc c) as [r Hv].
  destruct (writeItem_outcome L H item acc c r Hv) as (made & Ho). cbv zeta in Ho.
  assert (Hlead : forall l, In (EvFsWriteFile uri payload out)
            ((if needsParent L H item
              then [EvFsCreateDirectory (path_dirname L (path_resolve L (cwd H) (path item))) made]
              else []) ++ l) -> In (EvFsWriteFile uri payload out) l).
  { intros l Hin. apply in_app_or in Hin. destruct Hin as [Hin | Hin]; [|exact Hin].
    destruct (needsParent L H item); [destruct Hin as [E | []]; discriminate | destruct Hin]. }
  destruct made as [u|err].
  - destruct Ho as (written & Ho).
    destruct written as [v|err]; destruct Ho as [-> _]; intros Hin; apply Hlead in Hin;
      destruct Hin as [E | Hin]; try (inversion E; auto);
      cbn in Hin; intuition discriminate.
  - destruct Ho as (_ & -> & _). intros Hin. apply Hlead in Hin.
    cbn in Hin. intuition discriminate.
Qed.

(** The anatomy of an approved write. *)
Lemma write_anatomy block c content :
  In (EvAskApproval content true) (trace (runTool L H write_files block c)) ->
  exists pre its chunks results,
    trace (runTool L H write_files block c) =
      pre ++ EvAskApproval content true :: concat chunks
          ++ closingWords (WriteReport results)
          ++ [EvPushToolResult (reportText (WriteReport results))] /\
    Forall (fun e => isCheck e = true) pre /\
    itemsToProcess block = Some its /\
    Runs (writeItem L H) its chunks results.
Proof.
  intros Hin.
  destruct (Shape_approved _ (ToolMid_asks_no_more L H write_files block) _ _
              (runTool_shape L H write_files block c) Hin)
    as (pre & mid & E & Hpre & its & Hits & chunks & rs & HR & ->).
  exists pre, its, chunks, rs. auto.
Qed.

Lemma processItems_rejects_nothing block its :
  Emits (fun e => negb (isRejection e)) (processItems L H block its).
Proof.
  unfold processItems, checkItem, fileStatus, writeItem, writeOne. emits.
Qed.
End WriteSelection.

(* ===================================================================== *)
(** ** Every item is attempted and its outcome recorded *)
(* ===================================================================== *)

Lemma Forall2_rows {A R K Row} (key : A -> K) (view : R -> Row)
    (P : A -> list Event -> R -> Prop) (Q : K -> list Event -> Row -> Prop) :
  (forall x chunk r, P x chunk r -> Q (key x) chunk (view r)) ->
  forall xs chunks rs,
    Forall2 (fun x cr => P x (fst cr) (snd cr)) xs (combine chunks rs) ->
    Forall2 (fun k cr => Q k (fst cr) (snd cr)) (map key xs) (combine chunks (map view rs)).
Proof.
  intros HPQ xs. induction xs as [|x xs IH]; intros chunks rs HF.
  - inversion HF as [E|]. destruct chunks, rs; try discriminate; constructor.
  - destruct chunks as [|chunk chunks], rs as [|r rs]; try (inversion HF; fail).
    inversion HF as [|? ? ? ? Hx Hrest]. subst. cbn. constructor.
    + apply HPQ. exact Hx.
    + apply IH. exact Hrest.
Qed.

Section RecordedFacts.
Context (L : Imports) {Env : Type} (H : Host Env).

Lemma deleteItem_outcome p acc c r :
  value (DeleteItems.deleteItem L H p acc c) = acc ++ [r] ->
  DeleteOutcome L H p (trace (DeleteItems.deleteItem L H p acc c)) r.
Proof.
  intros Hv. destruct (deleteItem_run L H p acc c) as (out & Et & Hv').
  rewrite Hv in Hv'. apply app_inv_head in Hv'. inversion Hv' as [Hr]. clear Hv'.
  rewrite Et. exists out.
  destruct out as [u|err]; [auto|]. destruct (isFileNotFound err); auto.
Qed.

Lemma createItem_outcome p acc c r :
  value (CreateDirectories.createItem L H p acc c) = acc ++ [r] ->
  CreateOutcome L H p (trace (CreateDirectories.createItem L H p acc c)) r.
Proof.
  intros Hv. destruct (createItem_run L H p acc c) as (out & Et & Hv').
  rewrite Hv in Hv'. apply app_inv_head in Hv'. inversion Hv' as [Hr]. clear Hv'.
  rewrite Et. exists out. destruct out as [u|err]; auto.
Qed.

(** The loop of a tool leaves for every item what the outcomes of
    the item's own calls tell. *)
Lemma LoopOf_recorded name block chunks rep :
  (name = list_directories ->
   exists showIgnored results,
     rep = ListReport results /\
     Runs (ListDirectories.listItem L H (recursiveOf block) showIgnored)
          (validPaths (paths (params block))) chunks results) ->
  LoopOf L H name block chunks rep ->
  Recorded L H name block chunks rep.
Proof.
  intros Hlist.
  destruct name, rep as [m rs|rs|rs|rs|rs]; cbn [LoopOf Recorded]; try contradiction.
  - intros (s & e & Hs & He & HR). exists s, e. split; [exact Hs|]. split; [exact He|].
    unfold isRangeRead.
    destruct (truthyStr (start_line (params block)) || truthyStr (end_line (params block)))
      eqn:Er.
    + eapply Runs_each; [|exact HR]. intros x acc c r Hv.
      eapply readItem_range_outcome, Hv.
    + apply orb_false_elim in Er. destruct Er as [Es Ee].
      pose proof (parseLine_absent _ _ Es Hs). pose proof (parseLine_absent _ _ Ee He). subst.
      eapply Runs_each; [|exact HR]. intros x acc c r Hv.
      eapply readItem_plain_outcome, Hv.
  - intros (its & Eits & HR). exists its. split; [exact Eits|].
    eapply Runs_each; [|exact HR]. intros x acc c r Hv. eapply writeItem_outcome, Hv.
  - intros _. destruct (Hlist eq_refl) as (sh & rs' & E & HR). inversion E. subst rs'.
    eapply Runs_each; [|exact HR]. intros x acc c r Hv. eapply listItem_outcome, Hv.
  - intros HR. eapply Runs_each; [|exact HR]. intros x acc c r Hv.
    eapply createItem_outcome, Hv.
  - intros HR. eapply Runs_each; [|exact HR]. intros x acc c r Hv.
    eapply deleteItem_outcome, Hv.
Qed.

(** The anatomy of an approved run, with what every iteration left. *)
Lemma approved_outcomes name block c content :
  In (EvAskApproval content true) (trace (runTool L H name block c)) ->
  exists pre lead chunks rep,
    trace (runTool L H name block c) =
      pre ++ EvAskApproval content true :: lead ++ concat chunks ++ closingWords rep
          ++ [EvPushToolResult (reportText rep)] /\
    Forall (fun e => isCheck e = true) pre /\
    Forall (fun e => isCheck e = true) lead /\
    LoopOf L H name block chunks rep /\
    wellFormed rep /\
    Recorded L H name block chunks rep.
Proof.
  intros Hin.
  assert (Hother : name <> list_directories ->
            exists pre lead chunks rep,
              trace (runTool L H name block c) =
                pre ++ EvAskApproval content true :: lead ++ concat chunks ++ closingWords rep
                    ++ [EvPushToolResult (reportText rep)] /\
              Forall (fun e => isCheck e = true) pre /\
              Forall (fun e => isCheck e = true) lead /\
              LoopOf L H name block chunks rep /\
              wellFormed rep /\
              Recorded L H name block chunks rep).
  { intros Hn.
    destruct (approved_run_exact L H name block c content Hin)
      as (pre & lead & chunks & rep & E & Hpre & Hlead & HL & Hw).
    exists pre, lead, chunks, rep. repeat split; auto.
    apply LoopOf_recorded; [contradiction | exact HL]. }
  destruct name; try (apply Hother; discriminate). clear Hother.
  cbn [runTool] in *.
  destruct (Shape_approved _ (ListExact_asks_no_more L H block) _ _
              (list_shape_exact L H block c) Hin)
    as (pre & mid & E & Hpre & st & chunks & rs & HR & ->).
  exists pre, [EvGetState st], chunks, (ListReport rs).
  cbn [closingWords reportText app].
  assert (HL : LoopOf L H list_directories block chunks (ListReport rs)).
  { cbn. eauto. }
  repeat split; auto.
  apply LoopOf_recorded; [|exact HL]. intros _. eauto.
Qed.

(** An iteration none of whose calls ended the item caught nothing. *)
Lemma nothing_caught p chunk :
  Forall (fun e => endsItem e = false) chunk -> forall err, ~ Caught L p chunk err.
Proof.
  intros Hc err. rewrite Forall_forall in Hc.
  intros [(e & Hin & Ht) | [Hin _]].
  - apply Hc in Hin. unfold endsItem in Hin. rewrite Ht in Hin.
    rewrite orb_true_r in Hin. discriminate.
  - apply Hc in Hin. discriminate.
Qed.

Lemma passedGuard_calm (P : Event -> bool) p guard :
  P (EvValidateAccess p true) = false ->
  passedGuard H p guard -> Forall (fun e => P e = false) guard.
Proof. intros HP [-> | [-> _]]; repeat constructor. exact HP. Qed.

Lemma probes_calm (P : Event -> bool) a counted binary :
  (forall out, P (EvCountFileLines a out) = false) ->
  (forall lv t, P (EvConsole lv t) = false) ->
  (forall out, P (EvIsBinaryFile a out) = false) ->
  Forall (fun e => P e = false) (probes a counted binary).
Proof.
  intros Hc Hl Hb. unfold probes. constructor; [apply Hc|]. apply Forall_app. split.
  - destruct counted; repeat constructor; auto.
  - repeat constructor; auto.
Qed.

Lemma filter_calm {A} (P : A -> bool) l : Forall (fun e => P e = false) l -> filter P l = [].
Proof. apply filter_none. Qed.

Lemma DeleteOutcome_failure p chunk r :
  DeleteOutcome L H p chunk r ->
  FailureReported L delete_items p chunk (DeleteItems.path r, DeleteItems.error r).
Proof.
  unfold DeleteOutcome, FailureReported. cbv zeta. intros (out & Ho).
  destruct out as [u|err]; [|destruct (isFileNotFound err) eqn:Ef]; destruct Ho as [-> ->];
    cbn [snd DeleteItems.error].
  - split; [apply nothing_caught; repeat constructor | reflexivity].
  - exists err. split; [left; eexists; split; [left; reflexivity | reflexivity]|].
    cbn [recordedAs handedOver]. rewrite Ef. split; reflexivity.
  - exists err. split; [left; eexists; split; [left; reflexivity | reflexivity]|].
    cbn [recordedAs handedOver fallbackText actionText]. rewrite Ef. split; reflexivity.
Qed.

Lemma CreateOutcome_failure p chunk r :
  CreateOutcome L H p chunk r ->
  FailureReported L create_directories p chunk
    (CreateDirectories.path r, CreateDirectories.error r).
Proof.
  unfold CreateOutcome, FailureReported. cbv zeta. intros (out & Ho).
  destruct out as [u|err]; destruct Ho as [-> ->]; cbn [snd CreateDirectories.error].
  - split; [apply nothing_caught; repeat constructor | reflexivity].
  - exists err. split; [left; eexists; split; [left; reflexivity | reflexivity]|].
    split; reflexivity.
Qed.

Lemma WriteOutcome_failure item chunk r :
  WriteOutcome L H item chunk r ->
  FailureReported L write_files (WriteFiles.path item) chunk
    (WriteFiles.r_path r, WriteFiles.error r).
Proof.
  unfold WriteOutcome, FailureReported. cbv zeta. intros (made & Ho).
  destruct made as [u|err].
  - destruct Ho as (written & Ho).
    destruct written as [v|err]; destruct Ho as [-> ->];
      cbn [snd WriteFiles.error failedWriting].
    + split.
      * apply nothing_caught. destruct (needsParent L H item); repeat constructor.
      * destruct (needsParent L H item); reflexivity.
    + exists err. split; [|split; [reflexivity|]].
      * left. eexists. split; [apply in_or_app; right; left; reflexivity | reflexivity].
      * destruct (needsParent L H item); reflexivity.
  - destruct Ho as (Hn & -> & ->). rewrite Hn. cbn [snd WriteFiles.error failedWriting].
    exists err. split; [|split; reflexivity].
    left. eexists. split; [left; reflexivity | reflexivity].
Qed.

Lemma ListOutcome_failure rf p chunk r :
  ListOutcome L H rf p chunk r ->
  FailureReported L list_directories p chunk (ListDirectories.path r, ListDirectories.error r).
Proof.
  unfold ListOutcome, FailureReported. cbv zeta.
  intros [[-> ->] | (guard & listed & Hg & Hl)].
  - cbn [snd ListDirectories.error failedListing]. exists (refusal L p).
    split; [right; split; [left; reflexivity | reflexivity]|]. split; reflexivity.
  - pose proof (passedGuard_calm isHandleError p guard eq_refl Hg) as Hf.
    pose proof (passedGuard_calm endsItem p guard eq_refl Hg) as He.
    apply filter_calm in Hf.
    destruct listed as [[files hit]|err].
    + destruct Hl as (formatted & Hl). destruct formatted as [text|err]; destruct Hl as [-> ->];
        cbn [snd ListDirectories.error failedListing].
      * split; [|rewrite filter_app, Hf; reflexivity].
        apply nothing_caught. apply Forall_app. split; [exact He | repeat constructor].
      * exists err. split; [|split; [reflexivity | rewrite filter_app, Hf; reflexivity]].
        left. eexists. split; [apply in_or_app; right; right; left; reflexivity | reflexivity].
    + destruct Hl as [-> ->]. cbn [snd ListDirectories.error failedListing].
      exists err. split; [|split; [reflexivity | rewrite filter_app, Hf; reflexivity]].
      left. eexists. split; [apply in_or_app; right; left; reflexivity | reflexivity].
Qed.

Lemma RangeOutcome_failure s e p chunk r :
  RangeOutcome L H s e p chunk r ->
  FailureReported L read_files p chunk (ReadFiles.path r, ReadFiles.error r).
Proof.
  unfold RangeOutcome, FailureReported. cbv zeta.
  intros [[-> ->] | (guard & counted & binary & lines & Hg & Hl)].
  - cbn [snd ReadFiles.error failedReading]. exists (refusal L p).
    split; [right; split; [left; reflexivity | reflexivity]|]. split; reflexivity.
  - set (a := path_resolve L (cwd H) p) in *.
    pose proof (passedGuard_calm isHandleError p guard eq_refl Hg) as Hf.
    pose proof (passedGuard_calm endsItem p guard eq_refl Hg) as He.
    pose proof (probes_calm isHandleError a counted binary
                  (fun _ => eq_refl) (fun _ _ => eq_refl) (fun _ => eq_refl)) as Hp.
    pose proof (probes_calm endsItem a counted binary
                  (fun out => match out with Fulfilled _ | Rejected _ => eq_refl end)
                  (fun _ _ => eq_refl)
                  (fun out => match out with Fulfilled _ | Rejected _ => eq_refl end)) as Hq.
    apply filter_calm in Hf. apply filter_calm in Hp.
    destruct lines as [text|err]; destruct Hl as [-> ->];
      cbn [snd ReadFiles.error failedReading].
    + split; [|rewrite !filter_app, Hf, Hp; reflexivity].
      apply nothing_caught. repeat (apply Forall_app; split); auto; repeat constructor.
    + exists err. split; [|split; [reflexivity | rewrite !filter_app, Hf, Hp; reflexivity]].
      left. eexists. split; [apply in_or_app; right; apply in_or_app; right; left; reflexivity | reflexivity].
Qed.

Lemma PlainOutcome_failure m p chunk r :
  PlainOutcome L H m p chunk r ->
  FailureReported L read_files p chunk (ReadFiles.path r, ReadFiles.error r).
Proof.
  unfold PlainOutcome, FailureReported. cbv zeta.
  intros [[-> ->] | (guard & counted & binary & Hg & Hl)].
  - cbn [snd ReadFiles.error failedReading]. exists (refusal L p).
    split; [right; split; [left; reflexivity | reflexivity]|]. split; reflexivity.
  - set (a := path_resolve L (cwd H) p) in *.
    pose proof (passedGuard_calm isHandleError p guard eq_refl Hg) as Hf.
    pose proof (passedGuard_calm endsItem p guard eq_refl Hg) as He.
    pose proof (probes_calm isHandleError a counted binary
                  (fun _ => eq_refl) (fun _ _ => eq_refl) (fun _ => eq_refl)) as Hp.
    pose proof (probes_calm endsItem a counted binary
                  (fun out => match out with Fulfilled _ | Rejected _ => eq_refl end)
                  (fun _ _ => eq_refl)
                  (fun out => match out with Fulfilled _ | Rejected _ => eq_refl end)) as Hq.
    apply filter_calm in Hf. apply filter_calm in Hp.
    destruct (truncates m counted binary).
    + destruct Hl as (head & defs & Hh & Hl).
      destruct head as [h|headErr], defs as [d|defsErr].
      * destruct Hl as [-> ->]. cbn [snd ReadFiles.error].
        split; [|rewrite !filter_app, Hf, Hp; destruct (m >? 0); reflexivity].
        apply nothing_caught. repeat (apply Forall_app; split); auto;
          destruct (m >? 0); repeat constructor.
      * destruct Hl as [-> ->]. cbn [snd ReadFiles.error failedReading].
        exists defsErr. split; [|split; [reflexivity|]].
        -- left. eexists. split; [apply in_or_app; right; apply in_or_app; right; apply in_or_app; left; apply in_or_app; right; left; reflexivity | reflexivity].
        -- rewrite !filter_app, Hf, Hp. destruct (m >? 0); reflexivity.
      * destruct Hl as [-> ->]. cbn [snd ReadFiles.error failedReading].
        exists headErr. split; [|split; [reflexivity|]].
        -- destruct (m >? 0) eqn:Em; [|discriminate (Hh eq_refl)].
           left. eexists. split; [apply in_or_app; right; apply in_or_app; right; left; reflexivity | reflexivity].
        -- rewrite !filter_app, Hf, Hp. destruct (m >? 0); reflexivity.
      * destruct Hl as [-> [-> | ->]]; cbn [snd ReadFiles.error failedReading].
        -- exists headErr. split; [|split; [reflexivity|]].
           ++ destruct (m >? 0) eqn:Em; [|discriminate (Hh eq_refl)].
              left. eexists. split; [apply in_or_app; right; apply in_or_app; right; left; reflexivity | reflexivity].
           ++ rewrite !filter_app, Hf, Hp. destruct (m >? 0); reflexivity.
        -- exists defsErr. split; [|split; [reflexivity|]].
           ++ left. eexists. split; [apply in_or_app; right; apply in_or_app; right; apply in_or_app; left; apply in_or_app; right; left; reflexivity | reflexivity].
           ++ rewrite !filter_app, Hf, Hp. destruct (m >? 0); reflexivity.
    + destruct Hl as (text & Hl). destruct text as [t|err]; destruct Hl as [-> ->];
        cbn [snd ReadFiles.error failedReading].
      * split; [|rewrite !filter_app, Hf, Hp; reflexivity].
        apply nothing_caught. repeat (apply Forall_app; split); auto; repeat constructor.
      * exists err. split; [|split; [reflexivity | rewrite !filter_app, Hf, Hp; reflexivity]].
        left. eexists. split; [apply in_or_app; right; apply in_or_app; right; left; reflexivity | reflexivity].
Qed.

(** What every iteration left reports its failure in the one way. *)
Lemma Recorded_failures name block chunks rep :
  Recorded L H name block chunks rep ->
  Forall2 (fun p cr => FailureReported L name p (fst cr) (snd cr))
          (processedPaths name block) (combine chunks (reportRows rep)).
Proof.
  destruct name, rep as [m rs|rs|rs|rs|rs];
    cbn [Recorded reportRows processedPaths]; try contradiction.
  - intros (s & e & _ & _ & HF).
    rewrite <- (map_id (validPaths _)).
    eapply Forall2_rows
      with (key := fun x => x)
           (P := fun p chunk r =>
                   if isRangeRead block then RangeOutcome L H s e p chunk r
                   else PlainOutcome L H m p chunk r); [|exact HF].
    intros x chunk r. cbv beta.
    destruct (isRangeRead block); [apply RangeOutcome_failure | apply PlainOutcome_failure].
  - intros (its & -> & HF).
    eapply Forall2_rows; [|exact HF]. intros x chunk r. apply WriteOutcome_failure.
  - intros HF. rewrite <- (map_id (validPaths _)).
    eapply Forall2_rows with (key := fun x => x); [|exact HF].
    intros x chunk r. apply ListOutcome_failure.
  - intros HF. rewrite <- (map_id (validPaths _)).
    eapply Forall2_rows with (key := fun x => x); [|exact HF].
    intros x chunk r. apply CreateOutcome_failure.
  - intros HF. rewrite <- (map_id (validPaths _)).
    eapply Forall2_rows with (key := fun x => x); [|exact HF].
    intros x chunk r. apply DeleteOutcome_failure.
Qed.
End RecordedFacts.

(* ===================================================================== *)
(** ** The policy pre-check, query by query *)
(* ===================================================================== *)







Section QueryFacts.
Context (L : Imports) {Env : Type} (H : Host Env).
Hypothesis Hctl : rooIgnoreController H <> None.








End QueryFacts.

(* ===================================================================== *)
(** ** Facts about the rule files and the custom instructions *)
(* ===================================================================== *)

Section PromptFacts.
Import Prompts.
Context (L : Prompts.Imports) {Env : Type} (H : Prompts.Host Env).

Lemma reads_ioBind {A B} (m : IO Env A) (f : A -> IO Env B) e :
  reads (ioBind m f e) = reads (m e) ++ reads (f (result (m e)) (after (m e))).
Proof.
  unfold ioBind, reads, result, after. destruct (m e) as [[a e1] t1]. cbn.
  destruct (f a e1) as [[b e2] t2]. reflexivity.
Qed.

Lemma result_ioBind {A B} (m : IO Env A) (f : A -> IO Env B) e :
  result (ioBind m f e) = result (f (result (m e)) (after (m e))).
Proof.
  unfold ioBind, reads, result, after. destruct (m e) as [[a e1] t1]. cbn.
  destruct (f a e1) as [[b e2] t2]. reflexivity.
Qed.

Lemma after_ioBind {A B} (m : IO Env A) (f : A -> IO Env B) e :
  after (ioBind m f e) = after (f (result (m e)) (after (m e))).
Proof.
  unfold ioBind, reads, result, after. destruct (m e) as [[a e1] t1]. cbn.
  destruct (f a e1) as [[b e2] t2]. reflexivity.
Qed.

Lemma reads_ioTry {A B} (m : IO Env (Settled A)) (k : A -> IO Env (Settled B)) e :
  reads (ioTry m k e) =
    reads (m e) ++ match result (m e) with
                   | Fulfilled a => reads (k a (after (m e)))
                   | Rejected _ => []
                   end.
Proof. unfold ioTry. rewrite reads_ioBind. destruct (result (m e)); reflexivity. Qed.

Lemma result_ioTry {A B} (m : IO Env (Settled A)) (k : A -> IO Env (Settled B)) e :
  result (ioTry m k e) =
    match result (m e) with
    | Fulfilled a => result (k a (after (m e)))
    | Rejected err => Rejected err
    end.
Proof. unfold ioTry. rewrite result_ioBind. destruct (result (m e)); reflexivity. Qed.

(** One read, and what is made of its outcome. *)
Lemma safeReadFile_settles filePath e :
  exists outcome,
    reads (safeReadFile H filePath e) = [EvReadFile filePath outcome] /\
    result (safeReadFile H filePath e) = settled outcome /\
    outcome = fst (fs_readFile H filePath e).
Proof.
  exists (fst (fs_readFile H filePath e)).
  unfold safeReadFile, doReadFile, ioBind, reads, result, settled, isHard.
  destruct (fs_readFile H filePath e) as [[content|err] e']; cbn [fst].
  - auto.
  - destruct (code err) as [c|]; cbn [truthyStr negb orb]; [|auto].
    destruct (c =? "")%string; cbn [negb orb]; [auto|].
    destruct (isAbsence c); cbn; auto.
Qed.

Lemma readsOf_cons p o paths outs :
  readsOf (p :: paths) (o :: outs) = EvReadFile p o :: readsOf paths outs.
Proof. reflexivity. Qed.

Lemma Stopped_cons {A B} p paths o outs (res : Settled A) (res' : Settled B) :
  benign o = true ->
  match res, res' with
  | Fulfilled _, Fulfilled _ => True
  | Rejected e, Rejected e' => e = e'
  | _, _ => False
  end ->
  Stopped paths outs res -> Stopped (p :: paths) (o :: outs) res'.
Proof.
  intros Ho Hres Hst. destruct res as [a|err], res' as [b|err']; try contradiction.
  - destruct Hst as [Hl Hb]. cbn. rewrite Ho, Hb, Hl. auto.
  - subst err'. destruct Hst as (before & -> & Hh & Hb & Hl).
    exists (o :: before). cbn. rewrite Ho, Hb. repeat split; auto. cbn in *. lia.
Qed.

Lemma Stopped_hard {A} p paths err :
  isHard err = true -> Stopped (A := A) (p :: paths) [Rejected err] (Rejected err).
Proof.
  intros Hh. exists []. repeat split; auto. cbn. lia.
Qed.

Lemma settled_hard o err : settled o = Rejected err -> o = Rejected err /\ isHard err = true.
Proof.
  unfold settled. destruct o as [c|err0]; [discriminate|].
  destruct (isHard err0) eqn:Eh; [|discriminate]. intros E. inversion E; subst. auto.
Qed.

(** The loop of [loadRuleFiles]: the reads in order, as far as they
    go, and the rules combined from their outcomes. *)
Lemma loadFrom_reads cwd files acc e :
  exists outcomes,
    reads (loadFrom L H cwd files acc e) = readsOf (map (path_join L cwd) files) outcomes /\
    Stopped (map (path_join L cwd) files) outcomes (result (loadFrom L H cwd files acc e)) /\
    result (loadFrom L H cwd files acc e) =
      match rulesFrom files outcomes with
      | Fulfilled rest => Fulfilled (acc ^^ rest)
      | Rejected err => Rejected err
      end.
Proof.
  revert acc e. induction files as [|file files IH]; intros acc e.
  - exists []. cbn. repeat split.
    unfold result, ioRet. cbn. f_equal.
    clear. induction acc as [|ch acc IHa]; cbn; [|rewrite <- IHa]; reflexivity.
  - cbn [loadFrom map]. rewrite reads_ioTry, result_ioTry.
    destruct (safeReadFile_settles (path_join L cwd file) e) as (o & Er & Es & _).
    rewrite Er, Es.
    destruct (settled o) as [content|err] eqn:Eo.
    + set (acc' := if nonEmpty content then _ else acc).
      destruct (IH acc' (after (safeReadFile H (path_join L cwd file) e)))
        as (outs & Ero & Hst & Eres).
      exists (o :: outs). rewrite readsOf_cons, Ero. split; [reflexivity|]. split.
      * eapply Stopped_cons; [unfold benign; rewrite Eo; reflexivity | | exact Hst].
        destruct (result (loadFrom L H cwd files acc' _)); auto.
      * rewrite Eres. cbn [rulesFrom]. rewrite Eo.
        destruct (rulesFrom files outs) as [rest|err]; [|reflexivity].
        f_equal. subst acc'. unfold ruleBlock.
        destruct (nonEmpty content); cbn [append];
          rewrite ?string_append_assoc; cbn [append]; rewrite ?string_append_assoc;
          reflexivity.
    + destruct (settled_hard _ _ Eo) as [-> Hh].
      exists [Rejected err]. split.
      { rewrite app_nil_r. unfold readsOf. cbn [combine map fst snd].
        destruct (map (path_join L cwd) files); reflexivity. }
      split.
      * apply Stopped_hard, Hh.
      * cbn [rulesFrom]. rewrite Eo. reflexivity.
Qed.

Lemma nonEmpty_append a b : nonEmpty a = true -> nonEmpty (a ^^ b) = true.
Proof. destruct a; [discriminate | reflexivity]. Qed.

Lemma join_nonEmpty sep xs :
  xs <> [] -> Forall (fun x => nonEmpty x = true) xs -> nonEmpty (join sep xs) = true.
Proof.
  intros Hx Hf. destruct Hf as [|x l Hxn _]; [contradiction|].
  unfold join. cbn [String.concat]. destruct l; [exact Hxn | apply nonEmpty_append, Hxn].
Qed.

Lemma present_nonEmpty parts : Forall (fun x => nonEmpty x = true) (present parts).
Proof.
  unfold present. apply Forall_forall. intros x Hx. apply filter_In in Hx. tauto.
Qed.

Lemma pushIf_present xs s : pushIf (present xs) s = present (xs ++ [s]).
Proof.
  unfold pushIf, present. rewrite filter_app. cbn [filter].
  destruct (nonEmpty s); [reflexivity | rewrite app_nil_r; reflexivity].
Qed.

(** [joined ? head + joined : ""] over the parts pushed when not
    empty. *)
Lemma assembled_joined head parts :
  (if nonEmpty (join (nl ^^ nl) (present parts))
   then head ^^ join (nl ^^ nl) (present parts) else "") = assembled head parts.
Proof.
  unfold assembled.
  destruct (present parts) as [|x l] eqn:Ep; [reflexivity|].
  rewrite join_nonEmpty; [reflexivity | discriminate|].
  rewrite <- Ep. apply present_nonEmpty.
Qed.

Lemma assembled_counted head parts :
  (if (0 <? length (present parts))%nat
   then head ^^ join (nl ^^ nl) (present parts) else "") = assembled head parts.
Proof. unfold assembled. destruct (present parts); reflexivity. Qed.

Lemma pushIf_three a b c : pushIf (pushIf (pushIf [] a) b) c = present [a; b; c].
Proof.
  unfold pushIf, present. cbn [filter].
  destruct (nonEmpty a), (nonEmpty b), (nonEmpty c); reflexivity.
Qed.

(** The assembly (lines 89-124), once the two contents are read. *)
Lemma assembly modeCI globalCI mode language rooIgnore modeRuleContent genericRuleContent :
  let languagePreference :=
    if truthyStr language
    then languageText L (match language with Some l => l | None => "" end) else "" in
  let sections :=
    pushIf (pushIf (pushIf [] languagePreference) (titled "Global Instructions:" globalCI))
      (titled "Mode-specific Instructions:" modeCI) in
  let rulesModeSpecific :=
    whenNotBlank modeRuleContent
      ("# Rules from .clinerules-" ^^ mode ^^ ":" ^^ nl ^^ modeRuleContent) in
  let rulesRooIgnore := match rooIgnore with Some s => s | None => "" end in
  let rulesGeneric := whenNotBlank genericRuleContent (trim genericRuleContent) in
  let rules := pushIf (pushIf (pushIf [] rulesModeSpecific) rulesRooIgnore) rulesGeneric in
  let rulesAll :=
    if (0 <? length rules)%nat then "Rules:" ^^ nl ^^ nl ^^ join (nl ^^ nl) rules else "" in
  let joinedSections := join (nl ^^ nl) (pushIf sections rulesAll) in
  Assembled L modeCI globalCI mode language rooIgnore modeRuleContent genericRuleContent
    (mkComponents languagePreference (titled "Global Instructions:" globalCI)
       (titled "Mode-specific Instructions:" modeCI) rulesModeSpecific rulesGeneric
       rulesRooIgnore rulesAll
       (if nonEmpty joinedSections then sectionHead ^^ joinedSections else "")).
Proof.
  cbv zeta. unfold Assembled.
  cbn [languagePreference globalInstructions modeSpecificInstructions rulesModeSpecific
       rulesRooIgnore rulesGeneric rulesAll fullSection].
  rewrite !pushIf_three.
  match goal with |- context [ "Rules:" ^^ nl ^^ nl ^^ ?x ] =>
    change ("Rules:" ^^ nl ^^ nl ^^ x) with (("Rules:" ^^ nl ^^ nl) ^^ x) end.
  rewrite assembled_counted, pushIf_present. cbn [app].
  rewrite assembled_joined. repeat split; reflexivity.
Qed.


(** [addCustomInstructions], read by read. *)
Lemma addCustomInstructions_run modeCI globalCI cwd mode language rooIgnore e :
  let r := addCustomInstructions L H modeCI globalCI cwd mode language rooIgnore e in
  exists outcomes,
    reads r = readsOf (ruleFilesFor L cwd mode) outcomes /\
    Stopped (ruleFilesFor L cwd mode) outcomes (result r) /\
    forall comps, result r = Fulfilled comps ->
      exists modeRuleContent genericRuleContent,
        (if nonEmpty mode
         then exists outcome rest,
                outcomes = outcome :: rest /\ settled outcome = Fulfilled modeRuleContent /\
                rulesFrom ruleFiles rest = Fulfilled genericRuleContent
         else modeRuleContent = "" /\
              rulesFrom ruleFiles outcomes = Fulfilled genericRuleContent) /\
        Assembled L modeCI globalCI mode language rooIgnore modeRuleContent
          genericRuleContent comps.
Proof.
  cbv zeta. unfold addCustomInstructions, ruleFilesFor, loadRuleFiles. cbv zeta.
  rewrite reads_ioTry, result_ioTry.
  destruct (nonEmpty mode) eqn:Em.
  - rewrite reads_ioTry, result_ioTry.
    set (p := path_join L cwd (".clinerules-" ^^ mode)).
    destruct (safeReadFile_settles p e) as (o & Er & Es & _). rewrite Er, Es.
    destruct (settled o) as [content|err] eqn:Eo.
    + cbn [reads result after ioRet snd fst app].
      rewrite reads_ioTry, result_ioTry.
      set (e1 := after (ioTry (safeReadFile H p) _ e)).
      destruct (loadFrom_reads cwd ruleFiles "" e1) as (outs & Ero & Hst & Eres).
      exists (o :: outs). rewrite Ero. split; [|split].
      * destruct (result (loadFrom L H cwd ruleFiles "" e1)); cbn [app];
          rewrite ?app_nil_r; reflexivity.
      * cbn [app]. eapply Stopped_cons; [unfold benign; rewrite Eo; reflexivity | | exact Hst].
        destruct (result (loadFrom L H cwd ruleFiles "" e1)); cbn; auto.
      * intros comps. rewrite Eres.
        destruct (rulesFrom ruleFiles outs) as [generic|err] eqn:Eg; [|discriminate].
        cbn [append result ioRet fst]. intros Ec. inversion Ec. clear Ec.
        exists content, generic. split; [exists o, outs; auto|].
        exact (assembly modeCI globalCI mode language rooIgnore content generic).
    + destruct (settled_hard _ _ Eo) as [-> Hh].
      exists [Rejected err]. split; [|split].
      * rewrite !app_nil_r. unfold readsOf. cbn [app combine map fst snd]. reflexivity.
      * cbn [app]. apply Stopped_hard, Hh.
      * discriminate.
  - cbn [reads result after ioRet snd fst app].
    rewrite reads_ioTry, result_ioTry.
    destruct (loadFrom_reads cwd ruleFiles "" e) as (outs & Ero & Hst & Eres).
    exists outs. rewrite Ero. split; [|split].
    + destruct (result (loadFrom L H cwd ruleFiles "" e)); cbn [app];
        rewrite ?app_nil_r; reflexivity.
    + destruct (result (loadFrom L H cwd ruleFiles "" e)); exact Hst.
    + intros comps. rewrite Eres.
      destruct (rulesFrom ruleFiles outs) as [generic|err] eqn:Eg; [|discriminate].
      cbn [append result ioRet fst]. intros Ec. inversion Ec. clear Ec.
      exists "", generic. split; [auto|].
      exact (assembly modeCI globalCI mode language rooIgnore "" generic).
Qed.


(** A section is empty only when all its parts are. *)
Lemma assembled_empty head parts :
  nonEmpty head = true ->
  assembled head parts = "" <-> Forall (fun part => part = "") parts.
Proof.
  intros Hh. unfold assembled, present. split.
  - intros E. induction parts as [|x xs IH]; [constructor|].
    cbn [filter] in E. destruct (nonEmpty x) eqn:Ex.
    + destruct head; [discriminate Hh|discriminate E].
    + constructor; [|exact (IH E)].
      unfold nonEmpty in Ex. apply negb_false_iff, String.eqb_eq in Ex. exact Ex.
  - intros Hall. induction Hall as [|x xs -> _ IH]; [reflexivity|exact IH].
Qed.

Lemma combine_snoc {A B} (xs : list A) (ys : list B) (y : B) :
  (length ys < length xs)%nat ->
  exists x, combine xs (ys ++ [y]) = combine xs ys ++ [(x, y)].
Proof.
  revert ys. induction xs as [|x xs IH]; intros ys Hlen; [cbn in Hlen; lia|].
  destruct ys as [|y0 ys].
  - exists x. destruct xs; reflexivity.
  - cbn in Hlen. destruct (IH ys ltac:(lia)) as (q & E).
    exists q. cbn [app combine]. rewrite E. reflexivity.
Qed.

Lemma benign_hard err : isHard err = true -> benign (Rejected err) = false.
Proof. intros Hh. unfold benign, settled. rewrite Hh. reflexivity. Qed.

(** A read that failed hard is the last one, and its error is the
    caller's. *)
Lemma Stopped_at_hard {A} paths outcomes (res : Settled A) p err :
  Stopped paths outcomes res ->
  In (EvReadFile p (Rejected err)) (readsOf paths outcomes) ->
  isHard err = true ->
  res = Rejected err /\
  exists before, readsOf paths outcomes = before ++ [EvReadFile p (Rejected err)].
Proof.
  intros Hst Hin Hh. pose proof (benign_hard _ Hh) as Hb.
  unfold readsOf in Hin. apply in_map_iff in Hin. destruct Hin as ([q o] & Eq & Hin).
  cbn [fst snd] in Eq. inversion Eq. subst q o. clear Eq.
  destruct res as [a|err']; cbn [Stopped] in Hst.
  - destruct Hst as [_ Hall]. apply in_combine_r in Hin.
    rewrite forallb_forall in Hall. rewrite (Hall _ Hin) in Hb. discriminate.
  - destruct Hst as (before & -> & _ & Hall & Hlen).
    rewrite forallb_forall in Hall.
    rewrite length_app in Hlen. cbn [length] in Hlen.
    destruct (combine_snoc paths before (Rejected err') ltac:(lia)) as (q & E).
    rewrite E in Hin. apply in_app_iff in Hin. destruct Hin as [Hin|[Hin|[]]].
    + apply in_combine_r in Hin. rewrite (Hall _ Hin) in Hb. discriminate.
    + inversion Hin. subst. split; [reflexivity|].
      unfold readsOf. rewrite E, map_app. eexists. reflexivity.
Qed.

End PromptFacts.

(* ===================================================================== *)
(** ** The claims *)
(* ===================================================================== *)

(** C1, as stated, fails for the write tool: asked to write
    [{path: " a.txt", content: "x"}], the tool is approved and reports the
    item under the trimmed path ["a.txt"], so no report it pushes lists the
    path as the caller supplied it. *)
Lemma C1_supplied_path_counterexample :
  let block := Mock.writeBlock [(" a.txt", "x")] in
  let tr := trace (runTool Mock.imports Mock.host write_files block (Mock.start Mock.world0)) in
  (exists content, In (EvAskApproval content true) tr) /\
  suppliedPaths write_files block = [" a.txt"] /\
  ~ (exists rep,
        reportTool rep = write_files /\
        In (EvPushToolResult (reportText rep)) tr /\
        map fst (reportRows rep) = suppliedPaths write_files block).
Proof.
  cbv zeta. split; [|split].
  - eexists. vm_compute. right. right. left. reflexivity.
  - reflexivity.
  - intros (rep & Ht & Hin & Hp).
    destruct rep as [m rs|rs|rs|rs|rs]; try discriminate.
    change (suppliedPaths write_files (Mock.writeBlock [(" a.txt", "x")])) with [" a.txt"] in Hp.
    cbn [reportRows] in Hp. rewrite map_map in Hp. cbn [fst] in Hp.
    destruct rs as [|r [|r' rs]]; try discriminate.
    inversion Hp as [Hr]. destruct r as [p st er]. cbn in Hr. subst p.
    destruct st, er as [[|ch e]|]; vm_compute in Hin;
      repeat (destruct Hin as [Hin | Hin]; [discriminate|]); contradiction.
Qed.

(** C1 (amended): when a batch is approved, the tool pushes exactly one
    report; the report has one row per processed item, in order, carrying
    the item's path.  For the tools that take [paths] the processed items
    are the supplied non-blank paths, unchanged; for the write tool they are
    items that survived validation, each under the trimmed [path] of an
    entry of [items]. *)
Theorem C1_one_result_per_item (L : Imports) {Env : Type} (H : Host Env)
    (name : BatchToolName) (block : ToolUse) (c : Cline Env) (content : string) :
  In (EvAskApproval content true) (trace (runTool L H name block c)) ->
  exists rep,
    reportTool rep = name /\
    filter isPush (trace (runTool L H name block c)) = [EvPushToolResult (reportText rep)] /\
    map fst (reportRows rep) = processedPaths name block /\
    length (reportRows rep) = length (processedPaths name block) /\
    (name <> write_files -> processedPaths name block = suppliedPaths name block) /\
    (name = write_files ->
     Forall (trimmedFrom (arrayElems (items (params block)))) (processedPaths name block)).
Proof.
  intros Hin.
  destruct (approved_run L H name block c content Hin)
    as (pre & lead & chunks & tail & rep & E & Hpre & Hlead & Htail & HL).
  exists rep. split; [eapply LoopOf_tool; eauto|].
  pose proof (LoopOf_paths L H name block chunks rep HL) as Hp.
  split; [|split; [exact Hp | split; [|split]]].
  - rewrite E. rewrite filter_app. cbn [filter isPush]. rewrite !filter_app. cbn [filter isPush].
    rewrite (filter_none isPush pre), (filter_none isPush lead),
      (filter_none isPush (concat chunks)), (filter_none isPush tail); [reflexivity|..].
    + eapply Forall_impl; [|exact Htail]. intros []; cbn; congruence.
    + eapply Forall_impl; [|eapply LoopOf_events; eauto]. intros []; cbn; congruence.
    + eapply Forall_impl; [|exact Hlead]. intros []; cbn; congruence.
    + eapply Forall_impl; [|exact Hpre]. intros []; cbn; congruence.
  - rewrite <- Hp, length_map. reflexivity.
  - destruct name; cbn; congruence.
  - intros ->. cbn [processedPaths].
    destruct (itemsToProcess block) as [its|] eqn:Eits; [|constructor].
    apply Forall_map. apply itemsToProcess_trimmed. exact Eits.
Qed.

(** The delete tool, approved on three paths of which one is absent. *)
Lemma C1_one_result_per_item_witness :
  let block := Mock.pathsBlock ["a.txt"; "zz"; "d"] in
  let tr := trace (runTool Mock.imports Mock.host delete_items block (Mock.start Mock.world0)) in
  (exists content, In (EvAskApproval content true) tr) /\
  exists rep,
    reportTool rep = delete_items /\
    filter isPush tr = [EvPushToolResult (reportText rep)] /\
    map fst (reportRows rep) = processedPaths delete_items block /\
    length (reportRows rep) = length (processedPaths delete_items block) /\
    (delete_items <> write_files ->
     processedPaths delete_items block = suppliedPaths delete_items block) /\
    (delete_items = write_files ->
     Forall (trimmedFrom (arrayElems (items (params block))))
            (processedPaths delete_items block)).
Proof.
  cbv zeta. split.
  - eexists. vm_compute. do 3 right. left. reflexivity.
  - eapply (C1_one_result_per_item Mock.imports Mock.host delete_items
              (Mock.pathsBlock ["a.txt"; "zz"; "d"]) (Mock.start Mock.world0)).
    vm_compute. do 3 right. left. reflexivity.
Defined.

(** C2: in an approved batch every item is attempted, in order, whatever
    happened to the items before it, and its outcome is recorded: the
    events after the approval split into one chunk per processed item,
    each starting with that item's own operation (or access re-check), no
    operation occurs outside the chunks, and the report has one row per
    item.  For every tool the chunk and the result of an item are those of
    the item's own calls, by their outcomes ([Recorded]): a call that fails
    gives the item an error result with the message of the error, and the
    next item is processed all the same. *)
Theorem C2_every_item_is_attempted (L : Imports) {Env : Type} (H : Host Env)
    (name : BatchToolName) (block : ToolUse) (c : Cline Env) (content : string) :
  In (EvAskApproval content true) (trace (runTool L H name block c)) ->
  exists pre lead chunks tail rep,
    trace (runTool L H name block c) =
      pre ++ EvAskApproval content true :: lead ++ concat chunks ++ tail
          ++ [EvPushToolResult (reportText rep)] /\
    Forall (fun e => isOperation e = false) (pre ++ lead ++ tail) /\
    length chunks = length (processedPaths name block) /\
    length (reportRows rep) = length (processedPaths name block) /\
    Forall2 (fun p cr => Attempted L H name p (fst cr) (snd cr))
            (processedPaths name block) (combine chunks (reportRows rep)) /\
    Recorded L H name block chunks rep.
Proof.
  intros Hin.
  destruct (approved_outcomes L H name block c content Hin)
    as (pre & lead & chunks & rep & E & Hpre & Hlead & HL & _ & Hrec).
  exists pre, lead, chunks, (closingWords rep), rep.
  destruct (LoopOf_lengths L H name block chunks rep HL) as [Hc Hr].
  repeat split; auto.
  - rewrite !Forall_app. repeat split.
    + eapply Forall_impl; [|exact Hpre]. intros []; cbn; congruence.
    + eapply Forall_impl; [|exact Hlead]. intros []; cbn; congruence.
    + destruct rep; repeat constructor.
  - apply LoopOf_attempted. exact HL.
Qed.

(** The delete tool, approved on two paths where the first deletion is
    refused by the driver. *)
Lemma C2_every_item_is_attempted_witness :
  let block := Mock.pathsBlock ["a.txt"; "d"] in
  let tr := trace (runTool Mock.imports Mock.host delete_items block (Mock.start Mock.lockedWorld)) in
  (exists content, In (EvAskApproval content true) tr) /\
  exists pre lead chunks tail rep,
    tr = pre ++ EvAskApproval (Mock.stringify
                 (JsObject
                    [("tool", JsString "deleteItems");
                     ("paths", JsArray [approvalEntry "a.txt" false; approvalEntry "d" false]);
                     ("reason",
                      JsString "Will attempt to PERMANENTLY delete 2 item(s) (files or directories). This action cannot be undone.")]))
               true :: lead ++ concat chunks ++ tail ++ [EvPushToolResult (reportText rep)] /\
    Forall (fun e => isOperation e = false) (pre ++ lead ++ tail) /\
    length chunks = length (processedPaths delete_items block) /\
    length (reportRows rep) = length (processedPaths delete_items block) /\
    Forall2 (fun p cr => Attempted Mock.imports Mock.host delete_items p (fst cr) (snd cr))
            (processedPaths delete_items block) (combine chunks (reportRows rep)) /\
    Recorded Mock.imports Mock.host delete_items block chunks rep.
Proof.
  cbv zeta. split.
  - eexists. vm_compute. right. right. left. reflexivity.
  - apply (C2_every_item_is_attempted Mock.imports Mock.host delete_items
             (Mock.pathsBlock ["a.txt"; "d"]) (Mock.start Mock.lockedWorld)).
    vm_compute. right. right. left. reflexivity.
Defined.

(** The example of the specification: in the batch [A, B] the deletion
    of A fails and that of B succeeds; both are attempted and the report
    is [{A, error}, {B, success}]. *)
Example delete_A_fails_B_succeeds :
  let tr := trace (runTool Mock.imports Mock.host delete_items
                     (Mock.pathsBlock ["a.txt"; "d"]) (Mock.start Mock.lockedWorld)) in
  filter isOperation tr =
    [EvFsDelete "/w/a.txt" true false (Rejected Mock.noPermission);
     EvFsDelete "/w/d" true false (Fulfilled tt)] /\
  filter isPush tr =
    [EvPushToolResult
       (reportText (DeleteReport
          [DeleteItems.mkResult "a.txt" st_error (Some "Permission denied");
           DeleteItems.mkResult "d" st_success None]))].
Proof. vm_compute. split; reflexivity. Qed.

(** The same for the read tool: the file A is not there, its read
    fails and the error is recorded; the file B is read all the same. *)
Example read_A_fails_B_succeeds :
  let tr := trace (runTool Mock.imports Mock.host read_files
                     (Mock.pathsBlock ["zz.txt"; "a.txt"]) (Mock.start Mock.world0)) in
  let gone := "ENOENT: no such file or directory, open '/w/zz.txt'" in
  filter isOperation tr =
    [EvCountFileLines "/w/zz.txt" (Rejected (mkError (Some "ENOENT") gone));
     EvIsBinaryFile "/w/zz.txt" (Rejected (mkError (Some "ENOENT") gone));
     EvExtractText "/w/zz.txt" (Rejected (mkError (Some "ENOENT") gone));
     EvCountFileLines "/w/a.txt" (Fulfilled 1);
     EvIsBinaryFile "/w/a.txt" (Fulfilled false);
     EvExtractText "/w/a.txt" (Fulfilled "alpha")] /\
  filter isPush tr =
    [EvPushToolResult
       (reportText (ReadReport 500
          [ReadFiles.mkResult "zz.txt" None (Some gone) None None None;
           ReadFiles.mkResult "a.txt" (Some "alpha") None (Some false) (Some 1) (Some "")]))].
Proof. vm_compute. split; reflexivity. Qed.

(** C3: in a finalized invocation of any batch tool, when the approval
    request is answered [false] the run ends there: before the request
    only policy queries, the settings and read-only existence probes
    occur, so no per-item collaborator is ever called and no tool result is
    pushed. *)
Theorem C3_denial_has_no_effect (L : Imports) {Env : Type} (H : Host Env)
    (name : BatchToolName) (block : ToolUse) (c : Cline Env) (content : string) :
  partial block = false ->
  In (EvAskApproval content false) (trace (runTool L H name block c)) ->
  (exists pre,
      trace (runTool L H name block c) = pre ++ [EvAskApproval content false] /\
      Forall (fun e => isCheck e = true) pre) /\
  Forall (fun e => isOperation e = false /\ isPush e = false) (trace (runTool L H name block c)) /\
  length (filter isOperation (trace (runTool L H name block c))) = 0%nat /\
  filter isPush (trace (runTool L H name block c)) = [].
Proof.
  intros _ Hin.
  destruct (Shape_denied _ (ToolMid_asks_no_more L H name block) _ _
              (runTool_shape L H name block c) Hin) as (pre & E & Hpre).
  split; [eauto|].
  assert (Hall : Forall (fun e => isOperation e = false /\ isPush e = false)
                   (trace (runTool L H name block c))).
  { rewrite E. apply Forall_app. split; [|repeat constructor].
    eapply Forall_impl; [|exact Hpre].
    intros e He. split; [apply check_not_operation | apply check_not_push]; exact He. }
  split; [exact Hall|]. split.
  - rewrite filter_none; [reflexivity|].
    eapply Forall_impl; [|exact Hall]. intros e [He _]. exact He.
  - apply filter_none. eapply Forall_impl; [|exact Hall]. intros e [_ He]. exact He.
Qed.

(** The write tool, the user refusing. *)
Lemma C3_denial_has_no_effect_witness :
  let block := Mock.writeBlock [("a.txt", "new"); ("n/c.txt", "gamma")] in
  let tr := trace (runTool Mock.imports Mock.host write_files block (Mock.start Mock.refusingWorld)) in
  partial block = false /\
  (exists content, In (EvAskApproval content false) tr) /\
  (exists pre,
      tr = pre ++
           [EvAskApproval
              (WriteFiles.approvalContent Mock.imports
                 [WriteFiles.mkApprovalPath "a.txt" "a.txt" false true;
                  WriteFiles.mkApprovalPath "n/c.txt" "n/c.txt" false true]
                 [("a.txt", true); ("n/c.txt", false)]) false] /\
      Forall (fun e => isCheck e = true) pre) /\
  Forall (fun e => isOperation e = false /\ isPush e = false) tr /\
  length (filter isOperation tr) = 0%nat /\
  filter isPush tr = [].
Proof.
  cbv zeta. split; [reflexivity|]. split.
  - eexists. vm_compute. do 4 right. left. reflexivity.
  - eapply (C3_denial_has_no_effect Mock.imports Mock.host write_files
              (Mock.writeBlock [("a.txt", "new"); ("n/c.txt", "gamma")])
              (Mock.start Mock.refusingWorld)).
    + reflexivity.
    + vm_compute. do 4 right. left. reflexivity.
Defined.











(** C7, as stated, fails when the bounds are clamped to the first line:
    [start_line = "1"] and [end_line = "0"] parse as the integers 1 and 0
    with 1 > 0, yet the batch is not rejected: approval is requested and,
    once given, the first line of the file is read. *)
Lemma C7_clamped_range_counterexample :
  let block :=
    mkToolUse (mkParams (JsArray [JsString "a.txt"]) JsUndefined (Some "1") (Some "0") None)
              false in
  let tr := trace (runTool Mock.imports Mock.host read_files block (Mock.start Mock.world0)) in
  parseInt "1" = Some 1 /\ parseInt "0" = Some 0 /\ 1 > 0 /\
  filter (fun e => isApproval e || isOperation e) tr =
    [EvAskApproval
       (ReadFiles.approvalContent Mock.imports [ReadFiles.mkApprovalPath "a.txt" false true]
          "tools:readFile.linesRange") true;
     EvCountFileLines "/w/a.txt" (Fulfilled 1);
     EvIsBinaryFile "/w/a.txt" (Fulfilled false);
     EvReadLines "/w/a.txt" (Some 0) (Some 0) (Fulfilled "alpha")] /\
  Forall (fun e => match e with
                   | EvPushToolResult text => includes text "start_line > end_line" = false
                   | _ => True
                   end) tr.
Proof.
  cbv zeta. repeat split; try reflexivity.
  vm_compute. repeat constructor.
Qed.

(** C7 (amended): when the read tool is given at least one valid path
    and bounds that parse as integers [s] and [e], neither above
    [MAX_SAFE_INTEGER] (up to which the tool's arithmetic on JavaScript
    numbers is that of the integers), with max(s, 1) > max(e, 1) (so 5 and
    3, but not 1 and 0), it rejects the whole batch before any file is
    touched: the run consists of the error notice and one pushed error
    whose message contains "start_line > end_line"; no collaborator that
    counts, reads or extracts is invoked, and approval is not requested. *)
Theorem C7_inverted_range_is_rejected (L : Imports) {Env : Type} (H : Host Env)
    (block : ToolUse) (c : Cline Env) (startStr endStr : string) (s e : Z) :
  missingArray (paths (params block)) = false ->
  validPaths (paths (params block)) <> [] ->
  start_line (params block) = Some startStr ->
  end_line (params block) = Some endStr ->
  parseInt startStr = Some s ->
  parseInt endStr = Some e ->
  s <= MAX_SAFE_INTEGER ->
  e <= MAX_SAFE_INTEGER ->
  Z.max 1 s > Z.max 1 e ->
  trace (ReadFiles.readFilesTool L H block c) =
    [EvSay "error"
       ("start_line (" ^^ numToString (Z.max 1 s) ^^ ") cannot be greater than end_line ("
          ^^ numToString (Z.max 1 e) ^^ ").");
     EvPushToolResult (toolError L "Invalid line range: start_line > end_line.")] /\
  includes "Invalid line range: start_line > end_line." "start_line > end_line" = true /\
  filter (fun ev => isOperation ev || isApproval ev)
         (trace (ReadFiles.readFilesTool L H block c)) = [].
Proof.
  intros Hm Hv Hs He Ps Pe _ _ Hgt.
  destruct (parseLine_parsed startStr s Ps) as [_ Ls].
  destruct (parseLine_parsed endStr e Pe) as [_ Le].
  assert (Etr : trace (ReadFiles.readFilesTool L H block c) =
    [EvSay "error"
       ("start_line (" ^^ numToString (Z.max 1 s) ^^ ") cannot be greater than end_line ("
          ^^ numToString (Z.max 1 e) ^^ ").");
     EvPushToolResult (toolError L "Invalid line range: start_line > end_line.")]).
  { unfold ReadFiles.readFilesTool. rewrite Hm.
    destruct (validPaths (paths (params block))) as [|p0 ps]; [congruence|].
    cbn [length Nat.eqb]. rewrite Hs, He, Ls, Le.
    unfold ReadFiles.rangeInverted.
    replace (Z.max 0 (s - 1) >? Z.max 0 (e - 1)) with true
      by (symmetry; apply Z.gtb_lt; lia).
    run.
    replace (Z.max 0 (s - 1) + 1) with (Z.max 1 s) by lia.
    replace (Z.max 0 (e - 1) + 1) with (Z.max 1 e) by lia.
    reflexivity. }
  rewrite Etr. repeat split; reflexivity.
Qed.

(** The example of the specification: [start_line = "5"],
    [end_line = "3"], two files. *)
Lemma C7_inverted_range_is_rejected_witness :
  let block :=
    mkToolUse (mkParams (JsArray [JsString "a.txt"; JsString "d/b.txt"]) JsUndefined
                 (Some "5") (Some "3") None) false in
  let tr := trace (ReadFiles.readFilesTool Mock.imports Mock.host block (Mock.start Mock.world0)) in
  (missingArray (paths (params block)) = false /\
   validPaths (paths (params block)) <> [] /\
   parseInt "5" = Some 5 /\ parseInt "3" = Some 3 /\
   5 <= MAX_SAFE_INTEGER /\ 3 <= MAX_SAFE_INTEGER /\ Z.max 1 5 > Z.max 1 3) /\
  tr = [EvSay "error" "start_line (5) cannot be greater than end_line (3).";
        EvPushToolResult (toolError Mock.imports "Invalid line range: start_line > end_line.")] /\
  includes "Invalid line range: start_line > end_line." "start_line > end_line" = true /\
  filter (fun ev => isOperation ev || isApproval ev) tr = [].
Proof.
  cbv zeta. split.
  - repeat split; try reflexivity; try discriminate.
  - apply (C7_inverted_range_is_rejected Mock.imports Mock.host
             (mkToolUse (mkParams (JsArray [JsString "a.txt"; JsString "d/b.txt"]) JsUndefined
                           (Some "5") (Some "3") None) false)
             (Mock.start Mock.world0) "5" "3" 5 3);
      try reflexivity; discriminate.
Defined.



(** The same run, in full: the one item passes the guard, counts 600
    lines and is not binary; the report shows 500 of the 600 lines, the
    trailer and the outline. *)
Example read_files_truncates_long_file :
  let tr := trace (runTool Mock.imports Mock.host read_files (Mock.pathsBlock ["long.ts"])
                     (Mock.start Mock.longWorld)) in
  filter isOperation tr =
    [EvCountFileLines "/w/long.ts" (Fulfilled 600);
     EvIsBinaryFile "/w/long.ts" (Fulfilled false);
     EvReadLines "/w/long.ts" (Some 499) (Some 0) (Fulfilled (join nl (repeat "x" 500)));
     EvParseDefinitions "/w/long.ts" (Fulfilled (Some "class A"))] /\
  filter isPush tr =
    [EvPushToolResult
       ("<files>" ^^ nl ^^ "  <file>" ^^ nl ^^ "    <path>long.ts</path>" ^^ nl
          ^^ "    <content>" ^^ nl ^^ join nl (repeat "x" 500) ^^ nl ^^ nl
          ^^ "[Showing only 500 of 600 total lines. Use start_line and end_line if you need to read more]"
          ^^ nl ^^ nl ^^ "class A" ^^ nl ^^ "    </content>" ^^ nl ^^ "  </file>" ^^ nl
          ^^ "</files>")].
Proof. vm_compute. split; reflexivity. Qed.



(* ===================================================================== *)
(** ** The validation of write items on examples *)
(* ===================================================================== *)

(** Once an entry has been found invalid, the entries after it are not
    collected: of [a], a blank path and [c], only [a] is processed. *)
Example write_stops_collecting_after_an_invalid_entry :
  itemsToProcess (Mock.writeBlock [("a", "x"); ("  ", "y"); ("c", "z")]) =
    Some [WriteFiles.mkItem "a" "x"] /\
  suppliedPaths write_files (Mock.writeBlock [("a", "x"); ("  ", "y"); ("c", "z")]) =
    ["a"; "c"].
Proof. split; reflexivity. Qed.

(** The item filter looks the trimmed path up among the untrimmed
    inputs; when it meets a [null] entry on the way the promise of the tool
    is rejected with the [TypeError], and nothing has been said or pushed. *)
Example write_rejects_on_null_entry :
  let block :=
    mkToolUse
      (mkParams JsUndefined
         (JsArray [JsObject [("path", JsString " a "); ("content", JsString "x")]; JsNull])
         None None None) false in
  let run := WriteFiles.writeFilesTool Mock.imports Mock.host block (Mock.start Mock.world0) in
  value run =
    Rejected (mkError None "Cannot read properties of null (reading 'path')") /\
  trace run = [].
Proof. split; reflexivity. Qed.
(* ===================================================================== *)
(** * Further properties of the batch tools *)
(* ===================================================================== *)

(** X1. A tool whose array parameter ([items] for the write tool,
    [paths] for the others) is absent, not an array or empty does nothing
    but report it: it asks the missing-parameter collaborator for the
    message, under its own name and the name of the parameter, and pushes
    that message as the result; the mistake counter goes up by one and
    [didEditFile] is left as it was. *)
Theorem missing_array_is_reported (L : Imports) {Env : Type} (H : Host Env)
    (name : BatchToolName) (block : ToolUse) (c : Cline Env) :
  missingArray (arrayParam name block) = true ->
  (exists answer,
     trace (runTool L H name block c) =
       [EvMissingParam (toolText name) (arrayParamText name) (arrayParamHint name) answer;
        EvPushToolResult answer]) /\
  consecutiveMistakeCount (final (runTool L H name block c)) = consecutiveMistakeCount c + 1 /\
  didEditFile (final (runTool L H name block c)) = didEditFile c.
Proof.
  intros Hm.
  assert (Ht : exists answer,
             trace (runTool L H name block c) =
               [EvMissingParam (toolText name) (arrayParamText name) (arrayParamHint name) answer;
                EvPushToolResult answer]).
  { destruct name; cbn [arrayParam] in Hm; cbn [runTool];
      [unfold ReadFiles.readFilesTool | unfold WriteFiles.writeFilesTool
      | unfold ListDirectories.listDirectoriesTool
      | unfold CreateDirectories.createDirectoriesTool
      | unfold DeleteItems.deleteItemsTool];
      rewrite Hm; run; eexists; reflexivity. }
  split; [exact Ht|]. destruct Ht as [answer Ht].
  rewrite (runTool_tallies L H name block c), (runTool_flags L H name block c), Ht.
  split; [reflexivity|]. destruct name; cbn; apply orb_false_r.
Qed.

(** The witness of X1: a deletion requested with an empty [paths]
    array. *)
Lemma missing_array_is_reported_witness :
  let block := Mock.pathsBlock [] in
  let run := runTool Mock.imports Mock.host delete_items block (Mock.start Mock.world0) in
  missingArray (arrayParam delete_items block) = true /\
  (exists answer,
     trace run =
       [EvMissingParam "delete_items" "paths"
          "Expected a non-empty array of file or directory paths to delete." answer;
        EvPushToolResult answer]) /\
  consecutiveMistakeCount (final run) = 0 + 1 /\
  didEditFile (final run) = false.
Proof.
  cbv zeta. split; [reflexivity|].
  apply (missing_array_is_reported Mock.imports Mock.host delete_items (Mock.pathsBlock [])
           (Mock.start Mock.world0)).
  reflexivity.
Defined.

(** X2. A tool that takes [paths] and is given an array none of whose
    entries is a non-blank string says so as an error and pushes the
    tool error "Invalid 'paths' parameter: No valid paths provided.";
    nothing else happens, and the mistake counter goes up by one. *)
Theorem blank_paths_are_rejected (L : Imports) {Env : Type} (H : Host Env)
    (name : BatchToolName) (block : ToolUse) (c : Cline Env) :
  takesPaths name = true ->
  missingArray (paths (params block)) = false ->
  validPaths (paths (params block)) = [] ->
  trace (runTool L H name block c) =
    [EvSay "error" "The 'paths' parameter array contains only invalid or empty paths.";
     EvPushToolResult (toolError L "Invalid 'paths' parameter: No valid paths provided.")] /\
  consecutiveMistakeCount (final (runTool L H name block c)) = consecutiveMistakeCount c + 1 /\
  didEditFile (final (runTool L H name block c)) = didEditFile c.
Proof.
  intros Hn Hm Hv.
  assert (Ht : trace (runTool L H name block c) =
    [EvSay "error" "The 'paths' parameter array contains only invalid or empty paths.";
     EvPushToolResult (toolError L "Invalid 'paths' parameter: No valid paths provided.")]).
  { destruct name; try discriminate Hn; cbn [runTool];
      [unfold ReadFiles.readFilesTool | unfold ListDirectories.listDirectoriesTool
      | unfold CreateDirectories.createDirectoriesTool
      | unfold DeleteItems.deleteItemsTool];
      rewrite Hm, Hv; cbn [length Nat.eqb]; run; reflexivity. }
  split; [exact Ht|].
  rewrite (runTool_tallies L H name block c), (runTool_flags L H name block c), Ht.
  split; [reflexivity|]. destruct name; cbn; apply orb_false_r.
Qed.

(** The witness of X2: a listing requested for a blank string and a
    number. *)
Lemma blank_paths_are_rejected_witness :
  let block :=
    mkToolUse (mkParams (JsArray [JsString "  "; JsNumber 3]) JsUndefined None None None)
      false in
  let run := runTool Mock.imports Mock.host list_directories block (Mock.start Mock.world0) in
  takesPaths list_directories = true /\
  missingArray (paths (params block)) = false /\
  validPaths (paths (params block)) = [] /\
  trace run =
    [EvSay "error" "The 'paths' parameter array contains only invalid or empty paths.";
     EvPushToolResult
       (toolError Mock.imports "Invalid 'paths' parameter: No valid paths provided.")] /\
  consecutiveMistakeCount (final run) = 0 + 1 /\
  didEditFile (final run) = false.
Proof.
  cbv zeta. split; [reflexivity|]. split; [reflexivity|]. split; [reflexivity|].
  apply (blank_paths_are_rejected Mock.imports Mock.host list_directories
           (mkToolUse (mkParams (JsArray [JsString "  "; JsNumber 3]) JsUndefined
                         None None None) false)
           (Mock.start Mock.world0)); reflexivity.
Defined.

(** X3. The mistake counter follows the trace: after a run it is the
    counter before the run, raised by one at each rejection of the
    parameters and set to 0 at each approval request.  So a run that
    reaches the approval request (answered either way) ends with the
    counter at 0, and a run that rejects nothing and asks nothing leaves
    it as it was. *)
Theorem mistake_counter_follows_the_trace (L : Imports) {Env : Type} (H : Host Env)
    (name : BatchToolName) (block : ToolUse) (c : Cline Env) :
  let run := runTool L H name block c in
  consecutiveMistakeCount (final run) = tally (consecutiveMistakeCount c) (trace run) /\
  (forall content b, In (EvAskApproval content b) (trace run) ->
     consecutiveMistakeCount (final run) = 0) /\
  (Forall (fun e => isApproval e = false /\ isRejection e = false) (trace run) ->
   consecutiveMistakeCount (final run) = consecutiveMistakeCount c).
Proof.
  cbv zeta. pose proof (runTool_tallies L H name block c) as Ht.
  split; [exact Ht|]. split.
  - intros content b Hin. rewrite Ht.
    destruct b.
    + destruct (Shape_approved _ (ToolMid_asks_no_more L H name block) _ _
                  (runTool_shape L H name block c) Hin) as (pre & mid & -> & _ & Hmid).
      rewrite tally_app. cbn. apply tally_zero.
      eapply ToolMid_rejects_no_more, Hmid.
    + destruct (Shape_denied _ (ToolMid_asks_no_more L H name block) _ _
                  (runTool_shape L H name block c) Hin) as (pre & -> & _).
      rewrite tally_app. reflexivity.
  - intros Hn. rewrite Ht. apply tally_neutral, Hn.
Qed.

(** X4. [didEditFile] is raised exactly by a successful change: after a
    run it is true when it was true before or when the tool's own
    operation succeeded for some item (a deletion for the delete tool, a
    creation for the directory tool, a file write for the write tool; the
    creation of a parent directory by the write tool does not count).  The
    read and list tools never change it. *)
Theorem didEditFile_marks_a_successful_change (L : Imports) {Env : Type} (H : Host Env)
    (name : BatchToolName) (block : ToolUse) (c : Cline Env) :
  let run := runTool L H name block c in
  didEditFile (final run) = didEditFile c || existsb (marksEdit name) (trace run) /\
  (name = read_files \/ name = list_directories -> didEditFile (final run) = didEditFile c).
Proof.
  cbv zeta. pose proof (runTool_flags L H name block c) as Hf.
  split; [exact Hf|].
  intros Hn. rewrite Hf.
  assert (He : forall tr, existsb (marksEdit name) tr = false).
  { induction tr as [|e tr IH]; [reflexivity|]. cbn. rewrite IH.
    destruct Hn as [-> | ->]; reflexivity. }
  rewrite He. apply orb_false_r.
Qed.

(** X5. Each tool talks only to its own collaborators.  In particular
    the read and list tools never call the driver ([delete],
    [createDirectory], [writeFile]), only the delete tool deletes, only
    the write tool writes files, the read tool never calls the error
    collaborator, and the directory tool never consults the ignore
    policy. *)
Theorem tools_keep_to_their_collaborators (L : Imports) {Env : Type} (H : Host Env)
    (name : BatchToolName) (block : ToolUse) (c : Cline Env) :
  let tr := trace (runTool L H name block c) in
  Forall (fun e => speaksOf name e = true) tr /\
  (name = read_files \/ name = list_directories -> Forall (fun e => isMutation e = false) tr) /\
  (forall uri r u out, In (EvFsDelete uri r u out) tr -> name = delete_items) /\
  (forall uri payload out, In (EvFsWriteFile uri payload out) tr -> name = write_files) /\
  (name = read_files -> Forall (fun e => isHandleError e = false) tr) /\
  (name = create_directories -> Forall (fun e => isValidate e = false) tr).
Proof.
  cbv zeta. pose proof (runTool_speaks L H name block c) as Hs.
  split; [exact Hs|]. rewrite Forall_forall in Hs.
  split; [|split; [|split; [|split]]].
  - intros Hn. apply Forall_forall. intros e He. apply Hs in He.
    destruct Hn as [-> | ->]; destruct e; cbn in *; congruence.
  - intros uri r u out Hin. apply Hs in Hin. destruct name; cbn in Hin; congruence.
  - intros uri payload out Hin. apply Hs in Hin. destruct name; cbn in Hin; congruence.
  - intros ->. apply Forall_forall. intros e He. apply Hs in He.
    destruct e; cbn in *; congruence.
  - intros ->. apply Forall_forall. intros e He. apply Hs in He.
    destruct e; cbn in *; congruence.
Qed.

(** X6. A block streamed in part is only announced.  Its run asks for
    no approval and performs no operation.  Either it is the same run as
    that of the complete block (the parameters are rejected, or the ignore
    policy refuses the batch), or the two runs make the same checks, after
    which the partial run ends by announcing, with [partial = true], the very
    payload that the complete run submits for approval; then the mistake
    counter is left as it was, not reset. *)
Theorem partial_block_is_only_announced (L : Imports) {Env : Type} (H : Host Env)
    (name : BatchToolName) (block : ToolUse) (c : Cline Env) :
  let partialRun := runTool L H name (asPartial block true) c in
  let completeRun := runTool L H name (asPartial block false) c in
  Announces (trace partialRun) (trace completeRun) /\
  (forall content b, In (EvAsk content b) (trace partialRun) ->
     consecutiveMistakeCount (final partialRun) = consecutiveMistakeCount c).
Proof.
  cbv zeta.
  assert (Ha : Announces (trace (runTool L H name (asPartial block true) c))
                         (trace (runTool L H name (asPartial block false) c))).
  { destruct name; cbn [runTool].
    - apply read_announces.
    - run. rewrite !app_nil_r. apply write_announces.
    - apply list_announces.
    - apply create_announces.
    - apply delete_announces. }
  split; [exact Ha|].
  intros content b Hin. rewrite (runTool_tallies L H name (asPartial block true) c).
  destruct Ha as [_ [[Hno _] | (checks & ct & E & Hc & _)]].
  - rewrite Forall_forall in Hno. apply Hno in Hin. discriminate.
  - rewrite E. apply tally_neutral. apply Forall_app. split.
    + eapply Forall_impl; [|exact Hc]. intros e He. split.
      * apply check_not_approval, He.
      * apply check_no_rejection, He.
    + repeat constructor.
Qed.

(** X7. After an approved batch the delete, create and write tools say
    one sentence before the report, and nothing else: their summary, with
    the number of results whose status is success and the number whose
    status is error; the two numbers add up to the number of items, and a
    result has the status success exactly when it carries no error.  The
    read and list tools say nothing after the approval. *)
Theorem summary_counts_the_outcomes (L : Imports) {Env : Type} (H : Host Env)
    (name : BatchToolName) (block : ToolUse) (c : Cline Env) (content : string) :
  In (EvAskApproval content true) (trace (runTool L H name block c)) ->
  exists rep,
    reportTool rep = name /\
    filter isPush (trace (runTool L H name block c)) = [EvPushToolResult (reportText rep)] /\
    filter isSay (trace (runTool L H name block c)) =
      match summaryOf name (countStatus st_success (reportStatuses rep))
              (countStatus st_error (reportStatuses rep)) with
      | Some text => [EvSay "text" text]
      | None => []
      end /\
    (summaryOf name 0 0 <> None ->
     countStatus st_success (reportStatuses rep) + countStatus st_error (reportStatuses rep) =
       Z.of_nat (length (processedPaths name block)) /\
     Forall2 (fun s row => s = st_success <-> snd row = None)
             (reportStatuses rep) (reportRows rep)).
Proof.
  intros Hin.
  destruct (approved_run_exact L H name block c content Hin)
    as (pre & lead & chunks & rep & E & Hpre & Hlead & HL & Hw).
  pose proof (LoopOf_tool L H _ _ _ _ HL) as Hn.
  pose proof (LoopOf_events L H _ _ _ _ HL) as Hev.
  pose proof (LoopOf_paths L H _ _ _ _ HL) as Hp.
  exists rep. split; [exact Hn|]. rewrite E.
  assert (Hwords : Forall (fun e => isSay e = true) (closingWords rep)).
  { destruct rep; repeat constructor. }
  split; [|split].
  - rewrite filter_app. cbn [filter isPush]. rewrite !filter_app.
    rewrite (filter_none isPush pre), (filter_none isPush lead),
      (filter_none isPush (concat chunks)), (filter_none isPush (closingWords rep)).
    + reflexivity.
    + eapply Forall_impl; [|exact Hwords]. intros []; cbn; congruence.
    + eapply Forall_impl; [|exact Hev]. intros e. apply loop_event_no_push.
    + eapply Forall_impl; [|exact Hlead]. intros e. apply check_not_push.
    + eapply Forall_impl; [|exact Hpre]. intros e. apply check_not_push.
  - rewrite filter_app. cbn [filter isSay]. rewrite !filter_app.
    rewrite (filter_none isSay pre), (filter_none isSay lead),
      (filter_none isSay (concat chunks)).
    + cbn [app filter isSay]. rewrite app_nil_r.
      rewrite <- Hn, <- (closingWords_count rep Hw).
      clear -Hwords. induction Hwords as [|e l He _ IH]; [reflexivity|].
      cbn [filter]. rewrite He, IH. reflexivity.
    + eapply Forall_impl; [|exact Hev]. intros e. apply loop_event_no_say.
    + eapply Forall_impl; [|exact Hlead]. intros e. apply check_no_say.
    + eapply Forall_impl; [|exact Hpre]. intros e. apply check_no_say.
  - intros Hs. split.
    + rewrite countStatus_total, <- Hp, length_map.
      destruct rep as [m rs|rs|rs|rs|rs]; cbn [reportStatuses reportRows]; subst name;
        cbn in Hs; try contradiction; rewrite !length_map; reflexivity.
    + apply wellFormed_rows; [exact Hw | rewrite Hn; exact Hs].
Qed.

(** The witness of X7: a deletion of an existing file, of a path that
    does not exist and of a directory; two successes and one failure are
    announced. *)
Lemma summary_counts_the_outcomes_witness :
  let block := Mock.pathsBlock ["a.txt"; "zz"; "d"] in
  let tr := trace (runTool Mock.imports Mock.host delete_items block
                     (Mock.start Mock.world0)) in
  filter isSay tr =
    [EvSay "text"
       "Batch deletion completed. 2 item(s) deleted successfully. 1 item(s) failed to delete or were not found."] /\
  exists content,
    In (EvAskApproval content true) tr /\
    exists rep,
      reportTool rep = delete_items /\
      filter isPush tr = [EvPushToolResult (reportText rep)] /\
      filter isSay tr =
        match summaryOf delete_items (countStatus st_success (reportStatuses rep))
                (countStatus st_error (reportStatuses rep)) with
        | Some text => [EvSay "text" text]
        | None => []
        end /\
      (summaryOf delete_items 0 0 <> None ->
       countStatus st_success (reportStatuses rep) + countStatus st_error (reportStatuses rep) =
         Z.of_nat (length (processedPaths delete_items block)) /\
       Forall2 (fun s row => s = st_success <-> snd row = None)
               (reportStatuses rep) (reportRows rep)).
Proof.
  cbv zeta. split; [vm_compute; reflexivity|].
  eexists. split.
  - vm_compute. do 3 right. left. reflexivity.
  - eapply (summary_counts_the_outcomes Mock.imports Mock.host delete_items
              (Mock.pathsBlock ["a.txt"; "zz"; "d"]) (Mock.start Mock.world0)).
    vm_compute. do 3 right. left. reflexivity.
Defined.

(** X8. In an approved batch every item leaves the events and the
    result that the outcomes of its own calls tell ([Recorded]), and a
    failure is reported in one way.  The error caught is one that a call of
    the item threw, or the refusal of the fresh access check.  The delete,
    create, write and list tools hand it to the error collaborator exactly
    once, with an action that names the item ("deleting p", "creating
    directory p", "writing file p", "listing directory p"); the read tool
    never does.  The item's result records the message of the error, or the
    tool's fallback when the message is empty.  The one exception is a
    deletion that fails with an error whose code is FileNotFound: it is
    recorded as "File or directory not found." and not handed to the error
    collaborator.  An item whose result carries no error is one none of
    whose calls threw (the line count and the binary probe of the read tool
    apart, whose failure the loop absorbs), and nothing is handed to the
    error collaborator for it. *)
Theorem failures_are_reported_once (L : Imports) {Env : Type} (H : Host Env)
    (name : BatchToolName) (block : ToolUse) (c : Cline Env) (content : string) :
  In (EvAskApproval content true) (trace (runTool L H name block c)) ->
  exists pre lead chunks rep,
    trace (runTool L H name block c) =
      pre ++ EvAskApproval content true :: lead ++ concat chunks ++ closingWords rep
          ++ [EvPushToolResult (reportText rep)] /\
    Forall (fun e => isCheck e = true) pre /\
    Forall (fun e => isCheck e = true) lead /\
    length chunks = length (processedPaths name block) /\
    length (reportRows rep) = length (processedPaths name block) /\
    Recorded L H name block chunks rep /\
    Forall2 (fun p cr => FailureReported L name p (fst cr) (snd cr))
            (processedPaths name block) (combine chunks (reportRows rep)).
Proof.
  intros Hin.
  destruct (approved_outcomes L H name block c content Hin)
    as (pre & lead & chunks & rep & E & Hpre & Hlead & HL & _ & Hrec).
  destruct (LoopOf_lengths L H name block chunks rep HL) as [Hc Hr].
  exists pre, lead, chunks, rep. repeat split; auto.
  apply (Recorded_failures L H), Hrec.
Qed.

(** The witness of X8: a deletion of a file the driver refuses to
    touch, of a path that is not there and of a directory.  The first
    failure is handed to the error collaborator, the second is not. *)
Lemma failures_are_reported_once_witness :
  let block := Mock.pathsBlock ["a.txt"; "zz"; "d"] in
  let tr := trace (runTool Mock.imports Mock.host delete_items block
                     (Mock.start Mock.lockedWorld)) in
  filter (fun e => isOperation e || isHandleError e || isPush e) tr =
    [EvFsDelete "/w/a.txt" true false (Rejected Mock.noPermission);
     EvHandleError "deleting a.txt" Mock.noPermission;
     EvFsDelete "/w/zz" true false (Rejected Mock.noEntry);
     EvFsDelete "/w/d" true false (Fulfilled tt);
     EvPushToolResult
       (reportText (DeleteReport
          [DeleteItems.mkResult "a.txt" st_error (Some "Permission denied");
           DeleteItems.mkResult "zz" st_error (Some "File or directory not found.");
           DeleteItems.mkResult "d" st_success None]))] /\
  exists content,
    In (EvAskApproval content true) tr /\
    exists pre lead chunks rep,
      tr = pre ++ EvAskApproval content true :: lead ++ concat chunks ++ closingWords rep
             ++ [EvPushToolResult (reportText rep)] /\
      Forall (fun e => isCheck e = true) pre /\
      Forall (fun e => isCheck e = true) lead /\
      length chunks = length (processedPaths delete_items block) /\
      length (reportRows rep) = length (processedPaths delete_items block) /\
      Recorded Mock.imports Mock.host delete_items block chunks rep /\
      Forall2 (fun p cr => FailureReported Mock.imports delete_items p (fst cr) (snd cr))
              (processedPaths delete_items block) (combine chunks (reportRows rep)).
Proof.
  cbv zeta. split; [vm_compute; reflexivity|].
  eexists. split.
  - vm_compute. do 3 right. left. reflexivity.
  - eapply (failures_are_reported_once Mock.imports Mock.host delete_items
              (Mock.pathsBlock ["a.txt"; "zz"; "d"]) (Mock.start Mock.lockedWorld)).
    vm_compute. do 3 right. left. reflexivity.
Defined.







(** When neither the first lines nor the outline can be had and the outline
    is the first to fail, it is the outline's error that the file's result
    carries, though the call to [readLines] comes first in the trace. *)
Example read_reports_the_first_rejection :
  let tr := trace (ReadFiles.readFilesTool Mock.imports Scenes.racingHost
                     (Mock.pathsBlock ["long.ts"]) (Mock.start Mock.longWorld)) in
  filter isOperation tr =
    [EvCountFileLines "/w/long.ts" (Fulfilled 600);
     EvIsBinaryFile "/w/long.ts" (Fulfilled false);
     EvReadLines "/w/long.ts" (Some 499) (Some 0)
       (Rejected (mkError None "readLines failed"));
     EvParseDefinitions "/w/long.ts" (Rejected (mkError None "outline failed"))] /\
  last tr (EvGetState None) =
    EvPushToolResult
      (ReadFiles.formatResults 500
         [ReadFiles.mkResult "long.ts" None (Some "outline failed") None None None]).
Proof. cbv zeta. split; vm_compute; reflexivity. Qed.

(** X12. A read whose [start_line] or [end_line] is given but does not
    start with an integer ([parseInt] yields NaN) is rejected before the
    settings are read, the policy is consulted or anything is asked: the tool
    says "Failed to parse" with the name and the text of the first such
    bound, pushes the tool error "Invalid start_line value" or "Invalid
    end_line value", and the mistake counter goes up by one. *)
Theorem unparsable_bound_is_rejected (L : Imports) {Env : Type} (H : Host Env)
    (block : ToolUse) (c : Cline Env) (which raw : string) :
  missingArray (paths (params block)) = false ->
  validPaths (paths (params block)) <> [] ->
  badBound block = Some (which, raw) ->
  trace (ReadFiles.readFilesTool L H block c) =
    [EvSay "error" ("Failed to parse " ^^ which ^^ ": " ^^ raw);
     EvPushToolResult (toolError L ("Invalid " ^^ which ^^ " value"))] /\
  consecutiveMistakeCount (final (ReadFiles.readFilesTool L H block c)) =
    consecutiveMistakeCount c + 1 /\
  (forall str, ReadFiles.parseLine (Some str) = None <-> str <> "" /\ parseInt str = None).
Proof.
  intros Hm Hv Hb.
  assert (Ht : trace (ReadFiles.readFilesTool L H block c) =
    [EvSay "error" ("Failed to parse " ^^ which ^^ ": " ^^ raw);
     EvPushToolResult (toolError L ("Invalid " ^^ which ^^ " value"))]).
  { unfold ReadFiles.readFilesTool. rewrite Hm.
    destruct (nonempty_length _ Hv) as [-> _].
    unfold badBound in Hb.
    destruct (ReadFiles.parseLine (start_line (params block))) as [s|].
    - destruct (ReadFiles.parseLine (end_line (params block))) as [e|]; [discriminate|].
      inversion Hb; subst. run. reflexivity.
    - inversion Hb; subst. run. reflexivity. }
  split; [exact Ht|]. split.
  - rewrite (read_tallies L H block c), Ht. reflexivity.
  - intros str. unfold ReadFiles.parseLine. cbn [truthyStr].
    destruct (str =? "")%string eqn:E; cbn [negb].
    + apply String.eqb_eq in E. split; [discriminate | intros [Hn _]; contradiction].
    + apply String.eqb_neq in E. destruct (parseInt str); split;
        try discriminate; intros; auto; destruct H0; discriminate.
Qed.

(** The witness of X12: a read from line "abc". *)
Lemma unparsable_bound_is_rejected_witness :
  let block :=
    mkToolUse (mkParams (JsArray [JsString "a.txt"]) JsUndefined (Some "abc") (Some "3") None)
      false in
  let run := ReadFiles.readFilesTool Mock.imports Mock.host block (Mock.start Mock.world0) in
  missingArray (paths (params block)) = false /\
  validPaths (paths (params block)) <> [] /\
  badBound block = Some ("start_line", "abc") /\
  trace run =
    [EvSay "error" "Failed to parse start_line: abc";
     EvPushToolResult (toolError Mock.imports "Invalid start_line value")] /\
  consecutiveMistakeCount (final run) = 0 + 1 /\
  (forall str, ReadFiles.parseLine (Some str) = None <-> str <> "" /\ parseInt str = None).
Proof.
  cbv zeta. split; [reflexivity|]. split; [discriminate|]. split; [reflexivity|].
  apply (unparsable_bound_is_rejected Mock.imports Mock.host
           (mkToolUse (mkParams (JsArray [JsString "a.txt"]) JsUndefined
                         (Some "abc") (Some "3") None) false)
           (Mock.start Mock.world0) "start_line" "abc");
    [reflexivity | discriminate | reflexivity].
Defined.

(** X13. A batch of write items all of which are valid (objects with a
    non-blank string [path] and a string [content]) is processed whole:
    the tool goes on with one item per entry, in order, each with its path
    trimmed and its content as given; and once approved it reports one
    result per entry, under the trimmed path. *)
Theorem valid_batch_is_processed_whole (L : Imports) {Env : Type} (H : Host Env)
    (block : ToolUse) (c : Cline Env) :
  missingArray (items (params block)) = false ->
  forallb entryValid (arrayElems (items (params block))) = true ->
  itemsToProcess block = Some (map toItem (arrayElems (items (params block)))) /\
  forall content,
    In (EvAskApproval content true) (trace (runTool L H write_files block c)) ->
    exists pre chunks results,
      trace (runTool L H write_files block c) =
        pre ++ EvAskApproval content true :: concat chunks
            ++ closingWords (WriteReport results)
            ++ [EvPushToolResult (reportText (WriteReport results))] /\
      map WriteFiles.r_path results =
        map (fun entry => trim (WriteFiles.stringOf (WriteFiles.propOf entry "path")))
            (arrayElems (items (params block))) /\
      length chunks = length (arrayElems (items (params block))).
Proof.
  intros Hm Hv.
  pose proof (itemsToProcess_clean block Hm Hv) as Hits.
  split; [exact Hits|]. intros content Hin.
  destruct (write_anatomy L H block c content Hin)
    as (pre & its & chunks & rs & E & _ & Eits & HR).
  rewrite Hits in Eits. inversion Eits; subst its. clear Eits.
  exists pre, chunks, rs. split; [exact E|].
  destruct (Runs_length _ _ _ _ HR) as [_ Hlen].
  split; [|rewrite Hlen, length_map; reflexivity].
  rewrite <- (map_map toItem WriteFiles.path).
  apply Forall2_map_eq.
  eapply Runs_results; [|exact HR]. intros x acc c' r Hv'.
  destruct (writeItem_run L H x acc c') as (_ & Hv'').
  rewrite Hv' in Hv''. apply app_inv_head in Hv''. inversion Hv'' as [Hr].
  destruct (value (WriteFiles.writeOne L H x c')); reflexivity.
Qed.

(** The witness of X13: two valid items, the first with blanks around
    its path. *)
Lemma valid_batch_is_processed_whole_witness :
  let block := Mock.writeBlock [(" a.txt ", "x"); ("new/b.txt", "y")] in
  let tr := trace (runTool Mock.imports Mock.host write_files block
                     (Mock.start Mock.world0)) in
  missingArray (items (params block)) = false /\
  forallb entryValid (arrayElems (items (params block))) = true /\
  itemsToProcess block = Some [WriteFiles.mkItem "a.txt" "x"; WriteFiles.mkItem "new/b.txt" "y"] /\
  forall content,
    In (EvAskApproval content true) tr ->
    exists pre chunks results,
      tr = pre ++ EvAskApproval content true :: concat chunks
             ++ closingWords (WriteReport results)
             ++ [EvPushToolResult (reportText (WriteReport results))] /\
      map WriteFiles.r_path results = ["a.txt"; "new/b.txt"] /\
      length chunks = 2%nat.
Proof.
  cbv zeta. split; [reflexivity|]. split; [reflexivity|].
  apply (valid_batch_is_processed_whole Mock.imports Mock.host
           (Mock.writeBlock [(" a.txt ", "x"); ("new/b.txt", "y")]) (Mock.start Mock.world0));
    reflexivity.
Defined.

(** X14. The validation of the write items stops collecting at the
    first entry that is not valid: the valid items are the entries before
    it, the items the tool goes on with are some of those, in order, and
    every file the tool writes is the file of such an entry, written with
    that entry's content.  Nothing is written for an entry at or after the
    first invalid one, even a valid one. *)
Theorem nothing_is_written_past_an_invalid_entry (L : Imports) {Env : Type} (H : Host Env)
    (block : ToolUse) (c : Cline Env) :
  let itemsInput := arrayElems (items (params block)) in
  fst (WriteFiles.validateFrom itemsInput 0 [] []) = map toItem (validPrefix itemsInput) /\
  (forall its, itemsToProcess block = Some its ->
     exists keep, its = filter keep (map toItem (validPrefix itemsInput))) /\
  (forall uri payload out,
     In (EvFsWriteFile uri payload out) (trace (runTool L H write_files block c)) ->
     exists entry,
       In entry (validPrefix itemsInput) /\
       uri = path_resolve L (cwd H) (WriteFiles.path (toItem entry)) /\
       payload = encode (WriteFiles.content (toItem entry))).
Proof.
  cbv zeta. split; [apply (validateFrom_prefix _ 0 [])|].
  split; [apply itemsToProcess_prefix|].
  intros uri payload out Hin.
  destruct (runTool_shape L H write_files block c)
    as [Hq | [(pre & ct & E & Hpre) | (pre & ct & mid & E & Hpre & Hmid)]].
  - rewrite Forall_forall in Hq. apply Hq in Hin. discriminate.
  - rewrite E in Hin. apply in_app_or in Hin. destruct Hin as [Hin | [Hin | []]].
    + rewrite Forall_forall in Hpre. apply Hpre in Hin. discriminate.
    + discriminate.
  - cbn [ToolMid] in Hmid. destruct Hmid as (its & Hits & chunks & rs & HR & ->).
    rewrite E in Hin. apply in_app_or in Hin. destruct Hin as [Hin | [Hin | Hin]].
    + rewrite Forall_forall in Hpre. apply Hpre in Hin. discriminate.
    + discriminate.
    + apply in_app_or in Hin. destruct Hin as [Hin | Hin].
      * destruct (Runs_In _ _ _ _ _ HR Hin) as (x & acc & c' & r & Hx & _ & He).
        destruct (writeItem_writes L H x acc c' uri payload out He) as [-> ->].
        destruct (itemsToProcess_prefix block its Hits) as [keep ->].
        apply filter_In in Hx. destruct Hx as [Hx _].
        apply in_map_iff in Hx. destruct Hx as (entry & <- & Hentry).
        exists entry. auto.
      * destruct Hin as [Hin | [Hin | []]]; discriminate.
Qed.

(** X15. The first rejection of the write tool (lines 67-76), for a
    validation error that names both a missing path and a missing
    content, is never taken: every validation error names one defect of
    one entry, so none holds both phrases.  The only error the tool ever
    says is that no valid item was found. *)
Theorem combined_error_is_never_raised (L : Imports) {Env : Type} (H : Host Env)
    (block : ToolUse) (c : Cline Env) :
  (forall itemsInput i valid,
     WriteFiles.hasCombinedError (snd (WriteFiles.validateFrom itemsInput i valid [])) = false) /\
  (forall text,
     In (EvSay "error" text) (trace (WriteFiles.writeFilesTool L H block c)) ->
     text = noValidItems
              (snd (WriteFiles.validateFrom (arrayElems (items (params block))) 0 [] []))).
Proof.
  split; [apply hasCombinedError_never|].
  intros text. unfold WriteFiles.writeFilesTool.
  destruct (missingArray (items (params block))).
  { run. intros Hin. split_in Hin; discriminate. }
  pose proof (hasCombinedError_never (arrayElems (items (params block))) 0 []) as Hnever.
  destruct (WriteFiles.validateFrom (arrayElems (items (params block))) 0 [] [])
    as [validItems errs].
  cbn [snd] in *. rewrite Hnever.
  destruct (WriteFiles.selectItems _ errs validItems) as [its|e].
  2:{ run. intros []. }
  destruct (_ && _).
  { run. intros Hin. destruct Hin as [E | [E | []]]; [|discriminate].
    inversion E. reflexivity. }
  run. rewrite app_nil_r. intros Hin.
  pose proof (processItems_rejects_nothing L H block its c) as Hn.
  rewrite Forall_forall in Hn. apply Hn in Hin. discriminate.
Qed.

(** X16. A write batch whose first entry is not valid is rejected as a
    whole, even when later entries are valid: the tool says and pushes the
    error "No valid items found" with the validation errors, probes and
    writes nothing, asks nothing, and the mistake counter goes up by
    one. *)
Theorem invalid_first_entry_rejects_the_batch (L : Imports) {Env : Type} (H : Host Env)
    (block : ToolUse) (c : Cline Env) :
  missingArray (items (params block)) = false ->
  validPrefix (arrayElems (items (params block))) = [] ->
  let msg :=
    noValidItems (snd (WriteFiles.validateFrom (arrayElems (items (params block))) 0 [] [])) in
  trace (WriteFiles.writeFilesTool L H block c) =
    [EvSay "error" msg; EvPushToolResult (toolError L msg)] /\
  value (WriteFiles.writeFilesTool L H block c) = Fulfilled tt /\
  consecutiveMistakeCount (final (WriteFiles.writeFilesTool L H block c)) =
    consecutiveMistakeCount c + 1.
Proof.
  intros Hm Hp. cbv zeta.
  assert (Hrun : trace (WriteFiles.writeFilesTool L H block c) =
            [EvSay "error"
               (noValidItems
                  (snd (WriteFiles.validateFrom (arrayElems (items (params block))) 0 [] [])));
             EvPushToolResult
               (toolError L
                  (noValidItems
                     (snd (WriteFiles.validateFrom (arrayElems (items (params block))) 0 [] []))))]
            /\ value (WriteFiles.writeFilesTool L H block c) = Fulfilled tt).
  { unfold WriteFiles.writeFilesTool. rewrite Hm.
    pose proof (hasCombinedError_never (arrayElems (items (params block))) 0 []) as Hnever.
    pose proof (validateFrom_prefix (arrayElems (items (params block))) 0 []) as Hvalid.
    rewrite Hp in Hvalid. cbn [map app] in Hvalid.
    destruct (WriteFiles.validateFrom (arrayElems (items (params block))) 0 [] [])
      as [validItems errs].
    cbn [fst snd] in *. subst validItems. rewrite Hnever.
    cbn [WriteFiles.selectItems length Nat.eqb andb].
    destruct (nonempty_length _ (missingArray_nonempty _ Hm)) as [_ ->].
    run. auto. }
  destruct Hrun as [Ht Hv]. split; [exact Ht|]. split; [exact Hv|].
  rewrite (write_tallies L H block c), Ht. reflexivity.
Qed.

(** The witness of X16: an entry without a path, followed by a valid
    one. *)
Lemma invalid_first_entry_rejects_the_batch_witness :
  let block :=
    mkToolUse
      (mkParams JsUndefined
         (JsArray [JsObject [("content", JsString "x")];
                   JsObject [("path", JsString "b.txt"); ("content", JsString "y")]])
         None None None) false in
  let run := WriteFiles.writeFilesTool Mock.imports Mock.host block (Mock.start Mock.world0) in
  missingArray (items (params block)) = false /\
  validPrefix (arrayElems (items (params block))) = [] /\
  let msg :=
    noValidItems (snd (WriteFiles.validateFrom (arrayElems (items (params block))) 0 [] [])) in
  msg = "Invalid 'items' parameter: No valid items found. Errors: Item at index 0 is missing a valid 'path'." /\
  trace run = [EvSay "error" msg; EvPushToolResult (toolError Mock.imports msg)] /\
  value run = Fulfilled tt /\
  consecutiveMistakeCount (final run) = 0 + 1.
Proof.
  cbv zeta. split; [reflexivity|]. split; [reflexivity|]. split; [reflexivity|].
  apply (invalid_first_entry_rejects_the_batch Mock.imports Mock.host
           (mkToolUse
              (mkParams JsUndefined
                 (JsArray [JsObject [("content", JsString "x")];
                           JsObject [("path", JsString "b.txt"); ("content", JsString "y")]])
                 None None None) false)
           (Mock.start Mock.world0)); reflexivity.
Defined.



(** X18. [loadRuleFiles] reads ".clinerules", ".cursorrules" and
    ".windsurfrules" of the working directory, in this order.  A file that
    is not there, or is a directory, counts as empty; the trimmed content of
    each non-empty file is added under a "# Rules from <file>:" heading, in
    the order of the files.  Any other read error stops the loop: it is
    thrown again and the files after it are not read. *)
Theorem rule_files_are_read_in_order (L : Prompts.Imports) {Env : Type}
    (H : Prompts.Host Env) (cwd : string) (e : Env) :
  let r := Prompts.loadRuleFiles L H cwd e in
  exists outcomes,
    Prompts.reads r = readsOf (map (Prompts.path_join L cwd) Prompts.ruleFiles) outcomes /\
    Stopped (map (Prompts.path_join L cwd) Prompts.ruleFiles) outcomes (Prompts.result r) /\
    Prompts.result r = rulesFrom Prompts.ruleFiles outcomes.
Proof.
  cbv zeta. unfold Prompts.loadRuleFiles.
  destruct (loadFrom_reads L H cwd Prompts.ruleFiles "" e) as (outs & Er & Hst & Eres).
  exists outs. repeat split; auto.
  rewrite Eres. destruct (rulesFrom Prompts.ruleFiles outs); reflexivity.
Qed.

(** X19. [addCustomInstructions] reads the rule file of the mode
    first, when a mode is given, then the three generic rule files, and
    stops at the first read error that is not an absence.  When it returns,
    its components are assembled from the arguments, the content of the
    mode's rule file and the combined generic rules: [rulesAll] is "Rules:"
    over the non-empty rule parts (mode, rooignore, generic, in this order)
    and [fullSection] is the section head over the non-empty sections
    (language, global, mode-specific, rules), each joined by a blank line,
    and each empty when no part is left. *)
Theorem custom_instructions_are_assembled_from_the_reads (L : Prompts.Imports) {Env : Type}
    (H : Prompts.Host Env) (modeCustomInstructions globalCustomInstructions : JsValue)
    (cwd mode : string) (language rooIgnoreInstructions : option string) (e : Env) :
  let r := Prompts.addCustomInstructions L H modeCustomInstructions globalCustomInstructions
             cwd mode language rooIgnoreInstructions e in
  exists outcomes,
    Prompts.reads r = readsOf (ruleFilesFor L cwd mode) outcomes /\
    Stopped (ruleFilesFor L cwd mode) outcomes (Prompts.result r) /\
    forall comps, Prompts.result r = Fulfilled comps ->
      exists modeRuleContent genericRuleContent,
        (if Prompts.nonEmpty mode
         then exists outcome rest,
                outcomes = outcome :: rest /\ settled outcome = Fulfilled modeRuleContent /\
                rulesFrom Prompts.ruleFiles rest = Fulfilled genericRuleContent
         else modeRuleContent = "" /\
              rulesFrom Prompts.ruleFiles outcomes = Fulfilled genericRuleContent) /\
        Assembled L modeCustomInstructions globalCustomInstructions mode language
          rooIgnoreInstructions modeRuleContent genericRuleContent comps.
Proof.
  intros r.
  destruct (addCustomInstructions_run L H modeCustomInstructions globalCustomInstructions
              cwd mode language rooIgnoreInstructions e) as (outs & Er & Hst & Hc).
  exists outs. split; [exact Er|]. split; [exact Hst|]. exact Hc.
Qed.

(** X20. In the components [addCustomInstructions] returns,
    [rulesAll] is empty exactly when the three rule parts are, and
    [fullSection] is empty exactly when the language preference, the global
    and the mode-specific instructions and [rulesAll] all are. *)
Theorem section_is_empty_only_without_parts (L : Prompts.Imports) {Env : Type}
    (H : Prompts.Host Env) (modeCustomInstructions globalCustomInstructions : JsValue)
    (cwd mode : string) (language rooIgnoreInstructions : option string) (e : Env)
    (comps : Prompts.CustomInstructionsComponents) :
  Prompts.result (Prompts.addCustomInstructions L H modeCustomInstructions
                    globalCustomInstructions cwd mode language rooIgnoreInstructions e)
    = Fulfilled comps ->
  (Prompts.rulesAll comps = "" <->
     Prompts.rulesModeSpecific comps = "" /\ Prompts.rulesRooIgnore comps = "" /\
     Prompts.rulesGeneric comps = "") /\
  (Prompts.fullSection comps = "" <->
     Prompts.languagePreference comps = "" /\ Prompts.globalInstructions comps = "" /\
     Prompts.modeSpecificInstructions comps = "" /\ Prompts.rulesAll comps = "").
Proof.
  intros Er.
  destruct (addCustomInstructions_run L H modeCustomInstructions globalCustomInstructions
              cwd mode language rooIgnoreInstructions e) as (outs & _ & _ & Hc).
  destruct (Hc comps Er) as (mc & gc & _ & Has).
  destruct Has as (_ & _ & _ & _ & _ & _ & Eall & Efull).
  rewrite Eall at 1. rewrite Efull.
  rewrite !assembled_empty by reflexivity. split; split.
  - intros Hall. rewrite !Forall_cons_iff in Hall. tauto.
  - intros (-> & -> & ->). repeat constructor.
  - intros Hall. rewrite !Forall_cons_iff in Hall. tauto.
  - intros (-> & -> & -> & ->). repeat constructor.
Qed.

(** The witness of X20: French, and a [.clinerules] file. *)
Lemma section_is_empty_only_without_parts_witness :
  let d := Prompts.mkDisk [("/w/.clinerules", "be brief")] [] [] in
  exists comps,
    Prompts.result (Prompts.addCustomInstructions Prompts.imports Prompts.disk
                      JsUndefined (JsString "  ") "/w" "code" (Some "fr") None d)
      = Fulfilled comps /\
    Prompts.rulesModeSpecific comps = "" /\
    Prompts.rulesAll comps
      = "Rules:" ^^ nl ^^ nl ^^ "# Rules from .clinerules:" ^^ nl ^^ "be brief" /\
    (Prompts.rulesAll comps = "" <->
       Prompts.rulesModeSpecific comps = "" /\ Prompts.rulesRooIgnore comps = "" /\
       Prompts.rulesGeneric comps = "") /\
    (Prompts.fullSection comps = "" <->
       Prompts.languagePreference comps = "" /\ Prompts.globalInstructions comps = "" /\
       Prompts.modeSpecificInstructions comps = "" /\ Prompts.rulesAll comps = "").
Proof.
  cbv zeta. eexists. split; [vm_compute; reflexivity|].
  split; [reflexivity|]. split; [vm_compute; reflexivity|].
  apply (section_is_empty_only_without_parts Prompts.imports Prompts.disk
           JsUndefined (JsString "  ") "/w" "code" (Some "fr") None
           (Prompts.mkDisk [("/w/.clinerules", "be brief")] [] [])).
  vm_compute. reflexivity.
Defined.

(** X21. When a read of [addCustomInstructions] fails with an error
    that has no code, or a code other than ENOENT and EISDIR, the call is
    rejected with this very error and the failed read is its last: no file
    is read after it. *)
Theorem hard_read_error_is_thrown_again (L : Prompts.Imports) {Env : Type}
    (H : Prompts.Host Env) (modeCustomInstructions globalCustomInstructions : JsValue)
    (cwd mode : string) (language rooIgnoreInstructions : option string) (e : Env)
    (filePath : string) (err : JsError) :
  let r := Prompts.addCustomInstructions L H modeCustomInstructions globalCustomInstructions
             cwd mode language rooIgnoreInstructions e in
  In (Prompts.EvReadFile filePath (Rejected err)) (Prompts.reads r) ->
  isHard err = true ->
  Prompts.result r = Rejected err /\
  exists before, Prompts.reads r = before ++ [Prompts.EvReadFile filePath (Rejected err)].
Proof.
  intros r Hin Hh.
  destruct (addCustomInstructions_run L H modeCustomInstructions globalCustomInstructions
              cwd mode language rooIgnoreInstructions e) as (outs & Er & Hst & _).
  fold r in Er, Hst. rewrite Er in Hin |- *.
  eapply Stopped_at_hard; eauto.
Qed.

(** The witness of X21: [.cursorrules] cannot be read; the mode's
    rule file is not there and [.windsurfrules] is never tried. *)
Lemma hard_read_error_is_thrown_again_witness :
  let d := Prompts.mkDisk [("/w/.clinerules", "be brief"); ("/w/.windsurfrules", "x")] []
             ["/w/.cursorrules"] in
  let r := Prompts.addCustomInstructions Prompts.imports Prompts.disk
             (JsString "a") (JsString "b") "/w" "code" None None d in
  let err := Prompts.errno "EACCES" "/w/.cursorrules" in
  Prompts.reads r =
    [Prompts.EvReadFile "/w/.clinerules-code"
       (Rejected (Prompts.errno "ENOENT" "/w/.clinerules-code"));
     Prompts.EvReadFile "/w/.clinerules" (Fulfilled "be brief");
     Prompts.EvReadFile "/w/.cursorrules" (Rejected err)] /\
  isHard err = true /\
  Prompts.result r = Rejected err /\
  exists before, Prompts.reads r = before ++ [Prompts.EvReadFile "/w/.cursorrules" (Rejected err)].
Proof.
  cbv zeta. split; [vm_compute; reflexivity|]. split; [reflexivity|].
  apply (hard_read_error_is_thrown_again Prompts.imports Prompts.disk
           (JsString "a") (JsString "b") "/w" "code" None None
           (Prompts.mkDisk [("/w/.clinerules", "be brief"); ("/w/.windsurfrules", "x")] []
              ["/w/.cursorrules"])
           "/w/.cursorrules" (Prompts.errno "EACCES" "/w/.cursorrules")).
  - vm_compute. do 2 right. left. reflexivity.
  - reflexivity.
Defined.
